(** * saga_cost_calculator: header parsing, resource normalization, cost model

    A shallow embedding of [scripts/job_management/saga_cost_calculator.py]:
    [extract_slurmheader_arguments], [parse_slurmargs] with its four nested
    parsers, and [calculate_sbatch_jobcost_per_queue].

    Modelling conventions.
    - A Python [str] is a [string] of code points below 256 (Latin-1); the
      character classes of [str.isspace], [\s], [\d], [str.lower] and [int]
      are the ones CPython has on that range.
    - A Python [int] is a [Z]; [int(str)] is [py_int] (base 10, optional
      sign, single underscores between digits, surrounding white space), with
      the interpreter's limit on the number of digits at its default, 4300:
      the script does not change it.
    - A Python [float] is an IEEE 754 binary64 value, a [spec_float] with
      [prec = 53] and [emax = 1024]; [+], [*], [/] round to nearest even.
      Converting an [int] that is out of range raises [OverflowError].
    - A [dict] with [str] keys is a [gmap string _].
    - A raised exception is the [Raise] case of [result]; [try/except] blocks
      that swallow every exception are written in [option]. *)

From Stdlib Require Import ZArith Lia Bool List Ascii String DecimalString.
From Stdlib Require Import Floats.SpecFloat.
From stdpp Require Import base option list strings gmap.

Open Scope Z_scope.

(** ** Python run-time model *)

Module Py.

(** *** Exceptions *)

Inductive exn : Type :=
| ValueError (msg : string)
| OverflowError (msg : string)
| ZeroDivisionError (msg : string)
| AttributeError (msg : string)
| TypeError (msg : string).

Inductive result (A : Type) : Type :=
| Return (a : A)
| Raise (e : exn).
Arguments Return {A} a.
Arguments Raise {A} e.

Definition bind {A B} (m : result A) (f : A -> result B) : result B :=
  match m with
  | Return a => f a
  | Raise e => Raise e
  end.

Definition raises {A} (m : result A) : bool :=
  match m with Return _ => false | Raise _ => true end.

(** *** Characters *)

Definition ord (c : ascii) : Z := Z.of_N (N_of_ascii c).
Definition chr (n : Z) : ascii := ascii_of_N (Z.to_N n).

Definition in_range (lo hi : Z) (c : ascii) : bool :=
  (lo <=? ord c) && (ord c <=? hi).

(** [str.isspace] on one character, which is also the class [\s] of [re]
    for [str] patterns. *)
Definition isspace (c : ascii) : bool :=
  in_range 9 13 c || in_range 28 32 c || (ord c =? 133) || (ord c =? 160).

(** The white space [int] skips: code points 28 to 31 are not part of it. *)
Definition int_isspace (c : ascii) : bool :=
  in_range 9 13 c || (ord c =? 32) || (ord c =? 133) || (ord c =? 160).

(** The class [\d]. *)
Definition isdigit (c : ascii) : bool := in_range 48 57 c.

Definition isupper_latin1 (c : ascii) : bool :=
  in_range 65 90 c || (in_range 192 222 c && negb (ord c =? 215)).

Definition lower_char (c : ascii) : ascii :=
  if isupper_latin1 c then chr (ord c + 32) else c.

(** *** Strings *)

Fixpoint lower (s : string) : string :=
  match s with
  | EmptyString => EmptyString
  | String c s' => String (lower_char c) (lower s')
  end.

Fixpoint lstrip_by (sp : ascii -> bool) (s : string) : string :=
  match s with
  | EmptyString => EmptyString
  | String c s' => if sp c then lstrip_by sp s' else s
  end.

Fixpoint rstrip_by (sp : ascii -> bool) (s : string) : string :=
  match s with
  | EmptyString => EmptyString
  | String c s' =>
      match rstrip_by sp s' with
      | EmptyString => if sp c then EmptyString else String c EmptyString
      | r => String c r
      end
  end.

(** [s.strip()] *)
Definition strip (s : string) : string := rstrip_by isspace (lstrip_by isspace s).

(** [c in s] for a one-character [c], and [s.find(c) != -1]. *)
Fixpoint contains (c : ascii) (s : string) : bool :=
  match s with
  | EmptyString => false
  | String d s' => Ascii.eqb d c || contains c s'
  end.

(** [s.split(sep, 1)] for a one-character separator: the text before the
    first separator, and the text after it when there is one. *)
Fixpoint split1 (sep : ascii) (s : string) : string * option string :=
  match s with
  | EmptyString => (EmptyString, None)
  | String c s' =>
      if Ascii.eqb c sep then (EmptyString, Some s')
      else let '(a, b) := split1 sep s' in (String c a, b)
  end.

(** [s.split(sep)] for a one-character separator; the list is never empty. *)
Fixpoint split (sep : ascii) (s : string) : list string :=
  match s with
  | EmptyString => [EmptyString]
  | String c s' =>
      if Ascii.eqb c sep then EmptyString :: split sep s'
      else match split sep s' with
           | [] => [String c EmptyString]
           | p :: ps => String c p :: ps
           end
  end.

(** The truth value of an optional string: [None] and the empty string are
    false. *)
Definition truthy (o : option string) : bool :=
  match o with
  | Some (String _ _) => true
  | _ => false
  end.

(** [a or b] on optional strings. *)
Definition or_else (a b : option string) : option string :=
  if truthy a then a else b.

(** *** [int(str)] *)

Definition digit_value (c : ascii) : Z := ord c - 48.

(** Digits with single underscores between them; [after_digit] tells whether
    the previous character was a digit. *)
Fixpoint int_digits (s : string) (acc : Z) (after_digit : bool) : option Z :=
  match s with
  | EmptyString => if after_digit then Some acc else None
  | String c s' =>
      if isdigit c then int_digits s' (acc * 10 + digit_value c) true
      else if Ascii.eqb c "_" then
        if after_digit then int_digits s' acc false else None
      else None
  end.

(** The value of a decimal literal, of any length. *)
Definition int_literal (s : string) : option Z :=
  let t := rstrip_by int_isspace (lstrip_by int_isspace s) in
  match t with
  | String c r =>
      if Ascii.eqb c "+" then int_digits r 0 false
      else if Ascii.eqb c "-" then Z.opp <$> int_digits r 0 false
      else int_digits t 0 false
  | EmptyString => None
  end.

(** The number of digits in the run of digits and single underscores that
    [s] begins with, counted from [count]; [None] when the run has no digit,
    or has an underscore that does not stand between two digits. The run
    ends at the first character that is neither. *)
Fixpoint run_digits (s : string) (count : nat) (after_digit : bool) : option nat :=
  match s with
  | EmptyString => if after_digit then Some count else None
  | String c s' =>
      if isdigit c then run_digits s' (S count) true
      else if Ascii.eqb c "_" then
        if after_digit then run_digits s' count false else None
      else if after_digit then Some count else None
  end.

(** [sys.int_info.default_max_str_digits] *)
Definition MAX_STR_DIGITS : nat := 4300.

(** The conversion counts the digits of the run after the white space and
    the sign, leading zeros among them, before it looks at what follows the
    run: the count, when it is above the limit. *)
Definition too_many_digits (s : string) : option nat :=
  let t := lstrip_by int_isspace s in
  let body :=
    match t with
    | String c r => if Ascii.eqb c "+" || Ascii.eqb c "-" then r else t
    | EmptyString => t
    end in
  match run_digits body 0 false with
  | Some n => if (MAX_STR_DIGITS <? n)%nat then Some n else None
  | None => None
  end.

(** [int(s)], where it returns. *)
Definition py_int (s : string) : option Z :=
  match too_many_digits s with
  | Some _ => None
  | None => int_literal s
  end.

(** The [ValueError] of [int]: for too many digits, or for a text that is
    no literal; [repr] is exact for text without quotes, backslashes and
    unprintable characters. *)
Definition int_error (s : string) : exn :=
  match too_many_digits s with
  | Some n =>
      ValueError ("Exceeds the limit (4300 digits) for integer string conversion: value has "
                  +:+ NilEmpty.string_of_uint (Nat.to_uint n)
                  +:+ " digits; use sys.set_int_max_str_digits() to increase the limit")
  | None => ValueError ("invalid literal for int() with base 10: '" +:+ s +:+ "'")
  end.

Definition int_ (s : string) : result Z :=
  match py_int s with
  | Some z => Return z
  | None => Raise (int_error s)
  end.

(** [int(o)] on an optional string: [int(None)] is a [TypeError]. *)
Definition int_opt (o : option string) : result Z :=
  match o with
  | Some s => int_ s
  | None =>
      Raise (TypeError "int() argument must be a string, a bytes-like object or a real number, not 'NoneType'")
  end.


(** *** Floats: IEEE 754 binary64 *)

Definition float : Type := spec_float.
Definition prec : Z := 53.
Definition emax : Z := 1024.

Definition fadd : float -> float -> float := SFadd prec emax.
Definition fmul : float -> float -> float := SFmul prec emax.
Definition fdiv : float -> float -> float := SFdiv prec emax.
Definition flt : float -> float -> bool := SFltb.
Definition fle : float -> float -> bool := SFleb.
Definition feq : float -> float -> bool := SFeqb.

Definition is_infinite (x : float) : bool :=
  match x with S754_infinity _ => true | _ => false end.

(** The binary64 value nearest to an integer (ties to even); integers of
    magnitude up to [2^53] are exact. *)
Definition float_of_Z (n : Z) : float := binary_normalize prec emax n 0 false.

(** The binary64 value nearest to the quotient [a / b], for [b <> 0]. The
    operands enter [SFdiv] as mantissas of any size with exponent 0, so its
    division and single rounding apply to the exact quotient. *)
Definition div_nearest (a b : Z) : float :=
  let s := xorb (a <? 0) (b <? 0) in
  match a, b with
  | 0, _ => S754_zero s
  | _, 0 => S754_nan
  | _, _ => fdiv (S754_finite (a <? 0) (Z.to_pos (Z.abs a)) 0)
                 (S754_finite (b <? 0) (Z.to_pos (Z.abs b)) 0)
  end.

(** A decimal literal [digits * 10^(-decimals)], as the parser of float
    literals reads it. *)
Definition float_lit (digits decimals : Z) : float :=
  div_nearest digits (10 ^ decimals).

(** An [int] operand of a float operation is converted first. *)
Definition float_of_int (n : Z) : result float :=
  let x := float_of_Z n in
  if is_infinite x then Raise (OverflowError "int too large to convert to float")
  else Return x.

(** [a / b] on two [int]s: true division, correctly rounded. *)
Definition int_truediv (a b : Z) : result float :=
  if b =? 0 then Raise (ZeroDivisionError "division by zero")
  else
    let x := div_nearest a b in
    if is_infinite x
    then Raise (OverflowError "integer division result too large for a float")
    else Return x.

(** [n / x] and [x * n] and [n + x] with an [int] [n] and a [float] [x]. *)
Definition int_div_float (n : Z) (x : float) : result float :=
  bind (float_of_int n) (fun nf =>
  match x with
  | S754_zero _ => Raise (ZeroDivisionError "float division by zero")
  | _ => Return (fdiv nf x)
  end).

Definition int_mul_float (n : Z) (x : float) : result float :=
  bind (float_of_int n) (fun nf => Return (fmul nf x)).

Definition float_mul_int (x : float) (n : Z) : result float :=
  bind (float_of_int n) (fun nf => Return (fmul x nf)).

Definition int_add_float (n : Z) (x : float) : result float :=
  bind (float_of_int n) (fun nf => Return (fadd nf x)).

(** [max(a, b)] on floats: the second argument replaces the first only when
    it compares greater. *)
Definition fmax (a b : float) : float := if flt a b then b else a.

(** [num / den] rounded to the nearest integer, ties to even, for
    [0 <= num] and [0 < den]. *)
Definition round_half_even (num den : Z) : Z :=
  let q := num / den in
  match (2 * (num mod den)) ?= den with
  | Lt => q
  | Eq => if Z.even q then q else q + 1
  | Gt => q + 1
  end.

(** [round(x, ndigits)] for [0 <= ndigits]: the exact value of [x] is rounded
    to [ndigits] decimals (ties to even), and the decimal obtained is read
    back as the nearest binary64 value. *)
Definition round_ (x : float) (ndigits : Z) : result float :=
  match x with
  | S754_finite s m e =>
      let n := round_half_even (Zpos m * 10 ^ ndigits * 2 ^ Z.max e 0)
                               (2 ^ Z.max (- e) 0) in
      if n =? 0 then Return (S754_zero s)
      else
        let y := div_nearest (if s then - n else n) (10 ^ ndigits) in
        if is_infinite y
        then Raise (OverflowError "rounded value too large to represent")
        else Return y
  | _ => Return x
  end.

End Py.

(** ** Regular expressions: the fragment of [re] the script uses

    A backtracking matcher in continuation-passing style. Alternatives are
    tried left to right and repetitions are greedy, as in [re]; the only
    repeated expressions the script has are character classes. *)

Module Re.
Import Py.

Inductive regex : Type :=
| Eps
| Chr (p : ascii -> bool)                          (* one character of a class *)
| Seq (r1 r2 : regex)
| Alt (r1 r2 : regex)                              (* [r1|r2] *)
| Rep (p : ascii -> bool) (lo : nat) (hi : option nat)  (* [p{lo,hi}], greedy *)
| Group (n : nat) (r : regex)                      (* capturing group [n] *)
| Look (r : regex)                                 (* [(?=r)] *)
| Bol                                              (* [^] under MULTILINE *)
| Eol.                                             (* [$] under MULTILINE *)

Definition Star (p : ascii -> bool) : regex := Rep p 0 None.
Definition Plus (p : ascii -> bool) : regex := Rep p 1 None.
Definition Opt (r : regex) : regex := Alt r Eps.

Fixpoint Lit (s : string) : regex :=
  match s with
  | EmptyString => Eps
  | String c s' => Seq (Chr (Ascii.eqb c)) (Lit s')
  end.

Definition captures : Type := list (nat * string).

(** [m.group(n)]: [None] when the group took no part in the match. *)
Fixpoint group (n : nat) (cs : captures) : option string :=
  match cs with
  | [] => None
  | (i, w) :: cs' => if Nat.eqb i n then Some w else group n cs'
  end.

(** A position in the subject: the character before it, the text from it
    on, and the groups captured so far. *)
Record state : Type := State {
  prev : option ascii;
  rest : string;
  caps : captures
}.

(** The text between two positions of one subject. *)
Definition consumed (from to : string) : string :=
  substring 0 (String.length from - String.length to) from.

(** Whether a repetition with upper bound [hi] may take one more character. *)
Definition below (hi : option nat) : bool :=
  match hi with
  | Some O => false
  | _ => true
  end.

Fixpoint rep {A : Type} (p : ascii -> bool) (lo : nat) (hi : option nat)
    (pv : option ascii) (s : string)
    (k : option ascii -> string -> option A) : option A :=
  let stop := match lo with O => k pv s | S _ => None end in
  match s with
  | String c s' =>
      if p c && below hi then
        match rep p (Nat.pred lo) (Nat.pred <$> hi) (Some c) s' k with
        | Some x => Some x
        | None => stop
        end
      else stop
  | EmptyString => stop
  end.

Fixpoint mt (r : regex) {A : Type} (st : state) (k : state -> option A) : option A :=
  match r with
  | Eps => k st
  | Chr p =>
      match rest st with
      | String c s' => if p c then k (State (Some c) s' (caps st)) else None
      | EmptyString => None
      end
  | Seq r1 r2 => mt r1 st (fun st' => mt r2 st' k)
  | Alt r1 r2 =>
      match mt r1 st k with
      | Some x => Some x
      | None => mt r2 st k
      end
  | Rep p lo hi =>
      rep p lo hi (prev st) (rest st) (fun pv s => k (State pv s (caps st)))
  | Group n r1 =>
      mt r1 st (fun st' =>
        k (State (prev st') (rest st')
                 ((n, consumed (rest st) (rest st')) :: caps st')))
  | Look r1 =>
      match mt r1 st (fun _ => Some tt) with
      | Some _ => k st
      | None => None
      end
  | Bol =>
      match prev st with
      | None => k st
      | Some c => if Ascii.eqb c "010" then k st else None
      end
  | Eol =>
      match rest st with
      | EmptyString => k st
      | String c _ => if Ascii.eqb c "010" then k st else None
      end
  end.

(** [re.fullmatch(r, s)]: the groups of the first way of matching that
    reaches the end of [s]. *)
Definition fullmatch (r : regex) (s : string) : option captures :=
  mt r (State None s [])
     (fun st => match rest st with
                | EmptyString => Some (caps st)
                | String _ _ => None
                end).

(** [r.match] at one position: the first way of matching from there. *)
Definition match_at (r : regex) (pv : option ascii) (s : string) : option state :=
  mt r (State pv s []) Some.

(** [r.finditer(s)]: non-overlapping matches from left to right. After a
    match the scan resumes where it ended ([skip] counts the characters still
    to pass over); an empty match moves it on by one character. *)
Fixpoint finditer_from (r : regex) (pv : option ascii) (s : string) (skip : nat)
    : list captures :=
  match skip with
  | S n =>
      match s with
      | String c s' => finditer_from r (Some c) s' n
      | EmptyString => []
      end
  | O =>
      match match_at r pv s with
      | Some st =>
          caps st ::
          match s with
          | String c s' =>
              finditer_from r (Some c) s'
                (Nat.pred (String.length s - String.length (rest st)))
          | EmptyString => []
          end
      | None =>
          match s with
          | String c s' => finditer_from r (Some c) s' O
          | EmptyString => []
          end
      end
  end.

Definition finditer (r : regex) (s : string) : list captures :=
  finditer_from r None s O.

End Re.

Import Py Re.

Declare Scope regex_scope.
Delimit Scope regex_scope with re.
Bind Scope regex_scope with regex.
Infix ">>>" := Seq (at level 65, right associativity) : regex_scope.
Infix "<|>" := Alt (at level 67, right associativity) : regex_scope.

(** Character classes of the patterns. *)
Definition is_letter (c : ascii) : bool := in_range 65 90 c || in_range 97 122 c.

(** [[A-Za-z0-9_-]] *)
Definition is_name_char (c : ascii) : bool :=
  is_letter c || isdigit c || Ascii.eqb c "_" || Ascii.eqb c "-".

(** [[^\r\n]] *)
Definition not_crlf (c : ascii) : bool :=
  negb (Ascii.eqb c "013" || Ascii.eqb c "010").

(** [\S] *)
Definition nonspace (c : ascii) : bool := negb (isspace c).

(** A letter under the flag [(?i)]. *)
Definition ci (c : ascii) : ascii -> bool := fun x => Ascii.eqb (lower_char x) c.

(** ** [extract_slurmheader_arguments] *)

(** Groups: 1 [slurmarg_long], 2 [slurmarg_short], 3 [argvalue_eq],
    4 [argvalue_sp]. The pattern is compiled with MULTILINE and VERBOSE. *)
Definition SLURMHEADER_PATTERN : regex :=
  (Bol >>> Star isspace >>> Lit "#SBATCH" >>> Plus isspace >>>
   (Lit "--" >>> Group 1 (Plus is_name_char)
    <|> Lit "-" >>> Group 2 (Chr is_letter)) >>>
   (Lit "=" >>> Group 3 (Look (Star not_crlf >>> Chr nonspace) >>> Plus not_crlf)
    <|> Plus isspace >>> Group 4 (Look (Star not_crlf >>> Chr nonspace) >>> Plus not_crlf)) >>>
   Eol)%re.

Definition SLURMARG_CONVERSIONS : gmap string string :=
  list_to_map
    [ ("c", "cpus-per-task");
      ("n", "ntasks");
      ("N", "nodes");
      ("t", "time");
      ("J", "job-name");
      ("o", "output");
      ("e", "error");
      ("A", "account");
      ("p", "partition");
      ("m", "mail-type");
      ("cpus-per-task", "cpus-per-task");
      ("ntasks", "ntasks");
      ("ntasks-per-node", "ntasks-per-node");
      ("tasks-per-node", "ntasks-per-node");
      ("nodes", "nodes");
      ("time", "time");
      ("time-min", "time-min");
      ("job-name", "job-name");
      ("output", "output");
      ("error", "error");
      ("account", "account");
      ("partition", "partition");
      ("nodelist", "nodelist");
      ("qos", "qos");
      ("mail-type", "mail-type");
      ("mail-user", "mail-user");
      ("mem", "mem");
      ("mem-per-cpu", "mem-per-cpu");
      ("array", "array") ].

Fixpoint last_char (s : string) : option ascii :=
  match s with
  | EmptyString => None
  | String c EmptyString => Some c
  | String _ s' => last_char s'
  end.

(** [s[:-1]] *)
Fixpoint drop_last (s : string) : string :=
  match s with
  | EmptyString => EmptyString
  | String _ EmptyString => EmptyString
  | String c s' => String c (drop_last s')
  end.

(** [len(v) >= 2 and v[0] == v[-1]], and [v[0]] is one of the two quote
    characters. *)
Definition argvalue_is_quoted (v : string) : bool :=
  match v with
  | String c (String _ _ as t) =>
      match last_char t with
      | Some d => Ascii.eqb c d && (Ascii.eqb c "'" || Ascii.eqb c "034")
      | None => false
      end
  | _ => false
  end.

(** [v[1:-1]] *)
Definition unquote (v : string) : string :=
  match v with
  | String _ t => drop_last t
  | EmptyString => EmptyString
  end.

Definition illegal_hash (slurmarg argvalue : string) : exn :=
  ValueError ("Illegal '#' in value for option '" +:+ slurmarg +:+ "': " +:+ argvalue).

(** The name and the raw value of a matched header line. *)
Definition line_slurmarg (line : captures) : option string :=
  or_else (group 1 line) (group 2 line).

Definition line_argvalue (line : captures) : option string :=
  or_else (group 3 line) (group 4 line).

(** One turn of the loop over the matched lines. Every match of the pattern
    has a name group and a value group ([header_match_groups] below); the last
    case, [None.strip()], is there for totality. *)
Definition header_step (slurmargs : gmap string string) (line : captures)
    : result (gmap string string) :=
  match line_slurmarg line, line_argvalue line with
  | Some slurmarg, Some argvalue =>
      let slurmarg := default slurmarg (SLURMARG_CONVERSIONS !! slurmarg) in
      let argvalue := strip argvalue in
      let argvalue_contains_hash := contains "#" argvalue in
      if argvalue_contains_hash then Raise (illegal_hash slurmarg argvalue)
      else
        let argvalue :=
          if argvalue_is_quoted argvalue then strip (unquote argvalue)
          else argvalue in
        Return (<[slurmarg := argvalue]> slurmargs)
  | _, _ => Raise (AttributeError "'NoneType' object has no attribute 'strip'")
  end.

Fixpoint header_loop (headerlines : list captures) (slurmargs : gmap string string)
    : result (gmap string string) :=
  match headerlines with
  | [] => Return slurmargs
  | line :: headerlines' =>
      bind (header_step slurmargs line) (header_loop headerlines')
  end.

(** The function on the text read from the script file. *)
Definition extract_slurmheader_arguments (scriptlines : string)
    : result (gmap string string) :=
  header_loop (finditer SLURMHEADER_PATTERN scriptlines) ∅.

(** ** [parse_slurmargs] *)

(** The canonical resource record the function returns. *)
Record resources : Type := Resources {
  hours : float;
  cpus : Z;
  memory_gb : float;
  array_count : Z
}.

Definition parse_argument_to_int (argument : option string) : option Z :=
  match argument with
  | None => None
  | Some argument =>
      if negb (truthy (Some argument)) then None
      else py_int argument   (* except ValueError: return None *)
  end.

(** [\d{1,2}] *)
Definition digits12 : regex := Rep isdigit 1 (Some 2%nat).

Definition TIME_DHHMMSS : regex :=
  (Group 1 (Plus isdigit) >>> Lit "-" >>> Group 2 digits12 >>> Lit ":" >>>
   Group 3 digits12 >>> Lit ":" >>> Group 4 digits12)%re.

Definition TIME_HHMMSS : regex :=
  (Group 1 (Plus isdigit) >>> Lit ":" >>> Group 2 digits12 >>> Lit ":" >>>
   Group 3 digits12)%re.

Definition TIME_MMSS : regex :=
  (Group 1 (Plus isdigit) >>> Lit ":" >>> Group 2 digits12)%re.

Definition TIME_MM : regex := Plus isdigit.

(** The literals [60.0] and [3600.0]. *)
Definition f60 : float := float_lit 600 1.
Definition f3600 : float := float_lit 36000 1.

Definition parse_time_to_hours (time_argument : option string)
    : result (option float) :=
  match time_argument with
  | None => Return None
  | Some time_argument =>
      if negb (truthy (Some time_argument)) then Return None else
      let timestring := strip time_argument in
      (* D-HH:MM:SS *)
      match fullmatch TIME_DHHMMSS timestring with
      | Some g =>
          bind (int_opt (group 1 g)) (fun days =>
          bind (int_opt (group 2 g)) (fun hours =>
          bind (int_opt (group 3 g)) (fun minutes =>
          bind (int_opt (group 4 g)) (fun seconds =>
          (* days * 24 + hours + minutes / 60.0 + seconds / 3600.0 *)
          bind (int_div_float minutes f60) (fun m =>
          bind (int_add_float (days * 24 + hours) m) (fun dhm =>
          bind (int_div_float seconds f3600) (fun s =>
          Return (Some (fadd dhm s)))))))))
      | None =>
      (* HH:MM:SS *)
      match fullmatch TIME_HHMMSS timestring with
      | Some g =>
          bind (int_opt (group 1 g)) (fun hours =>
          bind (int_opt (group 2 g)) (fun minutes =>
          bind (int_opt (group 3 g)) (fun seconds =>
          (* hours + minutes / 60.0 + seconds / 3600.0 *)
          bind (int_div_float minutes f60) (fun m =>
          bind (int_add_float hours m) (fun hm =>
          bind (int_div_float seconds f3600) (fun s =>
          Return (Some (fadd hm s))))))))
      | None =>
      (* MM:SS *)
      match fullmatch TIME_MMSS timestring with
      | Some g =>
          bind (int_opt (group 1 g)) (fun minutes =>
          bind (int_opt (group 2 g)) (fun seconds =>
          (* minutes / 60.0 + seconds / 3600.0 *)
          bind (int_div_float minutes f60) (fun m =>
          bind (int_div_float seconds f3600) (fun s =>
          Return (Some (fadd m s))))))
      | None =>
      (* MM *)
      match fullmatch TIME_MM timestring with
      | Some _ =>
          bind (int_ timestring) (fun minutes =>
          bind (int_div_float minutes f60) (fun m =>
          Return (Some m)))
      | None => Return None
      end end end end
  end.

Definition BYTES_IN_KILOBYTE : Z := 1024.

(** [[kmgt]] under [(?i)] *)
Definition kmgt (c : ascii) : bool := ci "k" c || ci "m" c || ci "g" c || ci "t" c.

(** [(?i)\s*(\d+(?:\.\d+)?)\s*([kmgt](?:i?b)?|)\s*] *)
Definition MEM_PATTERN : regex :=
  (Star isspace >>>
   Group 1 (Plus isdigit >>> Opt (Lit "." >>> Plus isdigit)) >>>
   Star isspace >>>
   Group 2 ((Chr kmgt >>>
             Opt (Opt (Chr (ci "i")) >>> Chr (ci "b")))
            <|> Eps) >>>
   Star isspace)%re.

(** [round(amount * (BYTES_IN_KILOBYTE ** k) / (BYTES_IN_KILOBYTE ** 3), 4)] *)
Definition mem_branch (amount : Z) (k : Z) : result (option float) :=
  bind (int_truediv (amount * BYTES_IN_KILOBYTE ^ k) (BYTES_IN_KILOBYTE ^ 3)) (fun q =>
  bind (round_ q 4) (fun g =>
  Return (Some g))).

Definition parse_mem_to_gigabytes (memory_argument : option string)
    : result (option float) :=
  match memory_argument with
  | None => Return None
  | Some memory_argument =>
      if negb (truthy (Some memory_argument)) then Return None else
      let memstring := strip memory_argument in
      match fullmatch MEM_PATTERN memstring with
      | None => Return None
      | Some memargs =>
          let unit :=
            lower (default EmptyString
                     (or_else (group 2 memargs) (Some EmptyString))) in
          bind (int_opt (group 1 memargs)) (fun amount =>
          if String.eqb unit "k" || String.eqb unit "kb" || String.eqb unit "gib"
          then mem_branch amount 1
          else if String.eqb unit "m" || String.eqb unit "mb" || String.eqb unit "gib"
          then mem_branch amount 2
          else if String.eqb unit "g" || String.eqb unit "gb" || String.eqb unit "gib"
          then mem_branch amount 3
          else if String.eqb unit "t" || String.eqb unit "tb" || String.eqb unit "gib"
          then mem_branch amount 4
          else Return None)
      end
  end.

(** The body of the loop of [parse_array_count] for one item; [None] is an
    exception, which the [except Exception] around the loop catches. The
    result is the new [total], or the old one when the item is skipped. *)
Definition array_part (total : Z) (part : string) : option Z :=
  let part := strip part in
  if negb (truthy (Some part)) then Some total      (* continue *)
  else
      let part := fst (split1 "%" part) in
      if contains "-" part then
        (* rng, step_str = (part.split(':', 1) + ['1'])[:2] *)
        let '(rng, step_str) :=
          match split1 ":" part with
          | (a, Some b) => (a, b)
          | (a, None) => (a, "1")
          end in
        (* start_str, end_str = rng.split('-', 1) *)
        match split1 "-" rng with
        | (start_str, Some end_str) =>
            start ← py_int start_str;
            end_ ← py_int end_str;
            step ← py_int step_str;
            let step := if step <=? 0 then 1 else step in
            if end_ <? start then Some (total + 1)
            else
              let count := (end_ - start) / step + 1 in
              Some (total + count)
        | (_, None) => None
        end
      else
        _ ← py_int part;
        Some (total + 1).

Fixpoint array_loop (parts : list string) (total : Z) : option Z :=
  match parts with
  | [] => Some total
  | part :: parts' =>
      total' ← array_part total part;
      array_loop parts' total'
  end.

Definition parse_array_count (array_spec : option string) : Z :=
  match array_spec with
  | None => 1
  | Some array_spec =>
      if negb (truthy (Some array_spec)) then 1 else
      let spec := strip array_spec in
      match array_loop (split "," spec) 0 with
      | Some total => if 0 <? total then total else 1
      | None => 1
      end
  end.

Definition time_unspecified : exn :=
  ValueError "Invalid Slurm script: Time cannot be unspecified.".
Definition memory_unspecified : exn :=
  ValueError "Invalid Slurm script: Memory cannot be unspecified.".

(** The CPU count of [parse_slurmargs]: [ntasks * cpus_per_task] with their
    fall-backs. *)
Definition resolve_ntasks (slurmargs : gmap string string) : Z :=
  match parse_argument_to_int (slurmargs !! "ntasks") with
  | Some ntasks => ntasks
  | None =>
      let tasks_per_node := parse_argument_to_int (slurmargs !! "tasks-per-node") in
      let nodes := parse_argument_to_int (slurmargs !! "nodes") in
      match tasks_per_node, nodes with
      | Some tasks_per_node, Some nodes => tasks_per_node * nodes
      | _, _ => 1
      end
  end.

Definition resolve_cpus_per_task (slurmargs : gmap string string) : Z :=
  match parse_argument_to_int (slurmargs !! "cpus-per-task") with
  | Some cpus_per_task => cpus_per_task
  | None => 1
  end.

Definition parse_slurmargs (slurmargs : gmap string string) : result resources :=
  let ntasks := resolve_ntasks slurmargs in
  let cpus_per_task := resolve_cpus_per_task slurmargs in
  let cpus := ntasks * cpus_per_task in
  bind (parse_time_to_hours (slurmargs !! "time")) (fun hours =>
  match hours with
  | None => Raise time_unspecified
  | Some hours =>
      bind (parse_mem_to_gigabytes (slurmargs !! "mem")) (fun memory_gigabytes =>
      bind (match memory_gigabytes with
            | Some memory_gigabytes => Return memory_gigabytes
            | None =>
                bind (parse_mem_to_gigabytes (slurmargs !! "mem-per-cpu"))
                  (fun mem_per_cpu_bytes =>
                match mem_per_cpu_bytes with
                | None => Raise memory_unspecified
                | Some mem_per_cpu_bytes => float_mul_int mem_per_cpu_bytes cpus
                end)
            end) (fun memory_gigabytes =>
      Return (Resources hours cpus memory_gigabytes
                        (parse_array_count (slurmargs !! "array")))))
  end).

(** ** [calculate_sbatch_jobcost_per_queue] *)

(** A value per queue: the dictionaries keyed ['normal'], ['bigmem'] and
    ['hugemem']. *)
Record per_queue : Type := PerQueue {
  normal : float;
  bigmem : float;
  hugemem : float
}.

Record breakdown : Type := Breakdown {
  cpu_hours : float;
  mem_hours : per_queue;
  charged : per_queue
}.

Record jobcost : Type := JobCost {
  cost_hours : float;
  cost_cpus : Z;
  cost_memory_gb : float;
  cost_array_count : Z;
  per_task : breakdown;
  total : breakdown
}.

(** Queue memory cost factors. *)
Definition NORMAL_QUEUE_MEMORY_FACTOR : float := float_lit 2577031 7.     (* 0.2577031 *)
Definition BIGMEM_QUEUE_MEMORY_FACTOR : float := float_lit 1104972 7.     (* 0.1104972 *)
Definition HUGEMEM_QUEUE_MEMORY_FACTOR : float := float_lit 1059603 8.    (* 0.01059603 *)

Definition calculate_cpu_hours (hours : float) (cpus : Z) : result float :=
  int_mul_float cpus hours.

Definition calculate_mem_hours (hours mem_gb queue_factor : float) : float :=
  fmul (fmul mem_gb hours) queue_factor.

(** The function on the record [parse_slurmargs] returns, which has the four
    keys the function reads; [float()] and [int()] leave them as they are. *)
Definition calculate_sbatch_jobcost_per_queue (parsed_slurmargs : resources)
    : result jobcost :=
  let hours := hours parsed_slurmargs in
  let cpus := cpus parsed_slurmargs in
  let memory_gb := memory_gb parsed_slurmargs in
  let array_count := array_count parsed_slurmargs in
  (* Per-task (i.e., per array element) costs *)
  bind (calculate_cpu_hours hours cpus) (fun per_task_cpu_hours =>
  let per_task_mem_normal := calculate_mem_hours hours memory_gb NORMAL_QUEUE_MEMORY_FACTOR in
  let per_task_mem_bigmem := calculate_mem_hours hours memory_gb BIGMEM_QUEUE_MEMORY_FACTOR in
  let per_task_mem_hugemem := calculate_mem_hours hours memory_gb HUGEMEM_QUEUE_MEMORY_FACTOR in
  let per_task_charged_normal := fmax per_task_cpu_hours per_task_mem_normal in
  let per_task_charged_bigmem := fmax per_task_cpu_hours per_task_mem_bigmem in
  let per_task_charged_hugemem := fmax per_task_cpu_hours per_task_mem_hugemem in
  (* Total across all array tasks *)
  bind (float_mul_int per_task_cpu_hours array_count) (fun total_cpu_hours =>
  bind (float_mul_int per_task_mem_normal array_count) (fun total_mem_normal =>
  bind (float_mul_int per_task_mem_bigmem array_count) (fun total_mem_bigmem =>
  bind (float_mul_int per_task_mem_hugemem array_count) (fun total_mem_hugemem =>
  bind (float_mul_int per_task_charged_normal array_count) (fun total_charged_normal =>
  bind (float_mul_int per_task_charged_bigmem array_count) (fun total_charged_bigmem =>
  bind (float_mul_int per_task_charged_hugemem array_count) (fun total_charged_hugemem =>
  Return
    (JobCost hours cpus memory_gb array_count
       (Breakdown per_task_cpu_hours
          (PerQueue per_task_mem_normal per_task_mem_bigmem per_task_mem_hugemem)
          (PerQueue per_task_charged_normal per_task_charged_bigmem per_task_charged_hugemem))
       (Breakdown total_cpu_hours
          (PerQueue total_mem_normal total_mem_bigmem total_mem_hugemem)
          (PerQueue total_charged_normal total_charged_bigmem total_charged_hugemem))))))))))).

(** * Properties *)

(** ** Vocabulary of the statements *)

Fixpoint string_forall (p : ascii -> bool) (s : string) : bool :=
  match s with
  | EmptyString => true
  | String c s' => p c && string_forall p s'
  end.

(** The first character of [s] is in the class [p]. *)
Definition starts_with (p : ascii -> bool) (s : string) : bool :=
  match s with
  | String c _ => p c
  | EmptyString => false
  end.

(** A non-empty string of decimal digits. *)
Definition digits (s : string) : Prop :=
  s <> EmptyString /\ string_forall isdigit s = true.

(** The number a string of decimal digits denotes. *)
Fixpoint dec_from (acc : Z) (s : string) : Z :=
  match s with
  | EmptyString => acc
  | String c s' => dec_from (acc * 10 + digit_value c) s'
  end.

Definition dec (s : string) : Z := dec_from 0 s.

#[local] Arguments String.append !_ _ / : simpl nomatch.
#[local] Arguments String.length !_ / : simpl nomatch.
#[local] Arguments Ascii.eqb !_ !_ : simpl nomatch.
#[local] Arguments isdigit !_ : simpl nomatch.
#[local] Arguments isspace !_ : simpl nomatch.
#[local] Arguments int_isspace !_ : simpl nomatch.
#[local] Arguments is_letter !_ : simpl nomatch.
#[local] Arguments is_name_char !_ : simpl nomatch.
#[local] Arguments not_crlf !_ : simpl nomatch.
#[local] Arguments nonspace !_ : simpl nomatch.
#[local] Arguments kmgt !_ : simpl nomatch.
#[local] Arguments ci !_ !_ : simpl nomatch.
#[local] Arguments lower_char !_ : simpl nomatch.

(** ** Characters *)

Ltac each_char c := destruct c as [[] [] [] [] [] [] [] []].

Lemma digit_classes c :
  isdigit c = true ->
  isspace c = false /\ int_isspace c = false /\ is_letter c = false
  /\ 0 <= digit_value c <= 9.
Proof. each_char c; vm_compute; intuition congruence. Qed.

Lemma digit_not c d :
  isdigit c = true -> isdigit d = false -> Ascii.eqb c d = false /\ Ascii.eqb d c = false.
Proof.
  intros Hc Hd. split; apply Ascii.eqb_neq; intros ->; congruence.
Qed.

Lemma lower_char_cases c l :
  in_range 97 122 l = true ->
  lower_char c = l -> c = l \/ c = chr (ord l - 32).
Proof.
  intros Hl <-. revert Hl. each_char c; vm_compute; intuition congruence.
Qed.

(** ** Strings *)

Lemma append_nil_r s : s +:+ EmptyString = s.
Proof. induction s; simpl; congruence. Qed.

Lemma append_assoc s t u : (s +:+ t) +:+ u = s +:+ (t +:+ u).
Proof. induction s; simpl; congruence. Qed.

Lemma length_append s t :
  String.length (s +:+ t) = (String.length s + String.length t)%nat.
Proof. induction s; simpl; congruence. Qed.

Lemma string_forall_app p s t :
  string_forall p (s +:+ t) = string_forall p s && string_forall p t.
Proof. induction s; simpl; [reflexivity|]. rewrite IHs, andb_assoc. reflexivity. Qed.

Lemma substring_app_prefix w s :
  substring 0 (String.length w) (w +:+ s) = w.
Proof. induction w; simpl; [destruct s; reflexivity | congruence]. Qed.

Lemma consumed_app w s : consumed (w +:+ s) s = w.
Proof.
  unfold consumed. rewrite length_append.
  replace (String.length w + String.length s - String.length s)%nat
    with (String.length w) by lia.
  apply substring_app_prefix.
Qed.


Lemma lstrip_by_id sp s : starts_with sp s = false -> lstrip_by sp s = s.
Proof. destruct s; simpl; [reflexivity | intros ->; reflexivity]. Qed.

Lemma rstrip_by_id sp s c :
  last_char s = Some c -> sp c = false -> rstrip_by sp s = s.
Proof.
  induction s as [|a s IH]; simpl; [discriminate|].
  destruct s as [|b s].
  - intros [= ->] ->. reflexivity.
  - intros Hl Hc. rewrite (IH Hl Hc). reflexivity.
Qed.

Lemma last_char_app s c t : last_char (s +:+ String c t) = last_char (String c t).
Proof.
  induction s as [|a s IH]; [reflexivity|].
  change (String a s +:+ String c t) with (String a (s +:+ String c t)).
  simpl last_char at 1. rewrite IH.
  destruct (s +:+ String c t) eqn:E; [|reflexivity].
  destruct s; discriminate.
Qed.

Lemma last_char_forall p s c :
  string_forall p s = true -> last_char s = Some c -> p c = true.
Proof.
  induction s as [|a s IH]; simpl; [discriminate|].
  intros [Ha Hs]%andb_prop. destruct s; [intros [= <-]; exact Ha | auto].
Qed.

Lemma last_char_some s : s <> EmptyString -> exists c, last_char s = Some c.
Proof.
  induction s as [|a s IH]; [congruence|]. intros _.
  destruct s; [eauto|]. apply IH. discriminate.
Qed.

(** [strip] leaves a string alone that neither starts nor ends with white
    space. *)
Lemma strip_id s c :
  starts_with isspace s = false -> last_char s = Some c -> isspace c = false ->
  strip s = s.
Proof.
  intros H1 H2 H3. unfold strip. rewrite lstrip_by_id by assumption.
  eapply rstrip_by_id; eassumption.
Qed.

(** ** [int] on strings of digits *)

Lemma int_digits_digits s : forall acc b,
  string_forall isdigit s = true -> (s <> EmptyString \/ b = true) ->
  int_digits s acc b = Some (dec_from acc s).
Proof.
  induction s as [|c s IH]; simpl; intros acc b Hs Hb.
  - destruct Hb as [Hb | ->]; [congruence | reflexivity].
  - apply andb_prop in Hs as [Hc Hs]. rewrite Hc. apply IH; auto.
Qed.

Lemma digits_starts s : digits s -> starts_with isdigit s = true.
Proof. intros [Hne Hs]. destruct s; [congruence|]. simpl in *. apply andb_prop in Hs. tauto. Qed.

Lemma digits_last s : digits s -> exists c, last_char s = Some c /\ isdigit c = true.
Proof.
  intros [Hne Hs]. destruct (last_char_some s Hne) as [c Hc].
  exists c. split; [assumption|]. eapply last_char_forall; eassumption.
Qed.

(** *** The limit on the digits *)

Lemma lstrip_by_length sp s : (String.length (lstrip_by sp s) <= String.length s)%nat.
Proof.
  induction s as [|a s IH]; cbn [lstrip_by String.length]; [lia|].
  destruct (sp a); cbn [String.length]; lia.
Qed.

Lemma run_digits_le s : forall count b n,
  run_digits s count b = Some n -> (n <= count + String.length s)%nat.
Proof.
  induction s as [|a s IH]; intros count b n H; cbn [run_digits String.length] in *.
  - destruct b; [|discriminate]. injection H as <-. lia.
  - destruct (isdigit a).
    + apply IH in H. lia.
    + destruct (Ascii.eqb a "_").
      * destruct b; [|discriminate]. apply IH in H. lia.
      * destruct b; [|discriminate]. injection H as <-. lia.
Qed.

(** A text of no more characters than the limit has no more digits. *)
Lemma too_many_digits_short s :
  (String.length s <= MAX_STR_DIGITS)%nat -> too_many_digits s = None.
Proof.
  intros Hs. unfold too_many_digits.
  pose proof (lstrip_by_length int_isspace s) as Hl.
  set (t := lstrip_by int_isspace s) in *.
  set (body := match t with
               | String c r => if Ascii.eqb c "+" || Ascii.eqb c "-" then r else t
               | EmptyString => t
               end).
  assert (Hb : (String.length body <= String.length t)%nat).
  { unfold body. destruct t as [|c r]; [lia|].
    destruct (Ascii.eqb c "+" || Ascii.eqb c "-"); cbn [String.length]; lia. }
  destruct (run_digits body 0 false) as [n|] eqn:E; [|reflexivity].
  apply run_digits_le in E.
  destruct (Nat.ltb_spec MAX_STR_DIGITS n); [lia | reflexivity].
Qed.

Lemma py_int_short s :
  (String.length s <= MAX_STR_DIGITS)%nat -> py_int s = int_literal s.
Proof. intros Hs. unfold py_int. rewrite (too_many_digits_short s Hs). reflexivity. Qed.

Lemma py_int_literal s z : py_int s = Some z -> int_literal s = Some z.
Proof. unfold py_int. destruct (too_many_digits s); [discriminate | auto]. Qed.

Lemma py_int_none s : int_literal s = None -> py_int s = None.
Proof. intros H. unfold py_int. destruct (too_many_digits s); [reflexivity | exact H]. Qed.

Lemma int_literal_digits s : digits s -> int_literal s = Some (dec s).
Proof.
  intros Hd. pose proof (digits_starts s Hd) as H1.
  destruct (digits_last s Hd) as (c & Hc & Hcd).
  destruct Hd as [Hne Hs]. unfold int_literal.
  rewrite lstrip_by_id.
  2:{ destruct s as [|a s]; [congruence|]. simpl in *. apply digit_classes in H1. tauto. }
  rewrite (rstrip_by_id _ s c Hc) by (apply digit_classes in Hcd; tauto).
  destruct s as [|a s]; [congruence|]. simpl in H1.
  destruct (digit_not a "+" H1 eq_refl) as [-> _].
  destruct (digit_not a "-" H1 eq_refl) as [-> _].
  apply int_digits_digits; [assumption | left; discriminate].
Qed.

Lemma py_int_digits s :
  digits s -> (String.length s <= MAX_STR_DIGITS)%nat -> py_int s = Some (dec s).
Proof. intros Hd Hl. rewrite (py_int_short s Hl). apply int_literal_digits, Hd. Qed.

Lemma dec_from_nonneg s : forall acc,
  string_forall isdigit s = true -> 0 <= acc -> 0 <= dec_from acc s.
Proof.
  induction s as [|c s IH]; simpl; intros acc Hs Hacc; [assumption|].
  apply andb_prop in Hs as [Hc Hs]. apply IH; [assumption|].
  apply digit_classes in Hc. lia.
Qed.

(** ** Greedy repetition *)

(** The character before the position reached after reading [w]. *)
Definition prev_after (pv : option ascii) (w : string) : option ascii :=
  match last_char w with
  | Some c => Some c
  | None => pv
  end.

Lemma prev_after_cons pv a w : prev_after pv (String a w) = prev_after (Some a) w.
Proof.
  unfold prev_after. simpl. destruct w; [reflexivity|].
  destruct (last_char (String a0 w)) eqn:E; [reflexivity|].
  destruct (last_char_some (String a0 w)) as [c Hc]; congruence.
Qed.

(** [n] repetitions respect the upper bound [hi]. *)
Definition within (hi : option nat) (n : nat) : Prop :=
  match hi with
  | None => True
  | Some h => (n <= h)%nat
  end.

Section Rep.
Context {A : Type} (p : ascii -> bool).

(** The longest run is tried first: when the continuation accepts it, that
    is the result. *)
Lemma rep_greedy (k : option ascii -> string -> option A) w s' x :
  forall pv lo hi s,
  s = w +:+ s' ->
  string_forall p w = true -> starts_with p s' = false ->
  (lo <= String.length w)%nat -> within hi (String.length w) ->
  k (prev_after pv w) s' = Some x ->
  rep p lo hi pv s k = Some x.
Proof.
  induction w as [|a w IH]; intros pv lo hi s -> Hw Hs Hlo Hhi Hk.
  - simpl in *. assert (lo = O) as -> by lia.
    destruct s' as [|c s']; simpl; [exact Hk|].
    simpl in Hs. rewrite Hs. exact Hk.
  - simpl in Hw. apply andb_prop in Hw as [Ha Hw]. simpl.
    rewrite Ha. simpl in Hlo, Hhi.
    assert (Hb : below hi = true) by (destruct hi as [[|h]|]; simpl in *; [lia | | ]; reflexivity).
    rewrite Hb. simpl.
    rewrite (IH (Some a) (Nat.pred lo) (Nat.pred <$> hi) (w +:+ s') eq_refl Hw Hs);
      [reflexivity| | |].
    + lia.
    + destruct hi as [h|]; simpl in *; [lia | exact I].
    + rewrite <- (prev_after_cons pv). exact Hk.
Qed.


(** Whatever a repetition returns, it returns from the continuation, after a
    run of at least [lo] characters of the class. *)
Lemma rep_inv (k : option ascii -> string -> option A) x :
  forall s pv lo hi,
  rep p lo hi pv s k = Some x ->
  exists w s', s = w +:+ s' /\ string_forall p w = true
               /\ (lo <= String.length w)%nat
               /\ k (prev_after pv w) s' = Some x.
Proof.
  assert (Hstop : forall s pv lo,
    match lo with O => k pv s | S _ => None end = Some x ->
    exists w s', s = w +:+ s' /\ string_forall p w = true
                 /\ (lo <= String.length w)%nat
                 /\ k (prev_after pv w) s' = Some x).
  { intros s pv [|lo] H; [|discriminate].
    exists EmptyString, s. simpl. auto with lia. }
  induction s as [|c s IH]; intros pv lo hi H; simpl in H.
  - apply Hstop, H.
  - destruct (p c && below hi) eqn:E; [|apply Hstop, H].
    apply andb_prop in E as [Hc _].
    destruct (rep p (Nat.pred lo) (Nat.pred <$> hi) (Some c) s k) eqn:R.
    + injection H as ->. apply IH in R as (w & s' & -> & Hw & Hl & Hk).
      exists (String c w), s'. simpl. rewrite Hc, Hw, prev_after_cons.
      repeat split; [lia | exact Hk].
    + apply Hstop, H.
Qed.
End Rep.

(** ** The memory pattern *)

(** The unit suffixes of the pattern: [[kmgt](?:i?b)?|] under [(?i)]. *)
Definition unit_suffix (u : string) : bool :=
  match u with
  | EmptyString => true
  | String c EmptyString => kmgt c
  | String c (String b EmptyString) => kmgt c && ci "b" b
  | String c (String i (String b EmptyString)) => kmgt c && ci "i" i && ci "b" b
  | _ => false
  end.

Lemma kmgt_classes c :
  kmgt c = true ->
  isdigit c = false /\ isspace c = false /\ Ascii.eqb "." c = false.
Proof. each_char c; vm_compute; intuition congruence. Qed.

Lemma ci_b_classes c :
  ci "b" c = true -> isspace c = false /\ ci "i" c = false.
Proof. each_char c; vm_compute; intuition congruence. Qed.

Lemma ci_i_classes c :
  ci "i" c = true -> isspace c = false /\ ci "b" c = false.
Proof. each_char c; vm_compute; intuition congruence. Qed.

Lemma consumed_all s : consumed s EmptyString = s.
Proof.
  rewrite <- (append_nil_r s) at 1. apply consumed_app.
Qed.

Ltac split_andb :=
  repeat match goal with
         | H : _ && _ = true |- _ => apply andb_prop in H as [? ?]
         end.

(** Facts about the characters of a unit suffix, ready for rewriting. *)
Ltac unit_facts :=
  repeat match goal with
         | H : kmgt ?c = true |- _ =>
             let F := fresh in
             pose proof (kmgt_classes c H) as F; destruct F as (? & ? & ?);
             revert H
         | H : ci "b" ?c = true |- _ =>
             let F := fresh in
             pose proof (ci_b_classes c H) as F; destruct F as (? & ?);
             revert H
         | H : ci "i" ?c = true |- _ =>
             let F := fresh in
             pose proof (ci_i_classes c H) as F; destruct F as (? & ?);
             revert H
         end; intros.

Ltac rewrite_facts :=
  repeat match goal with
         | H : _ = true |- _ => rewrite H
         | H : _ = false |- _ => rewrite H
         end.

Lemma unit_suffix_starts u :
  unit_suffix u = true -> starts_with isdigit u = false /\ starts_with isspace u = false.
Proof.
  destruct u as [|c [|b [|b' [|? ?]]]]; simpl; intros Hu; auto;
    split_andb; try discriminate; unit_facts; auto.
Qed.

Lemma mem_pattern_integer ds u :
  digits ds -> unit_suffix u = true ->
  fullmatch MEM_PATTERN (ds +:+ u) = Some [(2%nat, u); (1%nat, ds)].
Proof.
  intros Hd Hu. pose proof (digits_starts _ Hd) as Hs. destruct Hd as [Hne Hds].
  unfold fullmatch, MEM_PATTERN. cbn [mt Star Plus Opt Lit prev rest caps].
  eapply (rep_greedy _ _ EmptyString (ds +:+ u)); [reflexivity | reflexivity | | simpl; lia | exact I | ].
  { destruct ds as [|a ds]; [congruence|]. simpl in *.
    apply digit_classes in Hs. tauto. }
  cbn beta.
  eapply (rep_greedy _ _ ds u);
    [reflexivity | exact Hds | apply unit_suffix_starts, Hu
    | destruct ds; [congruence | simpl; lia] | exact I | ].
  cbn beta.
  destruct u as [|c [|b [|b' [|? ?]]]]; simpl in Hu; try discriminate;
    split_andb; unit_facts; simpl; rewrite_facts; simpl;
    rewrite ?consumed_app, ?consumed_all; reflexivity.
Qed.

Lemma Return_inj {A} (a b : A) : Return a = Return b -> a = b.
Proof. intros H. injection H as H. exact H. Qed.

Lemma first_some {A} (m e : option A) y :
  m = Some y -> match m with Some x => Some x | None => e end = Some y.
Proof. intros ->. reflexivity. Qed.

Lemma consumed_app3 a c b s :
  consumed (a +:+ String c (b +:+ s)) s = a +:+ String c b.
Proof.
  replace (a +:+ String c (b +:+ s)) with ((a +:+ String c b) +:+ s)
    by (rewrite append_assoc; reflexivity).
  apply consumed_app.
Qed.

Lemma mem_pattern_fraction ds fs u :
  digits ds -> digits fs -> unit_suffix u = true ->
  fullmatch MEM_PATTERN (ds +:+ String "." (fs +:+ u))
  = Some [(2%nat, u); (1%nat, ds +:+ String "." fs)].
Proof.
  intros Hd Hf Hu. pose proof (digits_starts _ Hd) as Hs.
  destruct Hd as [Hne Hds]. destruct Hf as [Hnf Hfs].
  unfold fullmatch, MEM_PATTERN. cbn [mt Star Plus Opt Lit prev rest caps].
  eapply (rep_greedy _ _ EmptyString); [reflexivity | reflexivity | | simpl; lia | exact I | ].
  { destruct ds as [|a ds]; [congruence|]. simpl in *.
    apply digit_classes in Hs. tauto. }
  cbn beta.
  eapply (rep_greedy _ _ ds);
    [reflexivity | exact Hds | reflexivity
    | destruct ds; [congruence | simpl; lia] | exact I | ].
  cbn beta. apply first_some. simpl.
  eapply (rep_greedy _ _ fs u);
    [reflexivity | exact Hfs | apply unit_suffix_starts, Hu
    | destruct fs; [congruence | simpl; lia] | exact I | ].
  cbn beta.
  destruct u as [|c [|b [|b' [|? ?]]]]; simpl in Hu; try discriminate;
    split_andb; unit_facts; simpl; rewrite_facts; simpl;
    rewrite ?consumed_app3, ?consumed_all; reflexivity.
Qed.

(** A number followed by a unit suffix is its own [strip]. *)
Lemma strip_number_unit body u :
  starts_with isdigit body = true ->
  (exists c, last_char body = Some c /\ isdigit c = true) ->
  unit_suffix u = true ->
  strip (body +:+ u) = body +:+ u.
Proof.
  intros Hs (c & Hc & Hcd) Hu.
  assert (H1 : starts_with isspace (body +:+ u) = false).
  { destruct body as [|a body]; [discriminate|]. simpl in *.
    apply digit_classes in Hs. tauto. }
  destruct u as [|c1 u].
  - rewrite append_nil_r in *. apply (strip_id _ c H1 Hc).
    apply digit_classes in Hcd. tauto.
  - destruct (last_char_some (String c1 u)) as [d Hd]; [discriminate|].
    apply (strip_id _ d H1); [rewrite last_char_app; exact Hd|].
    destruct u as [|b [|b' [|? ?]]]; simpl in Hu, Hd; try discriminate;
      split_andb; unit_facts; congruence.
Qed.


Lemma truthy_app s t : s <> EmptyString -> truthy (Some (s +:+ t)) = true.
Proof. destruct s; [congruence | reflexivity]. Qed.

Lemma int_opt_digits s :
  digits s -> (String.length s <= MAX_STR_DIGITS)%nat -> int_opt (Some s) = Return (dec s).
Proof. intros H Hl. unfold int_opt, int_. rewrite (py_int_digits s H Hl). reflexivity. Qed.

Lemma run_digits_digits s : forall count b,
  string_forall isdigit s = true -> (s <> EmptyString \/ b = true) ->
  run_digits s count b = Some (count + String.length s)%nat.
Proof.
  induction s as [|c s IH]; cbn [run_digits String.length string_forall]; intros count b Hs Hb.
  - destruct Hb as [Hb | ->]; [congruence|]. f_equal. lia.
  - apply andb_prop in Hs as [Hc Hs]. rewrite Hc.
    rewrite IH by auto. f_equal. lia.
Qed.

(** A string of more digits than the limit is not converted. *)
Lemma too_many_digits_digits s :
  digits s -> (MAX_STR_DIGITS < String.length s)%nat ->
  too_many_digits s = Some (String.length s).
Proof.
  intros Hd Hl. pose proof (digits_starts s Hd) as H1. destruct Hd as [Hne Hs].
  unfold too_many_digits. rewrite lstrip_by_id.
  2:{ destruct s as [|a s]; [congruence|]. simpl in *. apply digit_classes in H1. tauto. }
  destruct s as [|a s]; [congruence|]. simpl in H1.
  destruct (digit_not a "+" H1 eq_refl) as [-> _].
  destruct (digit_not a "-" H1 eq_refl) as [-> _]. cbn [orb].
  rewrite run_digits_digits; [|exact Hs | left; discriminate].
  cbn [Nat.add]. destruct (Nat.ltb_spec MAX_STR_DIGITS (String.length (String a s))); [reflexivity | lia].
Qed.



(** *** White space around and inside a value *)









(** The string of [n] zeros. *)
Fixpoint zeros (n : nat) : string :=
  match n with
  | O => EmptyString
  | S n' => String "0" (zeros n')
  end.

(** ** Claims on the memory parser *)




(** C2. A value made of decimal digits only, no more than [int] converts,
    matches the pattern, with an empty unit, and no branch of the dispatch
    takes the empty unit: the parser returns [None]. *)
Theorem C2_no_unit_returns_None ds :
  digits ds -> (String.length ds <= MAX_STR_DIGITS)%nat ->
  parse_mem_to_gigabytes (Some ds) = Return None.
Proof.
  intros Hd Hlen. unfold parse_mem_to_gigabytes.
  rewrite <- (append_nil_r ds). rewrite truthy_app by apply Hd. cbn [negb].
  rewrite strip_number_unit;
    [| apply digits_starts, Hd | apply digits_last, Hd | reflexivity].
  rewrite (mem_pattern_integer ds EmptyString Hd eq_refl). cbn [group Nat.eqb].
  rewrite (int_opt_digits ds Hd Hlen). reflexivity.
Qed.

Lemma C2_witness_16000 :
  digits "16000" /\ (String.length "16000" <= MAX_STR_DIGITS)%nat
  /\ parse_mem_to_gigabytes (Some "16000") = Return None.
Proof.
  assert (Hd : digits "16000") by (split; [discriminate | reflexivity]).
  assert (Hl : (String.length "16000" <= MAX_STR_DIGITS)%nat) by (vm_compute; lia).
  split; [exact Hd|]. split; [exact Hl|]. exact (C2_no_unit_returns_None "16000" Hd Hl).
Defined.

Lemma int_digits_dot ds fs : forall acc b,
  string_forall isdigit ds = true ->
  int_digits (ds +:+ String "." fs) acc b = None.
Proof.
  induction ds as [|c ds IH]; simpl; intros acc b Hs; [reflexivity|].
  apply andb_prop in Hs as [Hc Hs]. rewrite Hc. apply IH, Hs.
Qed.

Lemma py_int_fraction ds fs :
  digits ds -> digits fs -> py_int (ds +:+ String "." fs) = None.
Proof.
  intros Hd Hf. apply py_int_none. pose proof (digits_starts ds Hd) as H1.
  destruct (digits_last fs Hf) as (c & Hc & Hcd).
  destruct Hd as [Hne Hs]. destruct Hf as [Hnf Hfs]. unfold int_literal.
  rewrite lstrip_by_id.
  2:{ destruct ds as [|a s]; [congruence|]. simpl in *. apply digit_classes in H1. tauto. }
  rewrite (rstrip_by_id _ _ c).
  2:{ rewrite last_char_app. destruct fs; [congruence|]. exact Hc. }
  2:{ apply digit_classes in Hcd. tauto. }
  destruct ds as [|a ds]; [congruence|]. simpl in H1.
  change (String a ds +:+ String "." fs) with (String a (ds +:+ String "." fs)).
  cbv iota beta.
  destruct (digit_not a "+" H1 eq_refl) as [-> _].
  destruct (digit_not a "-" H1 eq_refl) as [-> _].
  apply (int_digits_dot (String a ds) fs). exact Hs.
Qed.

(** C10. A value with a fractional number part matches the pattern of
    the memory parser, and [int] then rejects the number: the parser raises
    [ValueError] instead of returning a value or [None], and the exception
    leaves [parse_slurmargs] whenever such a value is the [mem] directive
    of a header whose time parses. *)
Theorem C10_fractional_memory_raises ds fs u :
  digits ds -> digits fs -> unit_suffix u = true ->
  let m := ds +:+ String "." (fs +:+ u) in
  fullmatch MEM_PATTERN (strip m) = Some [(2%nat, u); (1%nat, ds +:+ String "." fs)]
  /\ parse_mem_to_gigabytes (Some m) = Raise (int_error (ds +:+ String "." fs))
  /\ forall (slurmargs : gmap string string) h,
       slurmargs !! "mem" = Some m ->
       parse_time_to_hours (slurmargs !! "time") = Return (Some h) ->
       parse_slurmargs slurmargs = Raise (int_error (ds +:+ String "." fs)).
Proof.
  intros Hd Hf Hu m.
  assert (Hstrip : strip m = m).
  { unfold m. replace (ds +:+ String "." (fs +:+ u))
      with ((ds +:+ String "." fs) +:+ u) by (rewrite append_assoc; reflexivity).
    apply strip_number_unit; [| | exact Hu].
    - pose proof (digits_starts ds Hd). destruct ds; [discriminate|]. assumption.
    - destruct (digits_last fs Hf) as (c & Hc & Hcd). exists c. split; [|exact Hcd].
      rewrite last_char_app. destruct Hf as [Hnf _]. destruct fs; [congruence|]. exact Hc. }
  assert (Hmatch := mem_pattern_fraction ds fs u Hd Hf Hu).
  assert (Hparse : parse_mem_to_gigabytes (Some m) = Raise (int_error (ds +:+ String "." fs))).
  { unfold parse_mem_to_gigabytes. unfold m at 1.
    rewrite truthy_app by apply Hd. cbn [negb]. rewrite Hstrip. unfold m.
    rewrite Hmatch. cbn [group Nat.eqb]. unfold int_opt, int_.
    rewrite (py_int_fraction ds fs Hd Hf). reflexivity. }
  split; [rewrite Hstrip; exact Hmatch|]. split; [exact Hparse|].
  intros slurmargs h Hmem Htime. unfold parse_slurmargs.
  rewrite Htime, Hmem, Hparse. reflexivity.
Qed.

(** The example of C10: ["1.5G"]. *)
Lemma C10_witness_1_5G :
  digits "1" /\ digits "5" /\ unit_suffix "G" = true
  /\ parse_mem_to_gigabytes (Some "1.5G")
     = Raise (ValueError "invalid literal for int() with base 10: '1.5'")
  /\ parse_slurmargs {[ "time" := "10"; "mem" := "1.5G" ]}
     = Raise (ValueError "invalid literal for int() with base 10: '1.5'").
Proof.
  assert (H1 : digits "1") by (split; [discriminate | reflexivity]).
  assert (H5 : digits "5") by (split; [discriminate | reflexivity]).
  assert (HG : unit_suffix "G" = true) by reflexivity.
  destruct (C10_fractional_memory_raises "1" "5" "G" H1 H5 HG) as (_ & Hp & Hn).
  split; [exact H1|]. split; [exact H5|]. split; [exact HG|]. split; [exact Hp|].
  apply (Hn _ (fdiv (float_of_Z 10) f60)).
  - vm_compute. reflexivity.
  - vm_compute. reflexivity.
Defined.

(** ** What a successful match has read

    [span r st st'] describes the positions [st'] a match of [r] from [st]
    can end in. The matcher only ever hands such positions to its
    continuation. *)

Fixpoint span (r : regex) (st st' : state) : Prop :=
  match r with
  | Eps => st' = st
  | Chr p =>
      exists c, rest st = String c (rest st') /\ p c = true
                /\ prev st' = Some c /\ caps st' = caps st
  | Seq r1 r2 => exists m, span r1 st m /\ span r2 m st'
  | Alt r1 r2 => span r1 st st' \/ span r2 st st'
  | Rep p lo hi =>
      exists w, rest st = w +:+ rest st' /\ string_forall p w = true
                /\ (lo <= String.length w)%nat
                /\ prev st' = prev_after (prev st) w /\ caps st' = caps st
  | Group n r1 =>
      exists m, span r1 st m
                /\ st' = State (prev m) (rest m)
                               ((n, consumed (rest st) (rest m)) :: caps m)
  | Look r1 => st' = st /\ exists m, span r1 st m
  | Bol => st' = st /\ (prev st = None \/ prev st = Some "010"%char)
  | Eol => st' = st /\ (rest st = EmptyString \/ starts_with (Ascii.eqb "010") (rest st) = true)
  end.

Lemma mt_sound r : forall A st (k : state -> option A) x,
  mt r st k = Some x -> exists st', span r st st' /\ k st' = Some x.
Proof.
  induction r as [|p|r1 IH1 r2 IH2|r1 IH1 r2 IH2|p lo hi|n r1 IH1|r1 IH1| |];
    intros A st k x H; cbn [mt] in H.
  - exists st. split; [reflexivity | exact H].
  - destruct st as [pv s cs]. cbn [rest caps] in H.
    destruct s as [|c s]; [discriminate|]. destruct (p c) eqn:Hp; [|discriminate].
    eexists. split; [|exact H]. exists c. cbn. auto.
  - apply IH1 in H as (m & Hm & H). apply IH2 in H as (st' & Hst' & H).
    exists st'. split; [exists m; auto | exact H].
  - destruct (mt r1 st k) eqn:E.
    + injection H as ->. apply IH1 in E as (st' & ? & ?). exists st'. cbn. auto.
    + apply IH2 in H as (st' & ? & ?). exists st'. cbn. auto.
  - apply rep_inv in H as (w & s' & Hs & Hw & Hl & H).
    eexists. split; [|exact H]. exists w. cbn. auto.
  - apply IH1 in H as (m & Hm & H). eexists. split; [|exact H].
    exists m. auto.
  - destruct (mt r1 st (fun _ => Some tt)) eqn:E; [|discriminate].
    apply IH1 in E as (m & Hm & _). exists st. split; [|exact H].
    split; [reflexivity | exists m; exact Hm].
  - destruct (prev st) as [c|] eqn:E.
    + destruct (Ascii.eqb_spec c "010"); [|discriminate]. subst c.
      exists st. cbn. rewrite E. auto.
    + exists st. cbn. rewrite E. auto.
  - destruct (rest st) as [|c s] eqn:E.
    + exists st. cbn. rewrite E. auto.
    + destruct (Ascii.eqb_spec c "010"); [|discriminate]. subst c.
      exists st. cbn. rewrite E. auto.
Qed.

(** Every element of [finditer] is the groups of a match at some position. *)
Lemma finditer_from_match r line : forall s pv skip,
  In line (finditer_from r pv s skip) ->
  exists pv' s' st, match_at r pv' s' = Some st /\ line = caps st.
Proof.
  induction s as [|c s IH]; intros pv skip H.
  - destruct skip; simpl in H; [|contradiction].
    destruct (match_at r pv EmptyString) eqn:E; simpl in H; [|contradiction].
    destruct H as [<-|[]]. eauto.
  - destruct skip; simpl in H.
    + destruct (match_at r pv (String c s)) eqn:E.
      * destruct H as [<-|H]; [eauto | eapply IH, H].
      * eapply IH, H.
    + eapply IH, H.
Qed.

(** ** The header pattern *)

Lemma group_run_nonempty p st m :
  span (Plus p) st m -> exists a w, consumed (rest st) (rest m) = String a w.
Proof.
  intros (w & Hs & _ & Hl & _). rewrite Hs, consumed_app.
  destruct w as [|a w]; [simpl in Hl; lia | eauto].
Qed.

(** Every match of the header pattern has a name, in group 1 or 2, and a
    value, in group 3 or 4, and neither is empty. *)
Lemma header_match_groups pv s st :
  match_at SLURMHEADER_PATTERN pv s = Some st ->
  exists name value,
    line_slurmarg (caps st) = Some name /\ line_argvalue (caps st) = Some value
    /\ name <> EmptyString /\ value <> EmptyString.
Proof.
  unfold match_at. intros H. apply mt_sound in H as (st' & Hspan & [= ->]).
  unfold SLURMHEADER_PATTERN in Hspan. cbn [span] in Hspan.
  destruct Hspan as (m1 & [-> _] & m2 & Hws & m3 & Hlit & m4 & Hws2 & m5 & Hname & m6 & Hval & -> & _).
  destruct Hws as (w0 & _ & _ & _ & _ & Hc0). cbn [caps] in Hc0.
  assert (Hc3 : caps m3 = []).
  { cbn [Lit span] in Hlit.
    destruct Hlit as (? & (? & _ & _ & _ & ?) & ? & (? & _ & _ & _ & ?) & ?
      & (? & _ & _ & _ & ?) & ? & (? & _ & _ & _ & ?) & ? & (? & _ & _ & _ & ?)
      & ? & (? & _ & _ & _ & ?) & ? & (? & _ & _ & _ & ?) & ->). congruence. }
  assert (Hc4 : caps m4 = []).
  { destruct Hws2 as (? & _ & _ & _ & _ & ?). congruence. }
  assert (Hn : exists i a w, (i = 1 \/ i = 2)%nat /\ caps m5 = [(i, String a w)]).
  { destruct Hname as [(n1 & Hl & m & Hrun & ->) | (n1 & Hl & m & Hrun & ->)];
      cbn [Lit span] in Hl.
    - destruct Hl as (? & (? & _ & _ & _ & ?) & ? & (? & _ & _ & _ & ?) & ->).
      destruct (group_run_nonempty _ _ _ Hrun) as (a & w & ->).
      destruct Hrun as (? & _ & _ & _ & _ & ?).
      exists 1%nat, a, w. split; [auto|]. cbn [caps]. congruence.
    - destruct Hl as (? & (? & _ & _ & _ & ?) & ->).
      destruct Hrun as (c & Hr & _ & _ & Hc). rewrite Hr.
      change (String c (rest m)) with (String c EmptyString +:+ rest m).
      rewrite consumed_app.
      exists 2%nat, c, EmptyString. split; [auto|]. cbn [caps]. congruence. }
  destruct Hn as (i & a & w & Hi & Hc5).
  assert (Hv : exists j b v, (j = 3 \/ j = 4)%nat /\ caps m6 = [(j, String b v); (i, String a w)]).
  { destruct Hval as [(n1 & Hl & m & (n2 & [-> _] & Hrun) & ->)
                     | (n1 & Hl & m & (n2 & [-> _] & Hrun) & ->)].
    - cbn [Lit span] in Hl. destruct Hl as (? & (? & _ & _ & _ & ?) & ->).
      destruct (group_run_nonempty _ _ _ Hrun) as (b & v & ->).
      destruct Hrun as (? & _ & _ & _ & _ & ?).
      exists 3%nat, b, v. split; [auto|]. cbn [caps]. congruence.
    - destruct Hl as (? & _ & _ & _ & _ & ?).
      destruct (group_run_nonempty _ _ _ Hrun) as (b & v & ->).
      destruct Hrun as (? & _ & _ & _ & _ & ?).
      exists 4%nat, b, v. split; [auto|]. cbn [caps]. congruence. }
  destruct Hv as (j & b & v & Hj & ->).
  exists (String a w), (String b v).
  unfold line_slurmarg, line_argvalue.
  destruct Hi as [-> | ->], Hj as [-> | ->]; cbn; repeat split; discriminate.
Qed.

(** ** Header extraction *)

(** The value of a matched line, as the pattern captured it, holds a [#]. *)
Definition value_has_hash (line : captures) : bool :=
  match line_argvalue line with
  | Some v => contains "#" v
  | None => false
  end.

Lemma contains_lstrip sp c s :
  sp c = false -> contains c (lstrip_by sp s) = contains c s.
Proof.
  intros Hc. induction s as [|a s IH]; simpl; [reflexivity|].
  destruct (sp a) eqn:Ha; [|reflexivity].
  rewrite IH. destruct (Ascii.eqb_spec a c); [congruence | reflexivity].
Qed.

Lemma contains_rstrip sp c s :
  sp c = false -> contains c (rstrip_by sp s) = contains c s.
Proof.
  intros Hc. induction s as [|a s IH]; simpl; [reflexivity|].
  destruct (rstrip_by sp s) as [|b r].
  - simpl in IH. rewrite <- IH. destruct (sp a) eqn:Ha; simpl.
    + destruct (Ascii.eqb_spec a c); [congruence | reflexivity].
    + reflexivity.
  - rewrite <- IH. reflexivity.
Qed.

Lemma contains_strip c s : isspace c = false -> contains c (strip s) = contains c s.
Proof.
  intros Hc. unfold strip. rewrite contains_rstrip, contains_lstrip by assumption.
  reflexivity.
Qed.

(** A line of [finditer] has its name and its value. *)
Definition well_matched (line : captures) : Prop :=
  exists name value,
    line_slurmarg line = Some name /\ line_argvalue line = Some value.

Lemma finditer_well_matched scriptlines :
  Forall well_matched (finditer SLURMHEADER_PATTERN scriptlines).
Proof.
  apply List.Forall_forall. intros line Hin.
  apply finditer_from_match in Hin as (pv & s & st & Hm & ->).
  destruct (header_match_groups pv s st Hm) as (n & v & ? & ? & _).
  exists n, v. auto.
Qed.

Lemma header_step_hash slurmargs line :
  well_matched line -> value_has_hash line = true ->
  exists msg, header_step slurmargs line = Raise (ValueError msg).
Proof.
  intros (n & v & Hn & Hv) Hh. unfold value_has_hash in Hh. rewrite Hv in Hh.
  unfold header_step. rewrite Hn, Hv.
  rewrite contains_strip by reflexivity. rewrite Hh. eexists. reflexivity.
Qed.

Lemma header_step_no_hash slurmargs line :
  well_matched line -> value_has_hash line = false ->
  exists slurmargs', header_step slurmargs line = Return slurmargs'.
Proof.
  intros (n & v & Hn & Hv) Hh. unfold value_has_hash in Hh. rewrite Hv in Hh.
  unfold header_step. rewrite Hn, Hv.
  rewrite contains_strip by reflexivity. rewrite Hh. eexists. reflexivity.
Qed.

Lemma header_loop_hash headerlines : forall slurmargs,
  Forall well_matched headerlines ->
  existsb value_has_hash headerlines = true ->
  exists msg, header_loop headerlines slurmargs = Raise (ValueError msg).
Proof.
  induction headerlines as [|line ls IH]; intros d Hw Hh; [discriminate|].
  apply List.Forall_cons_iff in Hw as [Hl Hw]. simpl in Hh |- *.
  destruct (value_has_hash line) eqn:E.
  - destruct (header_step_hash d line Hl E) as [msg ->]. exists msg. reflexivity.
  - destruct (header_step_no_hash d line Hl E) as [d' ->]. simpl. apply IH; assumption.
Qed.

Lemma header_loop_no_hash headerlines : forall slurmargs,
  Forall well_matched headerlines ->
  existsb value_has_hash headerlines = false ->
  exists slurmargs', header_loop headerlines slurmargs = Return slurmargs'.
Proof.
  induction headerlines as [|line ls IH]; intros d Hw Hh; [eexists; reflexivity|].
  apply List.Forall_cons_iff in Hw as [Hl Hw]. simpl in Hh |- *.
  apply orb_false_elim in Hh as [E Hh].
  destruct (header_step_no_hash d line Hl E) as [d' ->]. simpl. apply IH; assumption.
Qed.

(** C9. Extraction raises, and what it raises is a [ValueError], exactly
    when the value of some matched directive holds the character [#];
    when no matched value holds it, extraction returns the mapping. *)
Theorem C9_hash_in_value_raises (scriptlines : string) :
  let headerlines := finditer SLURMHEADER_PATTERN scriptlines in
  ((exists e, extract_slurmheader_arguments scriptlines = Raise e)
   <-> existsb value_has_hash headerlines = true)
  /\ (forall e, extract_slurmheader_arguments scriptlines = Raise e ->
                exists msg, e = ValueError msg)
  /\ (existsb value_has_hash headerlines = false ->
      exists slurmargs, extract_slurmheader_arguments scriptlines = Return slurmargs).
Proof.
  intros headerlines. unfold extract_slurmheader_arguments. fold headerlines.
  pose proof (finditer_well_matched scriptlines) as Hw. fold headerlines in Hw.
  destruct (existsb value_has_hash headerlines) eqn:E.
  - destruct (header_loop_hash headerlines ∅ Hw E) as [msg Hr].
    rewrite Hr. repeat split; eauto; try discriminate.
    intros e [= <-]. eauto.
  - destruct (header_loop_no_hash headerlines ∅ Hw E) as [d Hr].
    rewrite Hr. repeat split; eauto; try discriminate.
    intros [e He]. discriminate.
Qed.

(** ** The key of the tasks-per-node directive *)

(** No name is normalized to [tasks-per-node]: the table sends that name to
    [ntasks-per-node], and no entry has it as its value. *)
Lemma conversion_never_tasks_per_node name :
  default name (SLURMARG_CONVERSIONS !! name) <> "tasks-per-node".
Proof.
  destruct (SLURMARG_CONVERSIONS !! name) as [v|] eqn:E; cbn [default].
  - unfold SLURMARG_CONVERSIONS in E. apply elem_of_list_to_map_2 in E.
    repeat (apply elem_of_cons in E as [E|E]; [injection E as -> ->; discriminate|]).
    apply elem_of_nil in E. contradiction.
  - intros ->. vm_compute in E. discriminate.
Qed.

Lemma header_step_tasks_per_node slurmargs line slurmargs' :
  header_step slurmargs line = Return slurmargs' ->
  slurmargs !! "tasks-per-node" = None ->
  slurmargs' !! "tasks-per-node" = None.
Proof.
  unfold header_step.
  destruct (line_slurmarg line) as [n|]; [|discriminate].
  destruct (line_argvalue line) as [v|]; [|discriminate].
  destruct (contains "#" (strip v)); [discriminate|].
  pose proof (conversion_never_tasks_per_node n) as Hne.
  set (key := default n (SLURMARG_CONVERSIONS !! n)) in *.
  set (val := if argvalue_is_quoted (strip v) then _ else _).
  intros H H0. apply Return_inj in H. subst slurmargs'.
  rewrite lookup_insert_ne by exact Hne. exact H0.
Qed.

Lemma header_loop_tasks_per_node headerlines : forall slurmargs slurmargs',
  header_loop headerlines slurmargs = Return slurmargs' ->
  slurmargs !! "tasks-per-node" = None ->
  slurmargs' !! "tasks-per-node" = None.
Proof.
  induction headerlines as [|line ls IH]; intros d d' H Hd; simpl in H.
  - apply Return_inj in H. subst d'. exact Hd.
  - destruct (header_step d line) as [d1|] eqn:E; [|discriminate]. simpl in H.
    eapply IH; [exact H|]. eapply header_step_tasks_per_node; eassumption.
Qed.

Lemma extract_tasks_per_node scriptlines slurmargs :
  extract_slurmheader_arguments scriptlines = Return slurmargs ->
  slurmargs !! "tasks-per-node" = None.
Proof.
  intros H. eapply header_loop_tasks_per_node; [exact H|]. apply lookup_empty.
Qed.

Lemma parse_slurmargs_cpus slurmargs r :
  parse_slurmargs slurmargs = Return r ->
  cpus r = resolve_ntasks slurmargs * resolve_cpus_per_task slurmargs.
Proof.
  unfold parse_slurmargs. intros H.
  destruct (parse_time_to_hours (slurmargs !! "time")) as [[h|]|]; try discriminate.
  cbn [bind] in H.
  destruct (parse_mem_to_gigabytes (slurmargs !! "mem")) as [[g|]|]; try discriminate;
    cbn [bind] in H.
  - injection H as <-. reflexivity.
  - destruct (parse_mem_to_gigabytes (slurmargs !! "mem-per-cpu")) as [[g|]|];
      try discriminate; cbn [bind] in H.
    destruct (float_mul_int g _); [|discriminate]. cbn [bind] in H.
    injection H as <-. reflexivity.
Qed.

Definition newline : string := String "010" EmptyString.

(** A script that asks for four tasks on each of three nodes. *)
Definition script_tasks_per_node : string :=
  "#!/bin/bash" +:+ newline +:+
  "#SBATCH --time=1:00:00" +:+ newline +:+
  "#SBATCH --mem=4G" +:+ newline +:+
  "#SBATCH --tasks-per-node=4" +:+ newline +:+
  "#SBATCH --nodes=3" +:+ newline +:+
  "srun ./a.out" +:+ newline.

(** C3. The mapping extraction returns never has the key
    [tasks-per-node] that normalization reads, so a header without
    [ntasks] resolves to one task whatever [tasks-per-node] and [nodes] say:
    the record has [cpus = 1] when [cpus-per-task] is absent too, where the
    product of the two directives was to be taken. *)
Theorem C3_tasks_per_node_fallback_unreachable scriptlines slurmargs r :
  extract_slurmheader_arguments scriptlines = Return slurmargs ->
  slurmargs !! "ntasks" = None ->
  slurmargs !! "cpus-per-task" = None ->
  parse_slurmargs slurmargs = Return r ->
  resolve_ntasks slurmargs = 1 /\ cpus r = 1.
Proof.
  intros Hx Hn Hc Hp. apply extract_tasks_per_node in Hx.
  assert (H1 : resolve_ntasks slurmargs = 1).
  { unfold resolve_ntasks. rewrite Hn, Hx. reflexivity. }
  split; [exact H1|].
  rewrite (parse_slurmargs_cpus _ _ Hp), H1.
  unfold resolve_cpus_per_task. rewrite Hc. reflexivity.
Qed.

(** The script with [tasks-per-node=4] and [nodes=3]: extraction files the
    first under [ntasks-per-node], and normalization returns [cpus = 1]. *)
Lemma C3_witness_four_by_three :
  let slurmargs : gmap string string :=
    {[ "time" := "1:00:00"; "mem" := "4G"; "ntasks-per-node" := "4"; "nodes" := "3" ]} in
  let r := Resources (float_of_Z 1) 1 (float_of_Z 4) 1 in
  extract_slurmheader_arguments script_tasks_per_node = Return slurmargs
  /\ slurmargs !! "ntasks" = None
  /\ slurmargs !! "cpus-per-task" = None
  /\ parse_slurmargs slurmargs = Return r
  /\ resolve_ntasks slurmargs = 1 /\ cpus r = 1.
Proof.
  intros d r.
  assert (Hx : extract_slurmheader_arguments script_tasks_per_node = Return d)
    by (vm_compute; reflexivity).
  assert (Hn : d !! "ntasks" = None) by (vm_compute; reflexivity).
  assert (Hc : d !! "cpus-per-task" = None) by (vm_compute; reflexivity).
  assert (Hp : parse_slurmargs d = Return r) by (vm_compute; reflexivity).
  split; [exact Hx|]. split; [exact Hn|]. split; [exact Hc|]. split; [exact Hp|].
  exact (C3_tasks_per_node_fallback_unreachable script_tasks_per_node d r Hx Hn Hc Hp).
Defined.

(** ** The time patterns *)



Lemma sep_not_digit c s :
  isdigit c = false -> starts_with isdigit (String c s) = false.
Proof. intros H. exact H. Qed.













(** The time strings are their own [strip]. *)
Lemma last_char_cons c s : s <> EmptyString -> last_char (String c s) = last_char s.
Proof. destruct s; [congruence | reflexivity]. Qed.


(** ** Claims on the time parser *)











(** ** The array specification *)

(** The items of an array specification: an index, or a range with an
    optional step. The numbers are kept as their digits; a step may carry a
    minus sign. *)
Inductive array_item : Type :=
| Index (n : string)
| Span (start stop : string) (step : option string).

(** An item with its optional throttle [%N]. *)
Definition throttled : Type := array_item * option string.

Definition signed_digits (s : string) : Prop :=
  digits s \/ exists ds, s = String "-" ds /\ digits ds.

Definition signed_dec (s : string) : Z :=
  match s with
  | String c r => if Ascii.eqb c "-" then - dec r else dec s
  | EmptyString => 0
  end.

Definition item_ok (it : throttled) : Prop :=
  match fst it with
  | Index n => digits n
  | Span a b st =>
      digits a /\ digits b
      /\ match st with Some s => signed_digits s | None => True end
  end
  /\ match snd it with Some t => digits t | None => True end.

Definition render_body (it : array_item) : string :=
  match it with
  | Index n => n
  | Span a b None => a +:+ String "-" b
  | Span a b (Some s) => (a +:+ String "-" b) +:+ String ":" s
  end.

Definition render_item (it : throttled) : string :=
  match snd it with
  | None => render_body (fst it)
  | Some t => render_body (fst it) +:+ String "%" t
  end.

Fixpoint join (sep : ascii) (l : list string) : string :=
  match l with
  | [] => EmptyString
  | [x] => x
  | x :: l' => x +:+ String sep (join sep l')
  end.

(** The number of tasks of one item, by the rules of the array grammar. *)
Definition item_count (it : array_item) : Z :=
  match it with
  | Index _ => 1
  | Span a b st =>
      let step := match st with Some s => signed_dec s | None => 1 end in
      let step := if step <=? 0 then 1 else step in
      if dec b <? dec a then 1 else (dec b - dec a) / step + 1
  end.

Fixpoint total_count (items : list throttled) : Z :=
  match items with
  | [] => 0
  | it :: items' => item_count (fst it) + total_count items'
  end.

(** *** Splitting *)

Lemma contains_app c s t : contains c (s +:+ t) = contains c s || contains c t.
Proof. induction s; simpl; [reflexivity|]. rewrite IHs, orb_assoc. reflexivity. Qed.

Lemma contains_digits c s :
  isdigit c = false -> string_forall isdigit s = true -> contains c s = false.
Proof.
  intros Hc. induction s as [|a s IH]; simpl; [reflexivity|].
  intros [Ha Hs]%andb_prop. rewrite (IH Hs).
  destruct (Ascii.eqb_spec a c); [congruence | reflexivity].
Qed.

Lemma split1_sep c w r :
  contains c w = false -> split1 c (w +:+ String c r) = (w, Some r).
Proof.
  induction w as [|a w IH]; simpl; intros H.
  - rewrite Ascii.eqb_refl. reflexivity.
  - apply orb_false_elim in H as [Ha Hw]. rewrite Ha, (IH Hw). reflexivity.
Qed.

Lemma split1_none c w : contains c w = false -> split1 c w = (w, None).
Proof.
  induction w as [|a w IH]; simpl; intros H; [reflexivity|].
  apply orb_false_elim in H as [Ha Hw]. rewrite Ha, (IH Hw). reflexivity.
Qed.

Lemma split_sep c w r :
  contains c w = false -> split c (w +:+ String c r) = w :: split c r.
Proof.
  induction w as [|a w IH]; simpl; intros H.
  - rewrite Ascii.eqb_refl. reflexivity.
  - apply orb_false_elim in H as [Ha Hw]. rewrite Ha, (IH Hw). reflexivity.
Qed.

Lemma split_none c w : contains c w = false -> split c w = [w].
Proof.
  induction w as [|a w IH]; simpl; intros H; [reflexivity|].
  apply orb_false_elim in H as [Ha Hw]. rewrite Ha, (IH Hw). reflexivity.
Qed.

Lemma split_join c l :
  l <> [] -> Forall (fun x => contains c x = false) l -> split c (join c l) = l.
Proof.
  induction l as [|x l IH]; [congruence|]. intros _ Hl.
  apply List.Forall_cons_iff in Hl as [Hx Hl].
  destruct l as [|y l]; [apply split_none, Hx|].
  change (join c (x :: y :: l)) with (x +:+ String c (join c (y :: l))).
  rewrite (split_sep c x _ Hx), IH; [reflexivity | discriminate | exact Hl].
Qed.

(** *** Texts that start and end with a digit *)

Definition ends_digit (s : string) : Prop :=
  exists c, last_char s = Some c /\ isdigit c = true.

Lemma ends_digit_app s c t : ends_digit t -> ends_digit (s +:+ String c t).
Proof.
  intros (e & He & Hd). exists e. split; [|exact Hd].
  rewrite last_char_app. destruct t; [discriminate|]. exact He.
Qed.

Lemma starts_digit_app s t :
  starts_with isdigit s = true -> starts_with isdigit (s +:+ t) = true.
Proof. destruct s; [discriminate | intros H; exact H]. Qed.

Lemma signed_digits_ends s : signed_digits s -> ends_digit s.
Proof.
  intros [H | (ds & -> & H)]; [apply digits_last, H|].
  apply (ends_digit_app EmptyString "-" ds), digits_last, H.
Qed.

Lemma strip_digit_ended s :
  starts_with isdigit s = true -> ends_digit s ->
  strip s = s /\ truthy (Some s) = true.
Proof.
  intros Hs (c & Hc & Hd). split.
  - apply (strip_id s c); [|exact Hc|apply digit_classes in Hd; tauto].
    destruct s as [|a s]; [discriminate|]. simpl in *.
    apply digit_classes in Hs. tauto.
  - destruct s; [discriminate | reflexivity].
Qed.

(** The digits of a number with an optional [-] in front. *)
Definition signed_length (s : string) : nat :=
  match s with
  | String c r => if Ascii.eqb c "-" then String.length r else String.length s
  | EmptyString => O
  end.

Lemma int_literal_signed s : signed_digits s -> int_literal s = Some (signed_dec s).
Proof.
  intros [H | (ds & -> & H)].
  - rewrite (int_literal_digits s H). unfold signed_dec.
    pose proof (digits_starts s H) as Hs. destruct s as [|a s]; [discriminate|].
    simpl in Hs. destruct (digit_not a "-" Hs eq_refl) as [-> _]. reflexivity.
  - destruct (digits_last ds H) as (c & Hc & Hd).
    unfold int_literal. rewrite lstrip_by_id by reflexivity.
    rewrite (rstrip_by_id _ _ c);
      [| rewrite last_char_cons by apply H; exact Hc | apply digit_classes in Hd; tauto].
    cbn [Ascii.eqb]. simpl.
    rewrite int_digits_digits; [reflexivity | apply H | left; apply H].
Qed.

Lemma too_many_digits_signed s :
  signed_digits s ->
  too_many_digits s
  = if (MAX_STR_DIGITS <? signed_length s)%nat then Some (signed_length s) else None.
Proof.
  intros [H | (ds & -> & H)].
  - pose proof (digits_starts s H) as Hs.
    assert (E : signed_length s = String.length s).
    { destruct s as [|a s]; [reflexivity|]. simpl in Hs. cbn [signed_length].
      destruct (digit_not a "-" Hs eq_refl) as [-> _]. reflexivity. }
    rewrite E. destruct (Nat.ltb_spec MAX_STR_DIGITS (String.length s)).
    + apply too_many_digits_digits; assumption.
    + apply too_many_digits_short; assumption.
  - unfold too_many_digits. rewrite lstrip_by_id by reflexivity.
    cbn [signed_length]. rewrite Ascii.eqb_refl.
    change (Ascii.eqb "-" "+" || Ascii.eqb "-" "-") with true. cbn iota.
    destruct H as [Hne Hs].
    rewrite run_digits_digits; [|exact Hs | left; exact Hne]. reflexivity.
Qed.

(** [int] on a number with an optional [-] in front: its value when it has
    no more digits than the limit. *)
Lemma py_int_signed s :
  signed_digits s ->
  py_int s = if (signed_length s <=? MAX_STR_DIGITS)%nat then Some (signed_dec s) else None.
Proof.
  intros H. unfold py_int. rewrite (too_many_digits_signed s H).
  destruct (Nat.ltb_spec MAX_STR_DIGITS (signed_length s));
    destruct (Nat.leb_spec (signed_length s) MAX_STR_DIGITS); try lia;
    [reflexivity | apply int_literal_signed, H].
Qed.

Lemma py_int_numeral s :
  digits s ->
  py_int s = if (String.length s <=? MAX_STR_DIGITS)%nat then Some (dec s) else None.
Proof.
  intros H. destruct (Nat.leb_spec (String.length s) MAX_STR_DIGITS).
  - apply py_int_digits; assumption.
  - unfold py_int. rewrite too_many_digits_digits by assumption. reflexivity.
Qed.

(** No numeral of the item has more digits than [int] converts. *)
Definition item_short (it : throttled) : bool :=
  match fst it with
  | Index n => (String.length n <=? MAX_STR_DIGITS)%nat
  | Span a b st =>
      (String.length a <=? MAX_STR_DIGITS)%nat
      && (String.length b <=? MAX_STR_DIGITS)%nat
      && match st with
         | Some s => (signed_length s <=? MAX_STR_DIGITS)%nat
         | None => true
         end
  end.

Lemma contains_signed c s :
  isdigit c = false -> Ascii.eqb "-" c = false -> signed_digits s -> contains c s = false.
Proof.
  intros Hc Hm [H | (ds & -> & H)]; [apply contains_digits; [exact Hc | apply H]|].
  simpl. rewrite Hm. apply contains_digits; [exact Hc | apply H].
Qed.

(** *** One item *)

Lemma render_body_facts it :
  item_ok (it, None) ->
  starts_with isdigit (render_body it) = true /\ ends_digit (render_body it)
  /\ contains "%" (render_body it) = false
  /\ contains "," (render_body it) = false.
Proof.
  intros [H _]. cbn [fst] in H. destruct it as [n | a b [s|]]; cbn [render_body].
  - repeat split; [apply digits_starts, H | apply digits_last, H | |];
      apply contains_digits; solve [reflexivity | apply H].
  - destruct H as (Ha & Hb & Hs). repeat split.
    + rewrite append_assoc. apply starts_digit_app, digits_starts, Ha.
    + apply ends_digit_app, signed_digits_ends, Hs.
    + rewrite !contains_app. cbn [contains].
      rewrite !(contains_digits "%") by solve [reflexivity | apply Ha | apply Hb].
      rewrite (contains_signed "%" s) by solve [reflexivity | exact Hs]. reflexivity.
    + rewrite !contains_app. cbn [contains].
      rewrite !(contains_digits ",") by solve [reflexivity | apply Ha | apply Hb].
      rewrite (contains_signed "," s) by solve [reflexivity | exact Hs]. reflexivity.
  - destruct H as (Ha & Hb & _). repeat split.
    + apply starts_digit_app, digits_starts, Ha.
    + apply ends_digit_app, digits_last, Hb.
    + rewrite !contains_app. cbn [contains].
      rewrite !(contains_digits "%") by solve [reflexivity | apply Ha | apply Hb]. reflexivity.
    + rewrite !contains_app. cbn [contains].
      rewrite !(contains_digits ",") by solve [reflexivity | apply Ha | apply Hb]. reflexivity.
Qed.

Lemma item_ok_body it thr : item_ok (it, thr) -> item_ok (it, None).
Proof. intros [H _]. split; [exact H | exact I]. Qed.

Lemma render_item_facts it :
  item_ok it ->
  strip (render_item it) = render_item it
  /\ truthy (Some (render_item it)) = true
  /\ fst (split1 "%" (render_item it)) = render_body (fst it)
  /\ contains "," (render_item it) = false.
Proof.
  destruct it as [it thr]. intros Hok.
  destruct (render_body_facts it (item_ok_body _ _ Hok)) as (Hs & He & Hp & Hc).
  destruct Hok as [_ Ht]. cbn [snd] in Ht. unfold render_item. cbn [fst snd].
  destruct thr as [t|].
  - destruct (strip_digit_ended (render_body it +:+ String "%" t)) as [H1 H2].
    { apply starts_digit_app, Hs. }
    { apply ends_digit_app, digits_last, Ht. }
    repeat split; [exact H1 | exact H2 | rewrite (split1_sep _ _ _ Hp); reflexivity |].
    rewrite contains_app, Hc. cbn [contains].
    rewrite (contains_digits "," t) by solve [reflexivity | apply Ht]. reflexivity.
  - destruct (strip_digit_ended (render_body it) Hs He) as [H1 H2].
    repeat split; [exact H1 | exact H2 | rewrite (split1_none _ _ Hp); reflexivity | exact Hc].
Qed.

(** A well-formed item adds its count to the running total. *)
Lemma array_part_item total it :
  item_ok it ->
  array_part total (render_item it)
  = if item_short it then Some (total + item_count (fst it)) else None.
Proof.
  intros Hok. destruct (render_item_facts it Hok) as (Hstrip & Ht & Hsplit & _).
  unfold array_part. rewrite Hstrip, Ht, Hsplit. cbn [negb].
  destruct it as [it thr]. destruct Hok as [Hok _]. unfold item_short. cbn [fst] in *.
  destruct it as [n | a b st]; cbn [render_body item_count].
  - rewrite (contains_digits "-" n) by solve [reflexivity | apply Hok].
    rewrite (py_int_numeral n Hok).
    destruct (String.length n <=? MAX_STR_DIGITS)%nat; reflexivity.
  - destruct Hok as (Ha & Hb & Hs).
    assert (Hca : contains "-" a = false)
      by (apply contains_digits; [reflexivity | apply Ha]).
    assert (Hcolon : contains ":" (a +:+ String "-" b) = false).
    { rewrite contains_app. cbn [contains].
      rewrite !(contains_digits ":") by solve [reflexivity | apply Ha | apply Hb].
      reflexivity. }
    assert (Hdash : forall t, contains "-" ((a +:+ String "-" b) +:+ t) = true).
    { intros t. rewrite !contains_app. cbn [contains]. rewrite Ascii.eqb_refl.
      rewrite orb_true_r. reflexivity. }
    destruct st as [s|].
    + rewrite Hdash, (split1_sep ":" _ s Hcolon), (split1_sep "-" a b Hca).
      rewrite (py_int_numeral a Ha), (py_int_numeral b Hb), (py_int_signed s Hs).
      destruct (String.length a <=? MAX_STR_DIGITS)%nat; [|reflexivity].
      destruct (String.length b <=? MAX_STR_DIGITS)%nat; [|reflexivity].
      destruct (signed_length s <=? MAX_STR_DIGITS)%nat; [|reflexivity].
      cbn. destruct (dec b <? dec a); reflexivity.
    + rewrite <- (append_nil_r (a +:+ String "-" b)) at 1. rewrite Hdash.
      rewrite (split1_none ":" _ Hcolon), (split1_sep "-" a b Hca).
      rewrite (py_int_numeral a Ha), (py_int_numeral b Hb).
      destruct (String.length a <=? MAX_STR_DIGITS)%nat; [|reflexivity].
      destruct (String.length b <=? MAX_STR_DIGITS)%nat; [|reflexivity].
      change (py_int "1") with (Some 1).
      cbn. destruct (dec b <? dec a); reflexivity.
Qed.

Lemma array_loop_items items : forall total,
  Forall item_ok items ->
  array_loop (render_item <$> items) total
  = if forallb item_short items then Some (total + total_count items) else None.
Proof.
  induction items as [|it items IH]; intros total Hok; cbn.
  - f_equal. lia.
  - apply List.Forall_cons_iff in Hok as [Hit Hok].
    rewrite (array_part_item total it Hit).
    destruct (item_short it); [|reflexivity]. cbn. rewrite (IH _ Hok).
    destruct (forallb item_short items); [|reflexivity]. f_equal. lia.
Qed.

Lemma item_count_pos it : item_ok (it, None) -> 1 <= item_count it.
Proof.
  intros [H _]. cbn [fst] in H. destruct it as [n | a b st]; cbn [item_count]; [lia|].
  destruct (dec b <? dec a) eqn:E; [lia|]. apply Z.ltb_ge in E.
  set (step := if _ <=? 0 then 1 else _).
  assert (0 < step) by (unfold step; destruct (_ <=? 0) eqn:E2; [lia | apply Z.leb_gt in E2; lia]).
  assert (0 <= (dec b - dec a) / step) by (apply Z.div_pos; lia). lia.
Qed.

Lemma total_count_pos items :
  items <> [] -> Forall item_ok items -> 1 <= total_count items.
Proof.
  destruct items as [|it items]; [congruence|]. intros _ Hok.
  apply List.Forall_cons_iff in Hok as [Hit Hok]. cbn [total_count].
  assert (0 <= total_count items).
  { clear Hit. induction items as [|x items IH]; cbn [total_count]; [lia|].
    apply List.Forall_cons_iff in Hok as [Hx Hok].
    destruct x as [x thr]. pose proof (item_count_pos x (item_ok_body _ _ Hx)).
    specialize (IH Hok). cbn [fst]. lia. }
  destruct it as [it thr]. pose proof (item_count_pos it (item_ok_body _ _ Hit)).
  cbn [fst]. lia.
Qed.

Lemma join_facts items :
  items <> [] -> Forall item_ok items ->
  starts_with isdigit (join "," (render_item <$> items)) = true
  /\ ends_digit (join "," (render_item <$> items)).
Proof.
  induction items as [|it items IH]; [congruence|]. intros _ Hok.
  apply List.Forall_cons_iff in Hok as [Hit Hok].
  assert (Hr : starts_with isdigit (render_item it) = true /\ ends_digit (render_item it)).
  { destruct it as [it thr].
    destruct (render_body_facts it (item_ok_body _ _ Hit)) as (Hs & He & _).
    destruct Hit as [_ Ht]. unfold render_item. cbn [fst snd] in *.
    destruct thr as [t|]; [|auto]. split; [apply starts_digit_app, Hs|].
    apply ends_digit_app, digits_last, Ht. }
  destruct items as [|it' items]; [exact Hr|].
  change (join "," (render_item <$> it :: it' :: items))
    with (render_item it +:+ String "," (join "," (render_item <$> it' :: items))).
  split; [apply starts_digit_app, Hr|].
  apply ends_digit_app, IH; [discriminate | exact Hok].
Qed.

(** ** Claim on the array parser *)

Lemma parse_array_count_items items :
  items <> [] -> Forall item_ok items ->
  parse_array_count (Some (join "," (render_item <$> items)))
  = if forallb item_short items then total_count items else 1.
Proof.
  intros Hne Hok. destruct (join_facts items Hne Hok) as [Hs He].
  destruct (strip_digit_ended _ Hs He) as [Hstrip Ht].
  unfold parse_array_count. rewrite Ht, Hstrip. cbn [negb].
  rewrite split_join.
  - rewrite (array_loop_items items 0 Hok).
    destruct (forallb item_short items); [|reflexivity].
    pose proof (total_count_pos items Hne Hok) as Hp.
    replace (0 + total_count items) with (total_count items) by lia.
    destruct (0 <? total_count items) eqn:E; [reflexivity|].
    apply Z.ltb_ge in E. lia.
  - destruct items; [congruence | discriminate].
  - apply List.Forall_forall. intros x Hx.
    apply List.in_map_iff in Hx as (it & <- & Hit).
    rewrite List.Forall_forall in Hok. apply render_item_facts, Hok, Hit.
Qed.

(** C7, as amended. The count of a specification made of comma-separated
    items, each an index or a range [start-end] with an optional [:step] and
    an optional throttle [%N], is the sum of the counts of its items, the
    throttle left aside, when no number in it has more digits than [int]
    converts: 1 for an index; for a range, 1 when [end < start] and
    otherwise [floor((end - start) / step) + 1], with a step that is not
    positive taken as 1. When some number has more digits, the count is 1.
    An absent or empty specification counts 1. ["0-99%10"] counts 100 and
    ["1,4-8,10-20:5%2"] counts 9. *)
Theorem C7_array_count_is_sum_of_items :
  (forall items,
     items <> [] -> Forall item_ok items ->
     parse_array_count (Some (join "," (render_item <$> items)))
     = if forallb item_short items then total_count items else 1)
  /\ (forall a b st,
        item_count (Span a b st)
        = let step := match st with Some s => signed_dec s | None => 1 end in
          let step := if step <=? 0 then 1 else step in
          if dec b <? dec a then 1 else (dec b - dec a) / step + 1)
  /\ (forall n, item_count (Index n) = 1)
  /\ parse_array_count (Some EmptyString) = 1
  /\ parse_array_count None = 1
  /\ parse_array_count (Some "0-99%10") = 100
  /\ parse_array_count (Some "1,4-8,10-20:5%2") = 9.
Proof.
  split; [exact parse_array_count_items|].
  repeat split; vm_compute; reflexivity.
Qed.

Ltac digits_ok := split; [discriminate | reflexivity].

(** The second example of C7 as a list of items. *)
Lemma C7_witness_mixed :
  let items := [ (Index "1", None); (Span "4" "8" None, None);
                 (Span "10" "20" (Some "5"), Some "2") ] in
  Forall item_ok items
  /\ forallb item_short items = true
  /\ join "," (render_item <$> items) = "1,4-8,10-20:5%2"
  /\ total_count items = 9
  /\ parse_array_count (Some "1,4-8,10-20:5%2") = 9.
Proof.
  intros items.
  assert (Hok : Forall item_ok items).
  { apply List.Forall_cons; [split; [digits_ok | exact I]|].
    apply List.Forall_cons;
      [split; [split; [digits_ok | split; [digits_ok | exact I]] | exact I]|].
    apply List.Forall_cons; [|apply List.Forall_nil].
    split; [split; [digits_ok | split; [digits_ok | left; digits_ok]] | digits_ok]. }
  split; [exact Hok|]. split; [vm_compute; reflexivity|].
  split; [reflexivity|]. split; [reflexivity|].
  destruct C7_array_count_is_sum_of_items as (H & _).
  etransitivity; [exact (H items ltac:(discriminate) Hok)|].
  vm_compute. reflexivity.
Defined.

(** C7 as the claim has it fails for a number of more digits than [int]
    converts: the range from 0 to 9, the 9 written after 4300 zeros, has ten
    tasks by the rule of the claim and counts 1. *)
Lemma C7_counterexample_long_number :
  let stop := zeros 4300 +:+ "9" in
  parse_array_count (Some ("0-" +:+ stop)) = 1
  /\ item_ok (Span "0" stop None, None)
  /\ render_item (Span "0" stop None, None) = "0-" +:+ stop
  /\ item_count (Span "0" stop None) = 10.
Proof.
  intros stop. split; [vm_compute; reflexivity|].
  split; [|split; vm_compute; reflexivity].
  split; [|exact I]. split; [digits_ok|]. split; [|exact I].
  split; [discriminate | vm_compute; reflexivity].
Qed.

(** ** Claim on the cost model *)

(** The three queues with their factors, and the projections of the
    per-queue dictionaries. *)
Inductive queue : Type := Normal | Bigmem | Hugemem.

Definition factor (q : queue) : float :=
  match q with
  | Normal => float_lit 2577031 7
  | Bigmem => float_lit 1104972 7
  | Hugemem => float_lit 1059603 8
  end.

Definition at_queue (d : per_queue) (q : queue) : float :=
  match q with
  | Normal => normal d
  | Bigmem => bigmem d
  | Hugemem => hugemem d
  end.

(** ** Signs of floats *)

(** A zero or a positive finite float. *)
Definition fin_nonneg (x : float) : Prop :=
  match x with
  | S754_zero _ => True
  | S754_finite false _ _ => True
  | _ => False
  end.

(** A float that is not below zero: zero, positive, or plus infinity. *)
Definition nonneg (x : float) : Prop :=
  fin_nonneg x \/ x = S754_infinity false.

Definition fzero : float := S754_zero false.

Lemma nonneg_fle x : nonneg x -> fle fzero x = true.
Proof.
  intros [H | ->]; [|reflexivity]. destruct x as [s|s| |[] m e]; try contradiction; reflexivity.
Qed.

(** The outcome of a rounding with sign [sx]. *)
Definition signed_as (sx : bool) (x : float) : Prop :=
  match x with
  | S754_zero s | S754_infinity s | S754_finite s _ _ => s = sx
  | S754_nan => False
  end.

Lemma shr_1_nonneg mrs : 0 <= shr_m mrs -> 0 <= shr_m (shr_1 mrs).
Proof.
  destruct mrs as [m r s]. cbn [shr_m]. intros H.
  destruct m as [|[p|p|]|p]; cbn; lia.
Qed.

Lemma iter_pos_shr_1_nonneg p : forall mrs,
  0 <= shr_m mrs -> 0 <= shr_m (SpecFloat.iter_pos shr_1 p mrs).
Proof.
  induction p as [p IH|p IH|]; intros mrs H; cbn [SpecFloat.iter_pos].
  - apply IH, IH, shr_1_nonneg, H.
  - apply IH, IH, H.
  - apply shr_1_nonneg, H.
Qed.

Lemma shr_fexp_nonneg m e l :
  0 <= m -> 0 <= shr_m (fst (shr_fexp prec emax m e l)).
Proof.
  intros H. unfold shr_fexp, shr.
  assert (H0 : 0 <= shr_m (shr_record_of_loc m l)) by (destruct l as [|[]]; exact H).
  destruct (fexp prec emax (Zdigits2 m + e) - e) as [|p|p]; cbn [fst]; try exact H0.
  apply iter_pos_shr_1_nonneg, H0.
Qed.

Lemma round_nearest_even_nonneg m l : 0 <= m -> 0 <= round_nearest_even m l.
Proof.
  intros H. destruct l as [|[]]; cbn; try lia. destruct (Z.even m); lia.
Qed.

(** Rounding a mantissa that is not negative gives a zero, a finite float or
    an infinity of the sign it was given, never a NaN. *)
Lemma binary_round_aux_sign sx mx ex lx :
  0 <= mx -> signed_as sx (binary_round_aux prec emax sx mx ex lx).
Proof.
  intros H. unfold binary_round_aux.
  pose proof (shr_fexp_nonneg mx ex lx H) as H1.
  destruct (shr_fexp prec emax mx ex lx) as [mrs' e']. cbn [fst] in H1.
  pose proof (shr_fexp_nonneg _ e' loc_Exact
                (round_nearest_even_nonneg _ (loc_of_shr_record mrs') H1)) as H2.
  destruct (shr_fexp prec emax _ e' loc_Exact) as [mrs'' e'']. cbn [fst] in H2.
  destruct (shr_m mrs'') as [|m|m]; [reflexivity | | lia].
  destruct (e'' <=? emax - prec); reflexivity.
Qed.

Lemma binary_round_sign sx mx ex : signed_as sx (binary_round prec emax sx mx ex).
Proof.
  unfold binary_round. destruct (shl_align mx ex _) as [mz ez].
  apply binary_round_aux_sign. lia.
Qed.

Lemma signed_as_nonneg x : signed_as false x -> nonneg x.
Proof.
  destruct x as [s|s| |s m e]; cbn; intros H; try contradiction; subst;
    [left; exact I | right; reflexivity | left; exact I].
Qed.

Lemma nonneg_not_infinite x : nonneg x -> is_infinite x = false -> fin_nonneg x.
Proof. intros [H | ->]; [auto | discriminate]. Qed.

Lemma float_of_Z_nonneg n : 0 <= n -> nonneg (float_of_Z n).
Proof.
  intros H. unfold float_of_Z, binary_normalize. destruct n as [|p|p]; [left; exact I | | lia].
  apply signed_as_nonneg, binary_round_sign.
Qed.

Lemma float_of_int_nonneg n x :
  0 <= n -> float_of_int n = Return x -> fin_nonneg x.
Proof.
  intros H. unfold float_of_int. destruct (is_infinite (float_of_Z n)) eqn:E; [discriminate|].
  intros Hx. apply Return_inj in Hx. subst x.
  apply nonneg_not_infinite; [apply float_of_Z_nonneg, H | exact E].
Qed.

Lemma div_core_nonneg m1 e1 m2 e2 :
  0 <= fst (fst (SFdiv_core_binary prec emax (Zpos m1) e1 (Zpos m2) e2)).
Proof.
  unfold SFdiv_core_binary.
  set (s := _ - _ - _).
  set (m' := match s with Z0 => _ | Zpos _ => _ | Zneg _ => _ end).
  assert (Hm : 0 <= m').
  { unfold m'. destruct s; [lia | | lia]. rewrite Z.shiftl_mul_pow2 by lia.
    apply Z.mul_nonneg_nonneg; [lia|]. apply Z.pow_nonneg. lia. }
  pose proof (Z_div_mod m' (Zpos m2) ltac:(lia)) as Hd.
  destruct (Z.div_eucl m' (Zpos m2)) as [q r]. cbn [fst]. nia.
Qed.

(** A quotient of a float that is not negative by a positive one. *)
Lemma fdiv_nonneg x my ey :
  fin_nonneg x -> nonneg (fdiv x (S754_finite false my ey)).
Proof.
  destruct x as [s|s| |[] mx ex]; cbn [fin_nonneg]; intros H; try contradiction.
  - left. exact I.
  - unfold fdiv, SFdiv. pose proof (div_core_nonneg mx ex my ey) as Hq.
    destruct (SFdiv_core_binary prec emax (Zpos mx) ex (Zpos my) ey) as [[mz ez] lz].
    cbn [fst] in Hq. apply signed_as_nonneg. apply (binary_round_aux_sign _ _ _ _ Hq).
Qed.

Lemma fadd_nonneg x y : nonneg x -> nonneg y -> nonneg (fadd x y).
Proof.
  intros [Hx | ->] [Hy | ->].
  - destruct x as [sx|sx| |[] mx ex]; try contradiction;
      destruct y as [sy|sy| |[] my ey]; try contradiction;
      try (left; exact I).
    + destruct sx, sy; left; exact I.
    + unfold fadd, SFadd. apply signed_as_nonneg.
      cbn [cond_Zopp]. unfold binary_normalize.
      set (a := fst (shl_align mx ex _)). set (b := fst (shl_align my ey _)).
      change (Zpos a + Zpos b) with (Zpos (a + b)).
      apply binary_round_sign.
  - destruct x as [sx|sx| |[] mx ex]; try contradiction; right; reflexivity.
  - destruct y as [sy|sy| |[] my ey]; try contradiction; right; reflexivity.
  - right. reflexivity.
Qed.

Lemma fmul_nonneg x y : fin_nonneg x -> fin_nonneg y -> nonneg (fmul x y).
Proof.
  destruct x as [sx|sx| |[] mx ex]; try contradiction;
    destruct y as [sy|sy| |[] my ey]; try contradiction; intros _ _;
    try (left; exact I).
  unfold fmul, SFmul. apply signed_as_nonneg.
  apply binary_round_aux_sign. lia.
Qed.

Lemma div_nearest_nonneg a b : 0 <= a -> 0 < b -> nonneg (div_nearest a b).
Proof.
  intros Ha Hb. unfold div_nearest.
  destruct a as [|a|a]; [left; exact I | | lia].
  destruct b as [|b|b]; [lia | | lia].
  apply fdiv_nonneg. exact I.
Qed.

Lemma int_truediv_nonneg a b q :
  0 <= a -> 0 < b -> int_truediv a b = Return q -> fin_nonneg q.
Proof.
  intros Ha Hb. unfold int_truediv.
  destruct (b =? 0); [discriminate|].
  destruct (is_infinite (div_nearest a b)) eqn:E; [discriminate|].
  intros H. apply Return_inj in H. subst q.
  apply nonneg_not_infinite; [apply div_nearest_nonneg; assumption | exact E].
Qed.

Lemma round_half_even_nonneg num den : 0 <= num -> 0 < den -> 0 <= round_half_even num den.
Proof.
  intros Hn Hd. unfold round_half_even.
  assert (0 <= num / den) by (apply Z.div_pos; lia).
  destruct (_ ?= _); [destruct (Z.even _)| |]; lia.
Qed.

Lemma round_nonneg x g : fin_nonneg x -> round_ x 4 = Return g -> fin_nonneg g.
Proof.
  destruct x as [s|s| |[] m e]; cbn [fin_nonneg]; intros H; try contradiction.
  - intros Hg. apply Return_inj in Hg. subst g. exact I.
  - unfold round_.
    set (n := round_half_even _ _).
    assert (Hn : 0 <= n).
    { apply round_half_even_nonneg.
      - apply Z.mul_nonneg_nonneg; [apply Z.mul_nonneg_nonneg; [lia|]|];
          apply Z.pow_nonneg; lia.
      - apply Z.pow_pos_nonneg; lia. }
    destruct (n =? 0); [intros Hg; apply Return_inj in Hg; subst g; exact I|].
    destruct (is_infinite (div_nearest n (10 ^ 4))) eqn:E; [discriminate|].
    intros Hg. apply Return_inj in Hg. subst g.
    apply nonneg_not_infinite; [|exact E].
    apply div_nearest_nonneg; [exact Hn | reflexivity].
Qed.

(** ** What the parsers can return *)

Lemma int_digits_nonneg s : forall acc b z,
  int_digits s acc b = Some z -> 0 <= acc -> 0 <= z.
Proof.
  induction s as [|c s IH]; simpl; intros acc b z H Hacc.
  - destruct b; [injection H as <-; exact Hacc | discriminate].
  - destruct (isdigit c) eqn:Hc.
    + apply IH in H; [exact H|]. apply digit_classes in Hc. lia.
    + destruct (Ascii.eqb c "_"); [|discriminate].
      destruct b; [|discriminate]. apply IH in H; assumption.
Qed.

Lemma rstrip_by_keeps_head sp a w :
  sp a = false -> exists r, rstrip_by sp (String a w) = String a r.
Proof.
  intros Ha. simpl. destruct (rstrip_by sp w); [rewrite Ha|]; eauto.
Qed.

(** [int] of a text that starts with a digit is not negative. *)
Lemma py_int_nonneg w z :
  starts_with isdigit w = true -> py_int w = Some z -> 0 <= z.
Proof.
  destruct w as [|a w]; [discriminate|]. simpl. intros Ha.
  pose proof (digit_classes a Ha) as (_ & Hsp & _).
  intros H. apply py_int_literal in H. revert H.
  unfold int_literal. rewrite lstrip_by_id by exact Hsp.
  destruct (rstrip_by_keeps_head int_isspace a w Hsp) as [r ->].
  destruct (digit_not a "+" Ha eq_refl) as [-> _].
  destruct (digit_not a "-" Ha eq_refl) as [-> _].
  intros H. eapply int_digits_nonneg; [exact H | lia].
Qed.

(** A pattern without capturing groups. *)
Fixpoint groupless (r : regex) : bool :=
  match r with
  | Seq r1 r2 | Alt r1 r2 => groupless r1 && groupless r2
  | Group _ _ => false
  | _ => true
  end.

Lemma span_groupless r : forall st st',
  groupless r = true -> span r st st' -> caps st' = caps st.
Proof.
  induction r as [|p|r1 IH1 r2 IH2|r1 IH1 r2 IH2|p lo hi|n r1 IH1|r1 IH1| |];
    intros st st' Hg H; cbn [span groupless] in *.
  - subst. reflexivity.
  - destruct H as (c & _ & _ & _ & H). exact H.
  - apply andb_prop in Hg as [H1 H2]. destruct H as (m & Ha & Hb).
    rewrite (IH2 _ _ H2 Hb). apply (IH1 _ _ H1 Ha).
  - apply andb_prop in Hg as [H1 H2]. destruct H as [H | H]; auto.
  - destruct H as (w & _ & _ & _ & _ & H). exact H.
  - discriminate.
  - destruct H as [-> _]. reflexivity.
  - destruct H as [-> _]. reflexivity.
  - destruct H as [-> _]. reflexivity.
Qed.

(** A match reads a prefix of the text. *)
Lemma span_rest r : forall st st',
  span r st st' -> exists x, rest st = x +:+ rest st'.
Proof.
  induction r as [|p|r1 IH1 r2 IH2|r1 IH1 r2 IH2|p lo hi|n r1 IH1|r1 IH1| |];
    intros st st' H; cbn [span] in H.
  - subst. exists EmptyString. reflexivity.
  - destruct H as (c & H & _). exists (String c EmptyString). exact H.
  - destruct H as (m & Ha & Hb).
    apply IH1 in Ha as [x Hx]. apply IH2 in Hb as [y Hy].
    exists (x +:+ y). rewrite Hx, Hy, append_assoc. reflexivity.
  - destruct H as [H | H]; auto.
  - destruct H as (w & H & _). exists w. exact H.
  - destruct H as (m & Ha & ->). apply IH1 in Ha. exact Ha.
  - destruct H as [-> _]. exists EmptyString. reflexivity.
  - destruct H as [-> _]. exists EmptyString. reflexivity.
  - destruct H as [-> _]. exists EmptyString. reflexivity.
Qed.

Lemma lit_groupless s : groupless (Lit s) = true.
Proof. induction s; [reflexivity | exact IHs]. Qed.

(** A group that begins with at least one digit captures a text that starts
    with a digit. *)
Lemma span_digit_group n lo hi tail st m :
  groupless tail = true ->
  span (Group n (Rep isdigit (S lo) hi >>> tail)) st m ->
  exists w, caps m = (n, w) :: caps st /\ starts_with isdigit w = true.
Proof.
  intros Hg (m0 & (m1 & (w & Hr & Hw & Hl & _ & Hc) & Ht) & ->).
  cbn [caps rest]. destruct (span_rest _ _ _ Ht) as [x Hx].
  apply (span_groupless _ _ _ Hg) in Ht.
  exists (w +:+ x). split.
  - rewrite Ht, Hc, Hr, Hx, <- append_assoc, consumed_app. reflexivity.
  - destruct w as [|a w]; [simpl in Hl; lia|]. simpl in Hw |- *.
    apply andb_prop in Hw. tauto.
Qed.

Lemma span_digit_group' n lo hi st m :
  span (Group n (Rep isdigit (S lo) hi)) st m ->
  exists w, caps m = (n, w) :: caps st /\ starts_with isdigit w = true.
Proof.
  intros (m0 & H & ->). apply (span_digit_group n lo hi Eps st); [reflexivity|].
  exists m0. split; [|reflexivity]. exists m0. split; [exact H | reflexivity].
Qed.

Lemma fullmatch_span r s g :
  fullmatch r s = Some g ->
  exists st', span r (State None s []) st' /\ rest st' = EmptyString /\ caps st' = g.
Proof.
  unfold fullmatch. intros H. apply mt_sound in H as (st' & Hs & Hk).
  exists st'. destruct (rest st'); [|discriminate]. injection Hk as <-. auto.
Qed.

Ltac span_lit H :=
  apply (span_groupless _ _ _ (lit_groupless _)) in H.

Lemma time_dhhmmss_groups s g :
  fullmatch TIME_DHHMMSS s = Some g ->
  exists w1 w2 w3 w4,
    g = [(4%nat, w4); (3%nat, w3); (2%nat, w2); (1%nat, w1)]
    /\ starts_with isdigit w1 = true /\ starts_with isdigit w2 = true
    /\ starts_with isdigit w3 = true /\ starts_with isdigit w4 = true.
Proof.
  intros H. apply fullmatch_span in H as (st' & H & _ & <-).
  unfold TIME_DHHMMSS, digits12, Plus in H. cbn [span] in H.
  destruct H as (a1 & G1 & a2 & L1 & a3 & G2 & a4 & L2 & a5 & G3 & a6 & L3 & G4).
  fold (span (Lit "-")) in L1. fold (span (Lit ":")) in L2, L3.
  apply (span_digit_group' _ _ None) in G1 as (w1 & C1 & D1).
  apply (span_digit_group' _ _ None) in G2 as (w2 & C2 & D2).
  apply (span_digit_group' _ _ None) in G3 as (w3 & C3 & D3).
  apply (span_digit_group' _ _ None) in G4 as (w4 & C4 & D4).
  span_lit L1. span_lit L2. span_lit L3.
  exists w1, w2, w3, w4. cbn [caps] in C1.
  rewrite C4, L3, C3, L2, C2, L1, C1.
  repeat (split; [first [reflexivity | assumption]|]); assumption.
Qed.

Lemma time_hhmmss_groups s g :
  fullmatch TIME_HHMMSS s = Some g ->
  exists w1 w2 w3,
    g = [(3%nat, w3); (2%nat, w2); (1%nat, w1)]
    /\ starts_with isdigit w1 = true /\ starts_with isdigit w2 = true
    /\ starts_with isdigit w3 = true.
Proof.
  intros H. apply fullmatch_span in H as (st' & H & _ & <-).
  unfold TIME_HHMMSS, digits12, Plus in H. cbn [span] in H.
  destruct H as (a1 & G1 & a2 & L1 & a3 & G2 & a4 & L2 & G3).
  fold (span (Lit ":")) in L1, L2.
  apply (span_digit_group' _ _ None) in G1 as (w1 & C1 & D1).
  apply (span_digit_group' _ _ None) in G2 as (w2 & C2 & D2).
  apply (span_digit_group' _ _ None) in G3 as (w3 & C3 & D3).
  span_lit L1. span_lit L2.
  exists w1, w2, w3. cbn [caps] in C1.
  rewrite C3, L2, C2, L1, C1.
  repeat (split; [first [reflexivity | assumption]|]); assumption.
Qed.

Lemma time_mmss_groups s g :
  fullmatch TIME_MMSS s = Some g ->
  exists w1 w2,
    g = [(2%nat, w2); (1%nat, w1)]
    /\ starts_with isdigit w1 = true /\ starts_with isdigit w2 = true.
Proof.
  intros H. apply fullmatch_span in H as (st' & H & _ & <-).
  unfold TIME_MMSS, digits12, Plus in H. cbn [span] in H.
  destruct H as (a1 & G1 & a2 & L1 & G2).
  fold (span (Lit ":")) in L1.
  apply (span_digit_group' _ _ None) in G1 as (w1 & C1 & D1).
  apply (span_digit_group' _ _ None) in G2 as (w2 & C2 & D2).
  span_lit L1.
  exists w1, w2. cbn [caps] in C1.
  rewrite C2, L1, C1.
  repeat (split; [first [reflexivity | assumption]|]); assumption.
Qed.

Lemma time_mm_digits s g :
  fullmatch TIME_MM s = Some g -> starts_with isdigit s = true.
Proof.
  intros H. apply fullmatch_span in H as (st' & H & Hr & _).
  destruct H as (w & Hs & Hw & Hl & _). cbn [rest] in Hs. rewrite Hs.
  destruct w as [|a w]; [simpl in Hl; lia|]. simpl in Hw |- *.
  apply andb_prop in Hw. tauto.
Qed.

Lemma mem_pattern_groups s g :
  fullmatch MEM_PATTERN s = Some g ->
  exists w u, g = [(2%nat, u); (1%nat, w)] /\ starts_with isdigit w = true.
Proof.
  intros H. apply fullmatch_span in H as (st' & H & _ & <-).
  unfold MEM_PATTERN in H.
  destruct H as (a1 & S1 & a2 & G1 & a3 & S2 & a4 & G2 & S3).
  apply (span_groupless (Star isspace)) in S1; [|reflexivity].
  apply (span_groupless (Star isspace)) in S2; [|reflexivity].
  apply (span_groupless (Star isspace)) in S3; [|reflexivity].
  apply (span_digit_group _ _ None) in G1 as (w & C1 & D1); [|reflexivity].
  destruct G2 as (m0 & G2 & ->).
  apply span_groupless in G2; [|reflexivity].
  cbn [caps] in *. rewrite S3, G2, S2, C1, S1.
  eexists w, _. split; [reflexivity | exact D1].
Qed.

Lemma int_opt_nonneg w z :
  starts_with isdigit w = true -> int_opt (Some w) = Return z -> 0 <= z.
Proof.
  intros Hw. unfold int_opt, int_. destruct (py_int w) as [n|] eqn:E; [|discriminate].
  intros H. apply Return_inj in H. subst n. eapply py_int_nonneg; eassumption.
Qed.

Lemma f60_positive : f60 = S754_finite false 8444249301319680 (-47).
Proof. vm_compute. reflexivity. Qed.

Lemma f3600_positive : f3600 = S754_finite false 7916483719987200 (-41).
Proof. vm_compute. reflexivity. Qed.

Lemma int_div_float_nonneg z m e x :
  0 <= z -> int_div_float z (S754_finite false m e) = Return x -> nonneg x.
Proof.
  intros Hz. unfold int_div_float.
  destruct (float_of_int z) as [nf|] eqn:E; [|discriminate]. cbn [bind].
  intros H. apply Return_inj in H. subst x.
  apply fdiv_nonneg. eapply float_of_int_nonneg; eassumption.
Qed.

Lemma int_add_float_nonneg z x y :
  0 <= z -> nonneg x -> int_add_float z x = Return y -> nonneg y.
Proof.
  intros Hz Hx. unfold int_add_float.
  destruct (float_of_int z) as [nf|] eqn:E; [|discriminate]. cbn [bind].
  intros H. apply Return_inj in H. subst y.
  apply fadd_nonneg; [|exact Hx]. left. eapply float_of_int_nonneg; eassumption.
Qed.

Lemma float_mul_int_nonneg x n y :
  fin_nonneg x -> 0 <= n -> float_mul_int x n = Return y -> nonneg y.
Proof.
  intros Hx Hn. unfold float_mul_int.
  destruct (float_of_int n) as [nf|] eqn:E; [|discriminate]. cbn [bind].
  intros H. apply Return_inj in H. subst y.
  apply fmul_nonneg; [exact Hx|]. eapply float_of_int_nonneg; eassumption.
Qed.

Ltac bind_inv H :=
  match type of H with
  | bind ?m _ = Return _ =>
      let E := fresh "E" in
      destruct m eqn:E; [cbn [bind] in H | discriminate H]
  end.

Lemma Some_inj {A} (a b : A) : Some a = Some b -> a = b.
Proof. intros H. injection H as H. exact H. Qed.

(** The hours the time parser returns are never negative. *)
Lemma parse_time_nonneg o h :
  parse_time_to_hours o = Return (Some h) -> nonneg h.
Proof.
  unfold parse_time_to_hours. destruct o as [t|]; [|discriminate].
  destruct (negb (truthy (Some t))); [discriminate|].
  rewrite f60_positive, f3600_positive.
  destruct (fullmatch TIME_DHHMMSS (strip t)) as [g|] eqn:M1.
  { apply time_dhhmmss_groups in M1 as (w1 & w2 & w3 & w4 & -> & D1 & D2 & D3 & D4).
    cbn [group Nat.eqb]. intros H. do 7 bind_inv H.
    apply Return_inj, Some_inj in H. subst h.
    apply (int_opt_nonneg _ _ D1) in E. apply (int_opt_nonneg _ _ D2) in E0.
    apply (int_opt_nonneg _ _ D3) in E1. apply (int_opt_nonneg _ _ D4) in E2.
    apply int_div_float_nonneg in E3; [|exact E1].
    apply int_add_float_nonneg in E4; [|lia|exact E3].
    apply int_div_float_nonneg in E5; [|exact E2].
    apply fadd_nonneg; assumption. }
  destruct (fullmatch TIME_HHMMSS (strip t)) as [g|] eqn:M2.
  { apply time_hhmmss_groups in M2 as (w1 & w2 & w3 & -> & D1 & D2 & D3).
    cbn [group Nat.eqb]. intros H. do 6 bind_inv H.
    apply Return_inj, Some_inj in H. subst h.
    apply (int_opt_nonneg _ _ D1) in E. apply (int_opt_nonneg _ _ D2) in E0.
    apply (int_opt_nonneg _ _ D3) in E1.
    apply int_div_float_nonneg in E2; [|exact E0].
    apply int_add_float_nonneg in E3; [|exact E|exact E2].
    apply int_div_float_nonneg in E4; [|exact E1].
    apply fadd_nonneg; assumption. }
  destruct (fullmatch TIME_MMSS (strip t)) as [g|] eqn:M3.
  { apply time_mmss_groups in M3 as (w1 & w2 & -> & D1 & D2).
    cbn [group Nat.eqb]. intros H. do 4 bind_inv H.
    apply Return_inj, Some_inj in H. subst h.
    apply (int_opt_nonneg _ _ D1) in E. apply (int_opt_nonneg _ _ D2) in E0.
    apply int_div_float_nonneg in E1; [|exact E].
    apply int_div_float_nonneg in E2; [|exact E0].
    apply fadd_nonneg; assumption. }
  destruct (fullmatch TIME_MM (strip t)) as [g|] eqn:M4; [|discriminate].
  apply time_mm_digits in M4. intros H. do 2 bind_inv H.
  apply Return_inj, Some_inj in H. subst h.
  apply (int_opt_nonneg _ _ M4) in E.
  apply int_div_float_nonneg in E0; [exact E0 | exact E].
Qed.

Lemma mem_branch_nonneg amount k g :
  0 <= amount -> 0 <= k -> mem_branch amount k = Return (Some g) -> fin_nonneg g.
Proof.
  intros Ha Hk. unfold mem_branch. intros H. do 2 bind_inv H.
  apply Return_inj, Some_inj in H. subst g.
  apply int_truediv_nonneg in E.
  - eapply round_nonneg; eassumption.
  - apply Z.mul_nonneg_nonneg; [exact Ha|]. apply Z.pow_nonneg. unfold BYTES_IN_KILOBYTE. lia.
  - reflexivity.
Qed.

(** The memory the memory parser returns is finite and never negative. *)
Lemma parse_mem_nonneg o g :
  parse_mem_to_gigabytes o = Return (Some g) -> fin_nonneg g.
Proof.
  unfold parse_mem_to_gigabytes. destruct o as [t|]; [|discriminate].
  destruct (negb (truthy (Some t))); [discriminate|].
  destruct (fullmatch MEM_PATTERN (strip t)) as [c|] eqn:M; [|discriminate].
  apply mem_pattern_groups in M as (w & u & -> & D).
  cbn [group Nat.eqb]. intros H. bind_inv H.
  apply (int_opt_nonneg _ _ D) in E.
  repeat match type of H with
         | (if ?b then _ else _) = _ =>
             destruct b; [apply mem_branch_nonneg in H; [exact H | exact E | lia]|]
         end.
  discriminate.
Qed.

Lemma parse_array_count_pos o : 1 <= parse_array_count o.
Proof.
  unfold parse_array_count. destruct o as [t|]; [|lia].
  destruct (negb (truthy (Some t))); [lia|].
  destruct (array_loop _ 0) as [n|]; [|lia].
  destruct (0 <? n) eqn:E; [apply Z.ltb_lt in E|]; lia.
Qed.

(** ** Claims on normalization *)

(** The CPU-layout directives that are integers are all at least 1. *)
Definition layout_positive (slurmargs : gmap string string) : Prop :=
  forall key z,
    In key ["ntasks"; "tasks-per-node"; "nodes"; "cpus-per-task"] ->
    parse_argument_to_int (slurmargs !! key) = Some z -> 1 <= z.

Lemma resolve_cpus_positive slurmargs :
  layout_positive slurmargs ->
  1 <= resolve_ntasks slurmargs * resolve_cpus_per_task slurmargs.
Proof.
  intros H.
  assert (H1 : 1 <= resolve_ntasks slurmargs).
  { unfold resolve_ntasks.
    destruct (parse_argument_to_int (slurmargs !! "ntasks")) as [n|] eqn:En.
    - apply (H "ntasks"); [simpl; auto | exact En].
    - destruct (parse_argument_to_int (slurmargs !! "tasks-per-node")) as [t|] eqn:Et; [|lia].
      destruct (parse_argument_to_int (slurmargs !! "nodes")) as [k|] eqn:Ek; [|lia].
      pose proof (H "tasks-per-node" t ltac:(simpl; auto) Et).
      pose proof (H "nodes" k ltac:(simpl; auto) Ek). nia. }
  assert (H2 : 1 <= resolve_cpus_per_task slurmargs).
  { unfold resolve_cpus_per_task.
    destruct (parse_argument_to_int (slurmargs !! "cpus-per-task")) as [c|] eqn:Ec; [|lia].
    apply (H "cpus-per-task"); [simpl; auto | exact Ec]. }
  nia.
Qed.

(** C4, as amended. A record that normalization returns has
    [array_count >= 1] and [hours >= 0]; it has [cpus >= 1] when the
    CPU-layout directives that are integers are all at least 1, and
    [memory_gb >= 0] when [cpus >= 0]. *)
Theorem C4_record_bounds (slurmargs : gmap string string) (r : resources) :
  parse_slurmargs slurmargs = Return r ->
  1 <= array_count r
  /\ fle fzero (hours r) = true
  /\ (layout_positive slurmargs -> 1 <= cpus r)
  /\ (0 <= cpus r -> fle fzero (memory_gb r) = true).
Proof.
  intros H. pose proof (parse_slurmargs_cpus _ _ H) as Hcpus.
  unfold parse_slurmargs in H.
  destruct (parse_time_to_hours (slurmargs !! "time")) as [[h|]|] eqn:Et;
    try discriminate H. cbn [bind] in H.
  apply parse_time_nonneg in Et.
  destruct (parse_mem_to_gigabytes (slurmargs !! "mem")) as [[g|]|] eqn:Em;
    try discriminate H; cbn [bind] in H.
  - apply Return_inj in H. subst r. cbn [array_count hours cpus memory_gb] in *.
    split; [apply parse_array_count_pos|]. split; [apply nonneg_fle, Et|].
    split; [intros Hl; apply resolve_cpus_positive, Hl|].
    intros _. apply nonneg_fle. left. eapply parse_mem_nonneg, Em.
  - destruct (parse_mem_to_gigabytes (slurmargs !! "mem-per-cpu")) as [[g|]|] eqn:Ec;
      try discriminate H; cbn [bind] in H.
    destruct (float_mul_int g _) as [mg|] eqn:Ef; [|discriminate H]. cbn [bind] in H.
    apply Return_inj in H. subst r. cbn [array_count hours cpus memory_gb] in *.
    split; [apply parse_array_count_pos|]. split; [apply nonneg_fle, Et|].
    split; [intros Hl; apply resolve_cpus_positive, Hl|].
    intros Hc. apply nonneg_fle.
    eapply float_mul_int_nonneg; [eapply parse_mem_nonneg, Ec | exact Hc | exact Ef].
Qed.

(** C4 at a header with one hour and 4 GiB. *)
Lemma C4_witness_plain :
  let slurmargs : gmap string string := {[ "time" := "1:00:00"; "mem" := "4G" ]} in
  let r := Resources (float_of_Z 1) 1 (float_of_Z 4) 1 in
  parse_slurmargs slurmargs = Return r
  /\ 1 <= array_count r
  /\ fle fzero (hours r) = true
  /\ (layout_positive slurmargs -> 1 <= cpus r)
  /\ (0 <= cpus r -> fle fzero (memory_gb r) = true).
Proof.
  intros d r.
  assert (H : parse_slurmargs d = Return r) by (vm_compute; reflexivity).
  split; [exact H|]. exact (C4_record_bounds d r H).
Defined.

(** C4 as the claim has it fails: the time ["0"], two tasks less than
    none and 1 GiB for each CPU give a record with [hours = 0],
    [cpus = -2] and [memory_gb = -2]. *)
Lemma C4_counterexample_zero_time_negative_tasks :
  let slurmargs : gmap string string :=
    {[ "time" := "0"; "ntasks" := "-2"; "mem-per-cpu" := "1G" ]} in
  exists r,
    parse_slurmargs slurmargs = Return r
    /\ flt fzero (hours r) = false
    /\ (1 <=? cpus r) = false
    /\ fle fzero (memory_gb r) = false
    /\ r = Resources fzero (-2) (S754_finite true 4503599627370496 (-51)) 1.
Proof.
  intros d. eexists. split; [vm_compute; reflexivity|].
  repeat split.
Qed.

(** An exception that is neither of the two [parse_slurmargs] raises
    itself. *)
Definition escaped (e : exn) : Prop :=
  e <> time_unspecified /\ e <> memory_unspecified.

Lemma Raise_inj {A} (e e' : exn) : @Raise A e = Raise e' -> e = e'.
Proof. intros H. injection H as H. exact H. Qed.

Lemma int_error_escaped s : escaped (int_error s).
Proof.
  unfold int_error. destruct (too_many_digits s);
    split; intros H; injection H as H; simpl in H; discriminate.
Qed.

Lemma int_escaped s e : int_ s = Raise e -> escaped e.
Proof.
  unfold int_. destruct (py_int s); [discriminate|].
  intros H. apply Raise_inj in H. subst e. apply int_error_escaped.
Qed.

Lemma int_opt_escaped o e : int_opt o = Raise e -> escaped e.
Proof.
  destruct o as [s|]; cbn [int_opt]; [apply int_escaped|].
  intros H. apply Raise_inj in H. subst e. split; discriminate.
Qed.

Lemma float_of_int_escaped n e : float_of_int n = Raise e -> escaped e.
Proof.
  unfold float_of_int. destruct (is_infinite _); [|discriminate].
  intros H. apply Raise_inj in H. subst e. split; discriminate.
Qed.

Lemma int_div_float_escaped n x e : int_div_float n x = Raise e -> escaped e.
Proof.
  unfold int_div_float. destruct (float_of_int n) eqn:E; cbn [bind].
  - destruct x; try discriminate. intros H. apply Raise_inj in H. subst e. split; discriminate.
  - intros H. apply Raise_inj in H. subst e. eapply float_of_int_escaped, E.
Qed.

Lemma int_add_float_escaped n x e : int_add_float n x = Raise e -> escaped e.
Proof.
  unfold int_add_float. destruct (float_of_int n) eqn:E; cbn [bind]; [discriminate|].
  intros H. apply Raise_inj in H. subst e. eapply float_of_int_escaped, E.
Qed.

Lemma float_mul_int_escaped x n e : float_mul_int x n = Raise e -> escaped e.
Proof.
  unfold float_mul_int. destruct (float_of_int n) eqn:E; cbn [bind]; [discriminate|].
  intros H. apply Raise_inj in H. subst e. eapply float_of_int_escaped, E.
Qed.

Lemma mem_branch_escaped a k e : mem_branch a k = Raise e -> escaped e.
Proof.
  unfold mem_branch, int_truediv, round_.
  destruct (_ =? 0); cbn [bind].
  { intros H. apply Raise_inj in H. subst e. split; discriminate. }
  destruct (is_infinite _); cbn [bind].
  { intros H. apply Raise_inj in H. subst e. split; discriminate. }
  destruct (div_nearest _ _); cbn [bind]; try discriminate.
  destruct (_ =? 0); cbn [bind]; [discriminate|].
  destruct (is_infinite _); cbn [bind]; [|discriminate].
  intros H. apply Raise_inj in H. subst e. split; discriminate.
Qed.

Ltac bind_raise H :=
  match type of H with
  | bind ?m _ = Raise _ =>
      let E := fresh "E" in
      destruct m eqn:E; cbn [bind] in H;
      [ | apply Raise_inj in H; subst;
          first [ eapply int_opt_escaped; eassumption
                | eapply int_escaped; eassumption
                | eapply int_div_float_escaped; eassumption
                | eapply int_add_float_escaped; eassumption ] ]
  end.

(** What the time parser raises is not an error of [parse_slurmargs]. *)
Lemma parse_time_escaped o e : parse_time_to_hours o = Raise e -> escaped e.
Proof.
  unfold parse_time_to_hours. destruct o as [t|]; [|discriminate].
  destruct (negb (truthy (Some t))); [discriminate|].
  destruct (fullmatch TIME_DHHMMSS (strip t)) as [g|].
  { intros H. do 7 bind_raise H. discriminate. }
  destruct (fullmatch TIME_HHMMSS (strip t)) as [g|].
  { intros H. do 6 bind_raise H. discriminate. }
  destruct (fullmatch TIME_MMSS (strip t)) as [g|].
  { intros H. do 4 bind_raise H. discriminate. }
  destruct (fullmatch TIME_MM (strip t)) as [g|]; [|discriminate].
  intros H. do 2 bind_raise H. discriminate.
Qed.

Lemma parse_mem_escaped o e : parse_mem_to_gigabytes o = Raise e -> escaped e.
Proof.
  unfold parse_mem_to_gigabytes. destruct o as [t|]; [|discriminate].
  destruct (negb (truthy (Some t))); [discriminate|].
  destruct (fullmatch MEM_PATTERN (strip t)) as [c|]; [|discriminate].
  intros H. bind_raise H.
  repeat match type of H with
         | (if ?b then _ else _) = _ =>
             destruct b; [eapply mem_branch_escaped; eassumption|]
         end.
  discriminate.
Qed.

(** The array directive has no part in the success of normalization. *)
Lemma parse_slurmargs_array slurmargs v :
  parse_slurmargs (<["array" := v]> slurmargs)
  = bind (parse_slurmargs slurmargs) (fun r =>
      Return (Resources (hours r) (cpus r) (memory_gb r) (parse_array_count (Some v)))).
Proof.
  unfold parse_slurmargs, resolve_ntasks, resolve_cpus_per_task.
  rewrite !lookup_insert_ne by discriminate. rewrite lookup_insert_eq.
  destruct (parse_time_to_hours (slurmargs !! "time")) as [[h|]|]; try reflexivity.
  cbn [bind].
  destruct (parse_mem_to_gigabytes (slurmargs !! "mem")) as [[g|]|]; try reflexivity.
  cbn [bind].
  destruct (parse_mem_to_gigabytes (slurmargs !! "mem-per-cpu")) as [[g|]|]; try reflexivity.
  cbn [bind]. destruct (float_mul_int g _); reflexivity.
Qed.

(** With the memory given by [mem], the CPU-layout directives have no part
    in it either. *)
Lemma parse_slurmargs_direct_mem slurmargs g :
  parse_mem_to_gigabytes (slurmargs !! "mem") = Return (Some g) ->
  parse_slurmargs slurmargs
  = bind (parse_time_to_hours (slurmargs !! "time")) (fun h =>
      match h with
      | None => Raise time_unspecified
      | Some h =>
          Return (Resources h
                    (resolve_ntasks slurmargs * resolve_cpus_per_task slurmargs) g
                    (parse_array_count (slurmargs !! "array")))
      end).
Proof.
  intros Hm. unfold parse_slurmargs. rewrite Hm.
  destruct (parse_time_to_hours (slurmargs !! "time")) as [[h|]|]; reflexivity.
Qed.

(** X18. Normalization raises its error on the time exactly when the time
    parser returns no value, and, the time being parsed, its error on the
    memory exactly when the memory parser returns no value for [mem] and for
    [mem-per-cpu]; any other exception it raises has escaped the time
    parser, the memory parser or the conversion of the CPU count to a float.
    The array directive never decides whether it raises. A CPU-layout
    directive that is missing or malformed never does either: a malformed
    one counts as a missing one, and when all four are missing or malformed
    the CPU count is 1 and no exception comes from it; nor does any
    CPU-layout directive when [mem] gives the memory. Missing or malformed,
    these directives give [array_count = 1], [ntasks = 1] and
    [cpus_per_task = 1]. *)
Theorem normalization_raises_classified (slurmargs : gmap string string) :
  (parse_slurmargs slurmargs = Raise time_unspecified
   <-> parse_time_to_hours (slurmargs !! "time") = Return None)
  /\ (parse_slurmargs slurmargs = Raise memory_unspecified
      <-> (exists h, parse_time_to_hours (slurmargs !! "time") = Return (Some h))
          /\ parse_mem_to_gigabytes (slurmargs !! "mem") = Return None
          /\ parse_mem_to_gigabytes (slurmargs !! "mem-per-cpu") = Return None)
  /\ (forall e, parse_slurmargs slurmargs = Raise e ->
        e = time_unspecified \/ e = memory_unspecified
        \/ parse_time_to_hours (slurmargs !! "time") = Raise e
        \/ parse_mem_to_gigabytes (slurmargs !! "mem") = Raise e
        \/ parse_mem_to_gigabytes (slurmargs !! "mem-per-cpu") = Raise e
        \/ exists g, float_mul_int g (resolve_ntasks slurmargs * resolve_cpus_per_task slurmargs)
                     = Raise e)
  /\ (forall v e, parse_slurmargs (<["array" := v]> slurmargs) = Raise e
                  <-> parse_slurmargs slurmargs = Raise e)
  /\ (forall key,
        In key ["ntasks"; "tasks-per-node"; "nodes"; "cpus-per-task"] ->
        parse_argument_to_int (slurmargs !! key) = None ->
        parse_slurmargs (delete key slurmargs) = parse_slurmargs slurmargs)
  /\ ((forall key,
         In key ["ntasks"; "tasks-per-node"; "nodes"; "cpus-per-task"] ->
         parse_argument_to_int (slurmargs !! key) = None) ->
      forall e, parse_slurmargs slurmargs = Raise e ->
        e = time_unspecified \/ e = memory_unspecified
        \/ parse_time_to_hours (slurmargs !! "time") = Raise e
        \/ parse_mem_to_gigabytes (slurmargs !! "mem") = Raise e
        \/ parse_mem_to_gigabytes (slurmargs !! "mem-per-cpu") = Raise e)
  /\ (forall key v e g,
        In key ["ntasks"; "tasks-per-node"; "nodes"; "cpus-per-task"] ->
        parse_mem_to_gigabytes (slurmargs !! "mem") = Return (Some g) ->
        (parse_slurmargs (<[key := v]> slurmargs) = Raise e
         <-> parse_slurmargs slurmargs = Raise e))
  /\ (parse_argument_to_int (slurmargs !! "ntasks") = None ->
      parse_argument_to_int (slurmargs !! "tasks-per-node") = None
      \/ parse_argument_to_int (slurmargs !! "nodes") = None ->
      resolve_ntasks slurmargs = 1)
  /\ (parse_argument_to_int (slurmargs !! "cpus-per-task") = None ->
      resolve_cpus_per_task slurmargs = 1)
  /\ parse_array_count None = 1
  /\ parse_array_count (Some "abc-5") = 1
  /\ parse_argument_to_int (Some "four") = None.
Proof.
  assert (Hclass : forall e, parse_slurmargs slurmargs = Raise e ->
      (e = time_unspecified
       /\ parse_time_to_hours (slurmargs !! "time") = Return None)
      \/ (e = memory_unspecified
          /\ (exists h, parse_time_to_hours (slurmargs !! "time") = Return (Some h))
          /\ parse_mem_to_gigabytes (slurmargs !! "mem") = Return None
          /\ parse_mem_to_gigabytes (slurmargs !! "mem-per-cpu") = Return None)
      \/ (escaped e
          /\ (parse_time_to_hours (slurmargs !! "time") = Raise e
              \/ parse_mem_to_gigabytes (slurmargs !! "mem") = Raise e
              \/ parse_mem_to_gigabytes (slurmargs !! "mem-per-cpu") = Raise e
              \/ exists g, float_mul_int g (resolve_ntasks slurmargs * resolve_cpus_per_task slurmargs)
                           = Raise e))).
  { intros e H. unfold parse_slurmargs in H.
    destruct (parse_time_to_hours (slurmargs !! "time")) as [[h|]|e0] eqn:Et; cbn [bind] in H.
    - destruct (parse_mem_to_gigabytes (slurmargs !! "mem")) as [[g|]|e1] eqn:Em;
        cbn [bind] in H; [discriminate H | |].
      + destruct (parse_mem_to_gigabytes (slurmargs !! "mem-per-cpu")) as [[g|]|e2] eqn:Ec;
          cbn [bind] in H.
        * destruct (float_mul_int g _) as [mg|e3] eqn:Ef; cbn [bind] in H; [discriminate H|].
          apply Raise_inj in H. subst e3. right. right.
          split; [eapply float_mul_int_escaped, Ef|]. do 3 right. exists g. exact Ef.
        * apply Raise_inj in H. subst e. right. left. eauto.
        * apply Raise_inj in H. subst e2. right. right.
          split; [eapply parse_mem_escaped, Ec | auto].
      + apply Raise_inj in H. subst e1. right. right.
        split; [eapply parse_mem_escaped, Em | auto].
    - apply Raise_inj in H. subst e. left. auto.
    - apply Raise_inj in H. subst e0. right. right.
      split; [eapply parse_time_escaped, Et | auto]. }
  split; [|split; [|split; [|split; [|split; [|split; [|split; [|split; [|split]]]]]]]].
  - split.
    + intros H. destruct (Hclass _ H) as [[_ Ht] | [[He _] | [[He _] _]]];
        [exact Ht | discriminate He | congruence].
    + intros Ht. unfold parse_slurmargs. rewrite Ht. reflexivity.
  - split.
    + intros H. destruct (Hclass _ H) as [[He _] | [[_ Hm] | [[_ He] _]]];
        [discriminate He | exact Hm | congruence].
    + intros ([h Ht] & Hm & Hc). unfold parse_slurmargs. rewrite Ht, Hm, Hc. reflexivity.
  - intros e H.
    destruct (Hclass _ H) as [[He _] | [[He _] | [_ [He | [He | [He | He]]]]]]; auto 10.
  - intros v e. rewrite parse_slurmargs_array.
    destruct (parse_slurmargs slurmargs); cbn [bind]; split; intros H;
      solve [exact H | discriminate H].
  - intros key Hkey Hnone.
    unfold parse_slurmargs, resolve_ntasks, resolve_cpus_per_task.
    simpl in Hkey. destruct Hkey as [<-|[<-|[<-|[<-|[]]]]];
      rewrite ?lookup_delete_eq, ?lookup_delete_ne by discriminate;
      cbn [parse_argument_to_int]; rewrite ?Hnone; reflexivity.
  - intros Hall e H.
    assert (Hn : resolve_ntasks slurmargs = 1).
    { unfold resolve_ntasks. rewrite (Hall "ntasks"), (Hall "tasks-per-node") by (simpl; auto).
      reflexivity. }
    assert (Hc : resolve_cpus_per_task slurmargs = 1).
    { unfold resolve_cpus_per_task. rewrite (Hall "cpus-per-task") by (simpl; auto).
      reflexivity. }
    destruct (Hclass _ H) as [[He _] | [[He _] | [_ [He | [He | [He | [g He]]]]]]]; auto 10.
    exfalso. rewrite Hn, Hc in He. revert He. unfold float_mul_int.
    change (float_of_int (1 * 1)) with (Return (A := float) (float_of_Z 1)).
    cbn [bind]. discriminate.
  - intros key v e g Hkey Hm.
    assert (Hm' : parse_mem_to_gigabytes (<[key := v]> slurmargs !! "mem") = Return (Some g)).
    { rewrite lookup_insert_ne; [exact Hm|].
      simpl in Hkey. intuition (subst; discriminate). }
    rewrite (parse_slurmargs_direct_mem _ g Hm'), (parse_slurmargs_direct_mem _ g Hm).
    rewrite lookup_insert_ne by (simpl in Hkey; intuition (subst; discriminate)).
    destruct (parse_time_to_hours (slurmargs !! "time")) as [[h|]|]; cbn [bind];
      split; intros H; solve [exact H | discriminate H].
  - intros Hn Hf. unfold resolve_ntasks. rewrite Hn.
    destruct Hf as [-> | ->]; [reflexivity|].
    destruct (parse_argument_to_int (slurmargs !! "tasks-per-node")); reflexivity.
  - intros Hc. unfold resolve_cpus_per_task. rewrite Hc. reflexivity.
  - repeat split.
Qed.

(** A value with a fractional number part makes the memory parser raise
    the [ValueError] of [int]. *)
Lemma parse_mem_fraction_raises ds fs u :
  digits ds -> digits fs -> unit_suffix u = true ->
  parse_mem_to_gigabytes (Some (ds +:+ String "." (fs +:+ u)))
  = Raise (int_error (ds +:+ String "." fs)).
Proof.
  intros Hd Hf Hu.
  assert (Hstrip : strip (ds +:+ String "." (fs +:+ u)) = ds +:+ String "." (fs +:+ u)).
  { replace (ds +:+ String "." (fs +:+ u))
      with ((ds +:+ String "." fs) +:+ u) by (rewrite append_assoc; reflexivity).
    apply strip_number_unit; [| | exact Hu].
    - pose proof (digits_starts ds Hd). destruct ds; [discriminate|]. assumption.
    - destruct (digits_last fs Hf) as (c & Hc & Hcd). exists c. split; [|exact Hcd].
      rewrite last_char_app. destruct Hf as [Hnf _]. destruct fs; [congruence|]. exact Hc. }
  unfold parse_mem_to_gigabytes.
  rewrite truthy_app by apply Hd. cbn [negb]. rewrite Hstrip.
  rewrite (mem_pattern_fraction ds fs u Hd Hf Hu). cbn [group Nat.eqb].
  unfold int_opt, int_. rewrite (py_int_fraction ds fs Hd Hf). reflexivity.
Qed.

(** C5. Where the claim has no raise, the code raises: with a time that
    parses, a [mem] directive whose amount has a fractional part and a
    [mem-per-cpu] directive that gives the memory, normalization raises the
    [ValueError] of [int], which is neither of its own two errors; without
    the [mem] directive the same header is normalized from [mem-per-cpu]. *)
Theorem C5_fractional_mem_raises_despite_fallback (slurmargs : gmap string string)
    (ds fs u : string) (h g : float) :
  digits ds -> digits fs -> unit_suffix u = true ->
  slurmargs !! "mem" = Some (ds +:+ String "." (fs +:+ u)) ->
  parse_time_to_hours (slurmargs !! "time") = Return (Some h) ->
  parse_mem_to_gigabytes (slurmargs !! "mem-per-cpu") = Return (Some g) ->
  parse_slurmargs slurmargs = Raise (int_error (ds +:+ String "." fs))
  /\ int_error (ds +:+ String "." fs) <> time_unspecified
  /\ int_error (ds +:+ String "." fs) <> memory_unspecified
  /\ parse_slurmargs (delete "mem" slurmargs)
     = bind (float_mul_int g (resolve_ntasks slurmargs * resolve_cpus_per_task slurmargs))
         (fun memory_gigabytes =>
            Return (Resources h (resolve_ntasks slurmargs * resolve_cpus_per_task slurmargs)
                      memory_gigabytes (parse_array_count (slurmargs !! "array")))).
Proof.
  intros Hd Hf Hu Hmem Ht Hc.
  pose proof (parse_mem_fraction_raises ds fs u Hd Hf Hu) as Hp.
  destruct (int_error_escaped (ds +:+ String "." fs)) as [E1 E2].
  split; [|split; [exact E1|split; [exact E2|]]].
  - unfold parse_slurmargs. rewrite Ht, Hmem, Hp. reflexivity.
  - unfold parse_slurmargs, resolve_ntasks, resolve_cpus_per_task.
    rewrite lookup_delete_eq, !lookup_delete_ne by discriminate.
    rewrite Ht. cbn [bind parse_mem_to_gigabytes]. rewrite Hc. reflexivity.
Qed.

(** The header of C5: the time ["10"], [mem] at ["1.5G"] and [mem-per-cpu]
    at ["4G"]. The time parses and the fall-back gives 4 GiB, and yet
    normalization raises the [ValueError] of [int]. *)
Lemma C5_witness_fractional_mem :
  let slurmargs : gmap string string :=
    {[ "time" := "10"; "mem" := "1.5G"; "mem-per-cpu" := "4G" ]} in
  parse_slurmargs slurmargs
  = Raise (ValueError "invalid literal for int() with base 10: '1.5'")
  /\ parse_time_to_hours (slurmargs !! "time")
     = Return (Some (fdiv (float_of_Z 10) f60))
  /\ parse_mem_to_gigabytes (slurmargs !! "mem-per-cpu") = Return (Some (float_of_Z 4))
  /\ parse_slurmargs (delete "mem" slurmargs)
     = Return (Resources (fdiv (float_of_Z 10) f60) 1 (float_of_Z 4) 1).
Proof.
  intros slurmargs.
  assert (H1 : digits "1") by (split; [discriminate | reflexivity]).
  assert (H5 : digits "5") by (split; [discriminate | reflexivity]).
  assert (Hmem : slurmargs !! "mem" = Some "1.5G") by (vm_compute; reflexivity).
  assert (Ht : parse_time_to_hours (slurmargs !! "time")
               = Return (Some (fdiv (float_of_Z 10) f60))) by (vm_compute; reflexivity).
  assert (Hc : parse_mem_to_gigabytes (slurmargs !! "mem-per-cpu")
               = Return (Some (float_of_Z 4))) by (vm_compute; reflexivity).
  destruct (C5_fractional_mem_raises_despite_fallback slurmargs "1" "5" "G" _ _
              H1 H5 eq_refl Hmem Ht Hc) as (Hr & _ & _ & Hd).
  split; [exact Hr|]. split; [exact Ht|]. split; [exact Hc|].
  etransitivity; [exact Hd|]. vm_compute. reflexivity.
Defined.

(** * Beyond the claims

    ** The rest of the source: the pipeline and the figures of the report *)

(** The lines of the script that run the core: extraction, normalization and
    the cost model, each on the value of the one before; the first exception
    ends the run. The report is printed from the value returned here. *)
Definition main_costs_per_queue (scriptlines : string) : result jobcost :=
  bind (extract_slurmheader_arguments scriptlines) (fun slurmargs =>
  bind (parse_slurmargs slurmargs) (fun parsed_slurmargs =>
  calculate_sbatch_jobcost_per_queue parsed_slurmargs)).

(** [min(d, key=d.get)] and [max(d, key=d.get)] on a dictionary with the keys
    [normal], [bigmem], [hugemem] in this order: a later key replaces the
    current one only when its value compares strictly less (greater). *)
Definition min_queue (d : per_queue) : queue :=
  let best := Normal in
  let best := if flt (at_queue d Bigmem) (at_queue d best) then Bigmem else best in
  if flt (at_queue d Hugemem) (at_queue d best) then Hugemem else best.

Definition max_queue (d : per_queue) : queue :=
  let best := Normal in
  let best := if flt (at_queue d best) (at_queue d Bigmem) then Bigmem else best in
  if flt (at_queue d best) (at_queue d Hugemem) then Hugemem else best.

(** [int(x)] on a float: the value with its fraction cut off; an infinity
    and a NaN have no integer. *)
Definition int_of_float (x : float) : result Z :=
  match x with
  | S754_zero _ => Return 0
  | S754_infinity _ => Raise (OverflowError "cannot convert float infinity to integer")
  | S754_nan => Raise (ValueError "cannot convert float NaN to integer")
  | S754_finite s m e =>
      let a := if 0 <=? e then Z.pos m * 2 ^ e else Z.pos m / 2 ^ (- e) in
      Return (if s then - a else a)
  end.

(** The figures [print_cost_details] works out before it prints: the four
    requested resources as integers, the two queues it names with their
    costs, and whether the warning banner is shown. The threshold is taken
    as a float; the integer [10000] of the script compares as [10000.0]. *)
Record figures : Type := Figures {
  shown_hours : Z;
  shown_cpus : Z;
  shown_memory_gb : Z;
  shown_array_count : Z;
  cheapest_queue : queue;
  cheapest_cost : float;
  most_expensive_queue : queue;
  most_expensive_cost : float;
  warning : bool
}.

Definition report_figures (cost_details : jobcost) (threshold : float) : result figures :=
  bind (int_of_float (cost_hours cost_details)) (fun hours =>
  let cpus := cost_cpus cost_details in
  bind (int_of_float (cost_memory_gb cost_details)) (fun memory_gb =>
  let array_count := cost_array_count cost_details in
  (* Per-task values *)
  let charged_task := charged (per_task cost_details) in
  let cheapest_queue := min_queue charged_task in
  let cheapest_cost := at_queue charged_task cheapest_queue in
  let most_expensive_queue := max_queue charged_task in
  let most_expensive_cost := at_queue charged_task most_expensive_queue in
  (* Array total values *)
  let charged_total := charged (total cost_details) in
  let cheapest_cost :=
    if 1 <? array_count then at_queue charged_total cheapest_queue
    else cheapest_cost in
  let most_expensive_cost :=
    if 1 <? array_count then at_queue charged_total most_expensive_queue
    else most_expensive_cost in
  Return (Figures hours cpus memory_gb array_count
                  cheapest_queue cheapest_cost most_expensive_queue most_expensive_cost
                  (fle threshold most_expensive_cost)))).

(** ** Directive lines and their extraction *)

(** A directive as it is written in a script: a long or a short option, then
    [=] or a blank, then the value. *)
Inductive option_name : Type :=
| LongName (n : string)
| ShortName (c : ascii).

Inductive separator : Type := Equals | Blank.

Record directive : Type := Directive {
  d_name : option_name;
  d_sep : separator;
  d_value : string
}.

Definition name_text (n : option_name) : string :=
  match n with
  | LongName n => n
  | ShortName c => String c EmptyString
  end.

Definition render_name (n : option_name) : string :=
  match n with
  | LongName n => String "-" (String "-" n)
  | ShortName c => String "-" (String c EmptyString)
  end.

Definition sep_char (s : separator) : ascii :=
  match s with
  | Equals => "="%char
  | Blank => " "%char
  end.

(** The line without its end of line. *)
Definition render_directive (d : directive) : string :=
  "#SBATCH " +:+ render_name (d_name d) +:+ String (sep_char (d_sep d)) (d_value d).

(** A script made of directive lines only. *)
Fixpoint render_script (ds : list directive) : string :=
  match ds with
  | [] => EmptyString
  | d :: ds' => render_directive d +:+ String "010" (render_script ds')
  end.

(** The name is of the pattern's classes; the value stays on its line and
    starts with a character that is not white space. *)
Definition directive_ok (d : directive) : Prop :=
  match d_name d with
  | LongName n => n <> EmptyString /\ string_forall is_name_char n = true
  | ShortName c => is_letter c = true
  end
  /\ starts_with nonspace (d_value d) = true
  /\ string_forall not_crlf (d_value d) = true.

(** The name under which a directive is filed. *)
Definition canonical_name (n : string) : string :=
  default n (SLURMARG_CONVERSIONS !! n).

(** The value that is filed for a captured value without [#]. *)
Definition stored_value (v : string) : string :=
  let v := strip v in
  if argvalue_is_quoted v then strip (unquote v) else v.

(** The groups of the match of a directive line. *)
Definition directive_groups (d : directive) : captures :=
  [ (match d_sep d with Equals => 3 | Blank => 4 end, d_value d);
    (match d_name d with LongName _ => 1 | ShortName _ => 2 end, name_text (d_name d)) ]%nat.

Section RepExists.
Context {A : Type} (p : ascii -> bool).

(** A repetition succeeds as soon as the continuation accepts one
    admissible run. *)
Lemma rep_exists (k : option ascii -> string -> option A) w s' x :
  forall pv lo hi s,
  s = w +:+ s' ->
  string_forall p w = true ->
  (lo <= String.length w)%nat -> within hi (String.length w) ->
  k (prev_after pv w) s' = Some x ->
  exists y, rep p lo hi pv s k = Some y.
Proof.
  induction w as [|a w IH]; intros pv lo hi s -> Hw Hlo Hhi Hk.
  - simpl in *. assert (lo = O) as -> by lia.
    destruct s' as [|c s']; simpl; [eauto|].
    destruct (p c && below hi); [|eauto].
    destruct (rep p _ _ _ _ _); eauto.
  - simpl in Hw. apply andb_prop in Hw as [Ha Hw]. simpl.
    rewrite Ha. simpl in Hlo, Hhi.
    assert (Hb : below hi = true) by (destruct hi as [[|h]|]; simpl in *; [lia | | ]; reflexivity).
    rewrite Hb. simpl.
    destruct (IH (Some a) (Nat.pred lo) (Nat.pred <$> hi) (w +:+ s') eq_refl Hw) as [y Hy].
    + lia.
    + destruct hi as [h|]; simpl in *; [lia | exact I].
    + rewrite <- (prev_after_cons pv). exact Hk.
    + rewrite Hy. eauto.
Qed.
End RepExists.

Lemma prev_after_nonempty pv w : w <> EmptyString -> prev_after pv w = last_char w.
Proof.
  intros H. unfold prev_after. destruct (last_char_some w H) as [c ->]. reflexivity.
Qed.

Lemma render_directive_shape d more :
  render_directive d +:+ String "010" more
  = "#SBATCH " +:+
    match d_name d with
    | LongName n =>
        String "-" (String "-" (n +:+ String (sep_char (d_sep d))
                                        (d_value d +:+ String "010" more)))
    | ShortName c =>
        String "-" (String c (String (sep_char (d_sep d))
                                     (d_value d +:+ String "010" more)))
    end.
Proof.
  unfold render_directive. destruct (d_name d) as [n|c]; simpl;
    rewrite ?append_assoc; reflexivity.
Qed.

Lemma letter_classes c :
  is_letter c = true ->
  Ascii.eqb "-" c = false /\ is_name_char c = true /\ isspace c = false.
Proof. each_char c; vm_compute; intuition congruence. Qed.

Lemma nonspace_not_crlf_classes c :
  nonspace c = true -> isspace c = false.
Proof. unfold nonspace. destruct (isspace c); [discriminate | reflexivity]. Qed.

(** The value of a directive, read from after its separator: the lookahead
    finds a character that is not white space, and the value runs to the end
    of the line. *)
Lemma value_group_match {A} n v more pv cs (k : state -> option A) x :
  starts_with nonspace v = true -> string_forall not_crlf v = true ->
  k (State (last_char v) (String "010" more) ((n, v) :: cs)) = Some x ->
  mt (Group n (Look (Star not_crlf >>> Chr nonspace) >>> Plus not_crlf))%re
     (State pv (v +:+ String "010" more) cs) k = Some x.
Proof.
  intros Hs Hv Hk. destruct v as [|a v]; [discriminate|]. simpl in Hs.
  cbn [mt Star Plus prev rest caps].
  destruct (rep_exists not_crlf
              (fun pv0 s0 => mt (Chr nonspace) (State pv0 s0 cs) (fun _ => Some tt))
              EmptyString (String a v +:+ String "010" more) tt
              pv 0%nat None (String a v +:+ String "010" more))
    as [y Hy]; [reflexivity | reflexivity | simpl; lia | exact I | |].
  { cbn. rewrite Hs. reflexivity. }
  cbn [mt rest caps] in Hy. rewrite Hy.
  eapply (rep_greedy _ _ (String a v) (String "010" more));
    [reflexivity | exact Hv | reflexivity | simpl; lia | exact I |].
  cbn beta. rewrite prev_after_nonempty by discriminate.
  rewrite consumed_app. exact Hk.
Qed.

(** A directive line is matched from the start of a line, over the white
    space before it, with its name and its value, up to its end of line. *)
Lemma header_match_indented d more pv ws :
  directive_ok d -> (pv = None \/ pv = Some "010"%char) ->
  string_forall isspace ws = true ->
  match_at SLURMHEADER_PATTERN pv (ws +:+ render_directive d +:+ String "010" more)
  = Some (State (last_char (d_value d)) (String "010" more) (directive_groups d)).
Proof.
  intros (Hn & Hs & Hv) Hpv Hws. rewrite render_directive_shape.
  unfold match_at, SLURMHEADER_PATTERN, directive_groups.
  destruct d as [name sep v]. cbn [d_name d_sep d_value] in *.
  assert (Hbol : forall (k : state -> option state) s cs,
            mt Bol (State pv s cs) k = k (State pv s cs)).
  { intros. destruct Hpv as [-> | ->]; reflexivity. }
  assert (Hsp : starts_with isspace (v +:+ String "010" more) = false).
  { destruct v as [|a v]; [discriminate|]. simpl in Hs |- *.
    apply nonspace_not_crlf_classes, Hs. }
  match goal with
  | |- mt (Seq Bol ?r) ?st ?k = ?rhs =>
      change (mt Bol st (fun st' => mt r st' k) = rhs)
  end.
  rewrite Hbol.
  destruct name as [n | c]; cbn [mt Star Plus Lit prev rest caps name_text].
  - (* long option *)
    destruct Hn as [Hne Hn].
    eapply (rep_greedy _ _ ws);
      [reflexivity | exact Hws | reflexivity | apply Nat.le_0_l | exact I |].
    cbn beta. simpl. do 2 apply first_some.
    eapply (rep_greedy _ _ n (String (sep_char sep) (v +:+ String "010" more)));
      [reflexivity | exact Hn | destruct sep; reflexivity
      | destruct n; [congruence | simpl; lia] | exact I |].
    cbn beta. rewrite consumed_app.
    destruct sep; cbn [sep_char]; simpl.
    + apply first_some.
      exact (value_group_match 3%nat v more (Some "="%char) [(1%nat, n)]
               (fun st => mt Eol st Some) _ Hs Hv eq_refl).
    + apply first_some.
      eapply (rep_greedy _ _ EmptyString (v +:+ String "010" more));
        [reflexivity | reflexivity | exact Hsp | simpl; lia | exact I |].
      exact (value_group_match 4%nat v more (Some " "%char) [(1%nat, n)]
               (fun st => mt Eol st Some) _ Hs Hv eq_refl).
  - (* short option *)
    destruct (letter_classes c Hn) as (Hdash & _ & _).
    eapply (rep_greedy _ _ ws);
      [reflexivity | exact Hws | reflexivity | apply Nat.le_0_l | exact I |].
    cbn beta. simpl. rewrite Hdash, Hn.
    change (consumed (String c ?s) ?s) with (consumed (String c EmptyString +:+ s) s).
    rewrite (consumed_app (String c EmptyString)).
    destruct sep; cbn [sep_char]; simpl.
    + repeat apply first_some.
      exact (value_group_match 3%nat v more (Some "="%char) [(2%nat, String c EmptyString)]
               (fun st => mt Eol st Some) _ Hs Hv eq_refl).
    + repeat apply first_some.
      eapply (rep_greedy _ _ EmptyString (v +:+ String "010" more));
        [reflexivity | reflexivity | exact Hsp | simpl; lia | exact I |].
      exact (value_group_match 4%nat v more (Some " "%char) [(2%nat, String c EmptyString)]
               (fun st => mt Eol st Some) _ Hs Hv eq_refl).
Qed.

Lemma header_match_directive d more pv :
  directive_ok d -> (pv = None \/ pv = Some "010"%char) ->
  match_at SLURMHEADER_PATTERN pv (render_directive d +:+ String "010" more)
  = Some (State (last_char (d_value d)) (String "010" more) (directive_groups d)).
Proof.
  intros Hd Hpv. exact (header_match_indented d more pv EmptyString Hd Hpv eq_refl).
Qed.

Lemma finditer_skip r w s : forall pv,
  finditer_from r pv (w +:+ s) (String.length w) = finditer_from r (prev_after pv w) s 0.
Proof.
  induction w as [|a w IH]; intros pv; [reflexivity|].
  simpl. rewrite IH, (prev_after_cons pv). reflexivity.
Qed.

(** No directive is matched from a position inside a line. *)
Lemma header_match_needs_line_start c s :
  Ascii.eqb c "010" = false -> match_at SLURMHEADER_PATTERN (Some c) s = None.
Proof. intros H. unfold match_at, SLURMHEADER_PATTERN. cbn [mt prev]. rewrite H. reflexivity. Qed.

Lemma not_crlf_not_newline c : not_crlf c = true -> Ascii.eqb c "010" = false.
Proof. each_char c; vm_compute; congruence. Qed.

Lemma render_directive_last d :
  directive_ok d ->
  exists body c,
    render_directive d = String "#" body
    /\ prev_after (Some "#"%char) body = Some c /\ Ascii.eqb c "010" = false.
Proof.
  intros (_ & Hs & Hv). destruct d as [name sep v]. cbn [d_value] in *.
  destruct v as [|a v]; [discriminate|].
  destruct (last_char_some (String a v)) as [c Hc]; [discriminate|].
  exists ("SBATCH " +:+ render_name name +:+ String (sep_char sep) (String a v)), c.
  split; [reflexivity|]. split.
  - rewrite prev_after_nonempty by discriminate.
    change ("SBATCH " +:+ render_name name +:+ String (sep_char sep) (String a v))
      with (("SBATCH " +:+ render_name name) +:+ String (sep_char sep) (String a v)).
    rewrite last_char_app. exact Hc.
  - apply not_crlf_not_newline. eapply last_char_forall; eassumption.
Qed.

(** The matches of [finditer] on a script of directive lines are the lines,
    one by one. *)
Lemma finditer_render_script ds : forall pv,
  pv = None \/ pv = Some "010"%char ->
  Forall directive_ok ds ->
  finditer_from SLURMHEADER_PATTERN pv (render_script ds) 0 = directive_groups <$> ds.
Proof.
  induction ds as [|d ds IH]; intros pv Hpv Hok.
  - destruct Hpv as [-> | ->]; reflexivity.
  - apply List.Forall_cons_iff in Hok as [Hd Hok].
    cbn [render_script fmap list_fmap].
    pose proof (header_match_directive d (render_script ds) pv Hd Hpv) as Hm.
    destruct (render_directive_last d Hd) as (body & c & Hb & Hprev & Hc).
    rewrite Hb in *.
    change (String "#" body +:+ String "010" (render_script ds))
      with (String "#" (body +:+ String "010" (render_script ds))) in *.
    cbn [finditer_from]. rewrite Hm. cbn [caps rest]. f_equal.
    replace (Nat.pred (String.length (String "#" (body +:+ String "010" (render_script ds)))
                       - String.length (String "010" (render_script ds))))
      with (String.length body).
    2:{ cbn [String.length]. rewrite length_append. cbn [String.length]. lia. }
    rewrite finditer_skip, Hprev.
    cbn [finditer_from]. rewrite (header_match_needs_line_start c _ Hc).
    apply IH; [right; reflexivity | exact Hok].
Qed.

Lemma header_step_directive slurmargs d :
  directive_ok d -> contains "#" (d_value d) = false ->
  header_step slurmargs (directive_groups d)
  = Return (<[canonical_name (name_text (d_name d)) := stored_value (d_value d)]> slurmargs).
Proof.
  intros (Hn & Hs & _) Hh. destruct d as [name sep v]. cbn [d_name d_sep d_value] in *.
  assert (Hv : exists a w, v = String a w) by (destruct v; [discriminate | eauto]).
  destruct Hv as (a & w & ->).
  assert (Hname : line_slurmarg (directive_groups (Directive name sep (String a w)))
                  = Some (name_text name)).
  { destruct name as [n|c], sep; cbn; try reflexivity;
      destruct Hn as [Hne _]; destruct n; [congruence | reflexivity | congruence | reflexivity]. }
  assert (Hval : line_argvalue (directive_groups (Directive name sep (String a w)))
                 = Some (String a w)).
  { destruct name as [n|c], sep; reflexivity. }
  unfold header_step. rewrite Hname, Hval.
  rewrite contains_strip by reflexivity. rewrite Hh. reflexivity.
Qed.

(** The mapping filed for a list of directives: each one is filed under its
    canonical name, over what was there. *)
Definition file_directive (slurmargs : gmap string string) (d : directive)
    : gmap string string :=
  <[canonical_name (name_text (d_name d)) := stored_value (d_value d)]> slurmargs.

Lemma header_loop_directives ds : forall slurmargs,
  Forall directive_ok ds ->
  Forall (fun d => contains "#" (d_value d) = false) ds ->
  header_loop (directive_groups <$> ds) slurmargs
  = Return (fold_left file_directive ds slurmargs).
Proof.
  induction ds as [|d ds IH]; intros m Hok Hh; [reflexivity|].
  apply List.Forall_cons_iff in Hok as [Hd Hok].
  apply List.Forall_cons_iff in Hh as [Hhd Hh].
  cbn [fmap list_fmap header_loop fold_left].
  rewrite (header_step_directive m d Hd Hhd). cbn [bind].
  apply IH; assumption.
Qed.

(** X1. A script made of directive lines, long or short options with [=] or
    a blank before a value without [#], is extracted to the mapping that
    files each directive in turn under its canonical name. *)
Theorem extract_rendered_script (ds : list directive) :
  Forall directive_ok ds ->
  Forall (fun d => contains "#" (d_value d) = false) ds ->
  extract_slurmheader_arguments (render_script ds)
  = Return (fold_left file_directive ds ∅).
Proof.
  intros Hok Hh. unfold extract_slurmheader_arguments, finditer.
  rewrite finditer_render_script by auto.
  apply header_loop_directives; assumption.
Qed.

(** A value that is trimmed and not wrapped in quotes is filed as it is. *)
Lemma stored_value_plain v :
  strip v = v -> argvalue_is_quoted v = false -> stored_value v = v.
Proof. intros Hs Hq. unfold stored_value. rewrite Hs, Hq. reflexivity. Qed.

(** The example of X1: four lines, the memory given twice. *)
Lemma extract_rendered_script_example :
  let ds := [ Directive (LongName "time") Equals "1:00:00";
              Directive (ShortName "c") Blank "4";
              Directive (LongName "mem") Equals "4G";
              Directive (LongName "mem") Blank "8G" ] in
  Forall directive_ok ds
  /\ Forall (fun d => contains "#" (d_value d) = false) ds
  /\ render_script ds
     = "#SBATCH --time=1:00:00" +:+ newline +:+ "#SBATCH -c 4" +:+ newline
       +:+ "#SBATCH --mem=4G" +:+ newline +:+ "#SBATCH --mem 8G" +:+ newline
  /\ extract_slurmheader_arguments (render_script ds)
     = Return {[ "time" := "1:00:00"; "cpus-per-task" := "4"; "mem" := "8G" ]}.
Proof.
  intros ds.
  assert (Hok : Forall directive_ok ds).
  { repeat (apply List.Forall_cons; [repeat split; discriminate|]). apply List.Forall_nil. }
  assert (Hh : Forall (fun d => contains "#" (d_value d) = false) ds).
  { repeat (apply List.Forall_cons; [reflexivity|]). apply List.Forall_nil. }
  split; [exact Hok|]. split; [exact Hh|]. split; [reflexivity|].
  etransitivity; [exact (extract_rendered_script ds Hok Hh)|].
  vm_compute. reflexivity.
Defined.

(** X2. The last occurrence wins: a directive line added at the end of a
    script of directive lines is filed over the mapping of the script without
    it, so its key holds its value and every other key is as before. *)
Theorem extract_last_directive_wins (ds : list directive) (d : directive) :
  Forall directive_ok (ds ++ [d]) ->
  Forall (fun d => contains "#" (d_value d) = false) (ds ++ [d]) ->
  exists before,
    extract_slurmheader_arguments (render_script ds) = Return before
    /\ extract_slurmheader_arguments (render_script (ds ++ [d]))
       = Return (<[canonical_name (name_text (d_name d)) := stored_value (d_value d)]> before)
    /\ (<[canonical_name (name_text (d_name d)) := stored_value (d_value d)]> before)
         !! canonical_name (name_text (d_name d)) = Some (stored_value (d_value d))
    /\ forall k, k <> canonical_name (name_text (d_name d)) ->
         (<[canonical_name (name_text (d_name d)) := stored_value (d_value d)]> before) !! k
         = before !! k.
Proof.
  intros Hok Hh. exists (fold_left file_directive ds ∅).
  assert (E : forall l, Forall directive_ok l ->
                Forall (fun d => contains "#" (d_value d) = false) l ->
                extract_slurmheader_arguments (render_script l)
                = Return (fold_left file_directive l ∅)).
  { intros l Hl Hn. unfold extract_slurmheader_arguments, finditer.
    rewrite finditer_render_script by auto.
    apply header_loop_directives; assumption. }
  split; [|split; [|split]].
  - apply E.
    + apply List.Forall_app in Hok. tauto.
    + apply List.Forall_app in Hh. tauto.
  - rewrite (E _ Hok Hh), List.fold_left_app. reflexivity.
  - apply lookup_insert_eq.
  - intros k Hk. apply lookup_insert_ne. congruence.
Qed.

Lemma extract_last_directive_wins_example :
  let ds := [ Directive (LongName "mem") Equals "4G";
              Directive (LongName "time") Equals "10" ] in
  let d := Directive (LongName "mem") Blank "8G" in
  Forall directive_ok (ds ++ [d])
  /\ Forall (fun d => contains "#" (d_value d) = false) (ds ++ [d])
  /\ exists before,
       extract_slurmheader_arguments (render_script ds) = Return before
       /\ before !! "mem" = Some "4G"
       /\ extract_slurmheader_arguments (render_script (ds ++ [d]))
          = Return (<["mem" := "8G"]> before).
Proof.
  intros ds d.
  assert (Hok : Forall directive_ok (ds ++ [d])).
  { repeat (apply List.Forall_cons; [repeat split; discriminate|]). apply List.Forall_nil. }
  assert (Hh : Forall (fun d => contains "#" (d_value d) = false) (ds ++ [d])).
  { repeat (apply List.Forall_cons; [reflexivity|]). apply List.Forall_nil. }
  split; [exact Hok|]. split; [exact Hh|].
  destruct (extract_last_directive_wins ds d Hok Hh) as (before & H1 & H2 & _).
  exists before. split; [exact H1|]. split.
  - assert (E : extract_slurmheader_arguments (render_script ds)
                = Return {[ "mem" := "4G"; "time" := "10" ]}) by (vm_compute; reflexivity).
    rewrite H1 in E. apply Return_inj in E. rewrite E. vm_compute. reflexivity.
  - exact H2.
Defined.

(** ** What every extracted mapping satisfies *)

Lemma lstrip_by_starts sp s : starts_with sp (lstrip_by sp s) = false.
Proof.
  induction s as [|a s IH]; simpl; [reflexivity|].
  destruct (sp a) eqn:Ha; [exact IH | simpl; exact Ha].
Qed.

Lemma rstrip_by_starts sp s :
  starts_with sp s = false -> starts_with sp (rstrip_by sp s) = false.
Proof.
  destruct s as [|a s]; [reflexivity|]. simpl starts_with at 1. intros Ha.
  destruct (rstrip_by_keeps_head sp a s Ha) as [r ->]. exact Ha.
Qed.

Lemma rstrip_by_idem sp s : rstrip_by sp (rstrip_by sp s) = rstrip_by sp s.
Proof.
  induction s as [|a s IH]; [reflexivity|].
  cbn [rstrip_by]. destruct (rstrip_by sp s) as [|b r] eqn:E.
  - destruct (sp a) eqn:Ha; [reflexivity|]. cbn [rstrip_by]. rewrite Ha. reflexivity.
  - assert (R : forall t, rstrip_by sp t = String b r ->
                        rstrip_by sp (String a t) = String a (String b r)).
    { intros t Ht. simpl. rewrite Ht. reflexivity. }
    apply R, IH.
Qed.

(** [strip] of a stripped string changes nothing. *)
Lemma strip_idem s : strip (strip s) = strip s.
Proof.
  unfold strip.
  rewrite (lstrip_by_id isspace (rstrip_by isspace (lstrip_by isspace s))).
  - apply rstrip_by_idem.
  - apply rstrip_by_starts, lstrip_by_starts.
Qed.

Lemma contains_drop_last c s : contains c (drop_last s) = true -> contains c s = true.
Proof.
  induction s as [|a s IH]; [discriminate|].
  destruct s as [|b s]; [discriminate|].
  change (drop_last (String a (String b s))) with (String a (drop_last (String b s))).
  cbn [contains]. intros [H|H]%orb_prop; [rewrite H; reflexivity|].
  apply IH in H. cbn [contains] in H. rewrite H. apply orb_true_r.
Qed.

Lemma contains_unquote c v : contains c v = false -> contains c (unquote v) = false.
Proof.
  intros H. destruct v as [|a t]; [reflexivity|]. cbn [unquote].
  destruct (contains c (drop_last t)) eqn:E; [|reflexivity].
  apply contains_drop_last in E. cbn [contains] in H.
  rewrite E, orb_true_r in H. discriminate.
Qed.

(** The value that is filed is trimmed and holds no [#]. *)
Lemma stored_value_clean v :
  contains "#" (strip v) = false ->
  strip (stored_value v) = stored_value v /\ contains "#" (stored_value v) = false.
Proof.
  intros Hh. unfold stored_value. destruct (argvalue_is_quoted (strip v)).
  - split; [apply strip_idem|].
    rewrite contains_strip by reflexivity. apply contains_unquote, Hh.
  - split; [apply strip_idem | exact Hh].
Qed.

(** One turn of the loop files one entry: the canonical name of the matched
    name, with the stored value of the matched value. *)
Lemma header_step_files slurmargs line slurmargs' :
  header_step slurmargs line = Return slurmargs' ->
  exists name value,
    line_slurmarg line = Some name /\ line_argvalue line = Some value
    /\ contains "#" (strip value) = false
    /\ slurmargs' = <[canonical_name name := stored_value value]> slurmargs.
Proof.
  unfold header_step.
  destruct (line_slurmarg line) as [n|]; [|discriminate].
  destruct (line_argvalue line) as [v|]; [|discriminate].
  destruct (contains "#" (strip v)) eqn:Hh; [discriminate|].
  intros H. apply Return_inj in H. exists n, v. auto.
Qed.

(** A property of mappings that every turn keeps holds at the end of the
    loop. *)
Lemma header_loop_invariant (P : gmap string string -> Prop) headerlines :
  (forall slurmargs name value,
     P slurmargs -> contains "#" (strip value) = false ->
     P (<[canonical_name name := stored_value value]> slurmargs)) ->
  forall slurmargs slurmargs',
    P slurmargs -> header_loop headerlines slurmargs = Return slurmargs' -> P slurmargs'.
Proof.
  intros Hstep. induction headerlines as [|line ls IH]; intros d d' Hd H; simpl in H.
  - apply Return_inj in H. subst d'. exact Hd.
  - destruct (header_step d line) as [d1|] eqn:E; [|discriminate]. simpl in H.
    apply header_step_files in E as (n & v & _ & _ & Hh & ->).
    eapply IH; [|exact H]. apply Hstep; assumption.
Qed.

(** X3. Whatever the text of the script, every value of the mapping that
    extraction returns is trimmed (stripping it again changes nothing) and
    holds no [#]. *)
Theorem extract_values_clean (scriptlines : string) (slurmargs : gmap string string)
    (key value : string) :
  extract_slurmheader_arguments scriptlines = Return slurmargs ->
  slurmargs !! key = Some value ->
  strip value = value /\ contains "#" value = false.
Proof.
  intros H. revert key value.
  refine (header_loop_invariant
            (fun m => forall key value, m !! key = Some value ->
                        strip value = value /\ contains "#" value = false)
            _ _ ∅ slurmargs _ H).
  - intros m n v Hm Hh key value Hl.
    destruct (decide (canonical_name n = key)) as [<-|Hne].
    + rewrite lookup_insert_eq in Hl. apply Some_inj in Hl. subst value.
      apply stored_value_clean, Hh.
    + rewrite lookup_insert_ne in Hl by exact Hne. eapply Hm, Hl.
  - intros key value Hl. rewrite lookup_empty in Hl. discriminate.
Qed.

Lemma extract_values_clean_example :
  let scriptlines := "#SBATCH -J  ' my job '  " +:+ newline in
  extract_slurmheader_arguments scriptlines = Return {[ "job-name" := "my job" ]}
  /\ strip "my job" = "my job" /\ contains "#" "my job" = false.
Proof.
  intros scriptlines.
  assert (H : extract_slurmheader_arguments scriptlines
              = Return {[ "job-name" := "my job" ]}) by (vm_compute; reflexivity).
  split; [exact H|].
  apply (extract_values_clean scriptlines {[ "job-name" := "my job" ]} "job-name" "my job" H).
  vm_compute. reflexivity.
Defined.

(** The alias table sends every name to a name it leaves alone. *)
Lemma canonical_name_idem n : canonical_name (canonical_name n) = canonical_name n.
Proof.
  unfold canonical_name.
  destruct (SLURMARG_CONVERSIONS !! n) as [v|] eqn:E; cbn [default from_option id].
  - unfold SLURMARG_CONVERSIONS in E. apply elem_of_list_to_map_2 in E.
    repeat (apply elem_of_cons in E as [E|E]; [injection E as -> ->; vm_compute; reflexivity|]).
    apply elem_of_nil in E. contradiction.
  - rewrite E. reflexivity.
Qed.

(** The names that the alias table renames. *)
Definition renamed_names : list string :=
  ["c"; "n"; "N"; "t"; "J"; "o"; "e"; "A"; "p"; "m"; "tasks-per-node"].

(** X4. Whatever the text of the script, every key of the mapping that
    extraction returns is a name that the alias table leaves alone; so no key
    is a short alias of the table, and none is [tasks-per-node]. *)
Theorem extract_keys_canonical (scriptlines : string) (slurmargs : gmap string string)
    (key value : string) :
  extract_slurmheader_arguments scriptlines = Return slurmargs ->
  slurmargs !! key = Some value ->
  canonical_name key = key /\ ~ In key renamed_names.
Proof.
  intros H Hl.
  assert (Hc : canonical_name key = key).
  { revert key value Hl.
    refine (header_loop_invariant
              (fun m => forall key value, m !! key = Some value -> canonical_name key = key)
              _ _ ∅ slurmargs _ H).
    - intros m n v Hm _ key value Hl.
      destruct (decide (canonical_name n = key)) as [<-|Hne].
      + apply canonical_name_idem.
      + rewrite lookup_insert_ne in Hl by exact Hne. eapply Hm, Hl.
    - intros key value Hl. rewrite lookup_empty in Hl. discriminate. }
  split; [exact Hc|]. intros Hin. unfold renamed_names in Hin.
  repeat (destruct Hin as [<-|Hin]; [vm_compute in Hc; discriminate Hc|]).
  exact Hin.
Qed.

Lemma extract_keys_canonical_example :
  let scriptlines := "#SBATCH -c 4" +:+ newline +:+ "#SBATCH --tasks-per-node=2" +:+ newline in
  extract_slurmheader_arguments scriptlines
  = Return {[ "cpus-per-task" := "4"; "ntasks-per-node" := "2" ]}
  /\ canonical_name "ntasks-per-node" = "ntasks-per-node"
  /\ ~ In "ntasks-per-node" renamed_names.
Proof.
  intros scriptlines.
  assert (H : extract_slurmheader_arguments scriptlines
              = Return {[ "cpus-per-task" := "4"; "ntasks-per-node" := "2" ]})
    by (vm_compute; reflexivity).
  split; [exact H|].
  apply (extract_keys_canonical scriptlines _ "ntasks-per-node" "2" H).
  vm_compute. reflexivity.
Defined.

(** ** Scripts without directives *)

(** A match of the header pattern has read a [#]. *)
Lemma header_match_hash pv s st :
  match_at SLURMHEADER_PATTERN pv s = Some st -> contains "#" s = true.
Proof.
  unfold match_at. intros H. apply mt_sound in H as (st' & Hspan & _).
  unfold SLURMHEADER_PATTERN in Hspan. cbn [span] in Hspan.
  destruct Hspan as (m1 & [-> _] & m2 & Hws & m3 & Hlit & _).
  destruct Hws as (w0 & Hr & _). cbn [rest] in Hr.
  cbn [Lit span] in Hlit. destruct Hlit as (x & (c & Hc & Hp & _) & _).
  apply Ascii.eqb_eq in Hp. subst c.
  rewrite Hr, Hc, contains_app. simpl. apply orb_true_r.
Qed.

Lemma finditer_no_hash s : forall pv skip,
  contains "#" s = false -> finditer_from SLURMHEADER_PATTERN pv s skip = [].
Proof.
  induction s as [|c s IH]; intros pv skip Hs.
  - destruct skip; simpl; [|reflexivity].
    destruct (match_at SLURMHEADER_PATTERN pv EmptyString) eqn:E; [|reflexivity].
    apply header_match_hash in E. discriminate.
  - pose proof Hs as Hs'. simpl in Hs'. apply orb_false_elim in Hs' as [_ Hs'].
    destruct skip; simpl.
    + destruct (match_at SLURMHEADER_PATTERN pv (String c s)) eqn:E.
      * apply header_match_hash in E. congruence.
      * apply IH, Hs'.
    + apply IH, Hs'.
Qed.

(** X5. A script whose text holds no [#] has no directive: extraction
    returns the empty mapping, and the run ends in normalization with the
    [ValueError] for the unspecified time. *)
Theorem script_without_hash (scriptlines : string) :
  contains "#" scriptlines = false ->
  extract_slurmheader_arguments scriptlines = Return ∅
  /\ main_costs_per_queue scriptlines = Raise time_unspecified.
Proof.
  intros H.
  assert (E : extract_slurmheader_arguments scriptlines = Return ∅).
  { unfold extract_slurmheader_arguments, finditer.
    rewrite finditer_no_hash by exact H. reflexivity. }
  split; [exact E|]. unfold main_costs_per_queue. rewrite E. reflexivity.
Qed.

Lemma script_without_hash_example :
  let scriptlines := "set -e" +:+ newline +:+ "srun ./model --steps 10" +:+ newline in
  contains "#" scriptlines = false
  /\ extract_slurmheader_arguments scriptlines = Return ∅
  /\ main_costs_per_queue scriptlines = Raise time_unspecified.
Proof.
  intros scriptlines.
  assert (H : contains "#" scriptlines = false) by reflexivity.
  split; [exact H|]. exact (script_without_hash scriptlines H).
Defined.

(** ** The units of the memory parser *)

(** The power of 1024 that the dispatch applies for a unit in lower case;
    [None] where no branch takes the unit. *)
Definition unit_power (unit : string) : option Z :=
  if existsb (String.eqb unit) ["k"; "kb"; "gib"] then Some 1
  else if existsb (String.eqb unit) ["m"; "mb"] then Some 2
  else if existsb (String.eqb unit) ["g"; "gb"] then Some 3
  else if existsb (String.eqb unit) ["t"; "tb"] then Some 4
  else None.

(** An integer amount with a unit of the pattern reaches the dispatch with
    the amount the digits denote and the unit in lower case. *)
Lemma parse_mem_integer ds u :
  digits ds -> (String.length ds <= MAX_STR_DIGITS)%nat -> unit_suffix u = true ->
  parse_mem_to_gigabytes (Some (ds +:+ u))
  = match unit_power (lower u) with
    | Some k => mem_branch (dec ds) k
    | None => Return None
    end.
Proof.
  intros Hd Hlen Hu. unfold parse_mem_to_gigabytes.
  rewrite truthy_app by apply Hd. cbn [negb].
  rewrite strip_number_unit;
    [| apply digits_starts, Hd | apply digits_last, Hd | exact Hu].
  rewrite (mem_pattern_integer ds u Hd Hu). cbn [group Nat.eqb].
  rewrite (int_opt_digits ds Hd Hlen). cbn [bind].
  assert (Hl : lower (default EmptyString (or_else (Some u) (Some EmptyString))) = lower u).
  { destruct u; reflexivity. }
  rewrite Hl. unfold unit_power. cbn [existsb].
  generalize (lower u). intros l.
  repeat match goal with
         | |- context [String.eqb l ?x] => destruct (String.eqb l x)
         end; reflexivity.
Qed.

Lemma lower_char_idem c : lower_char (lower_char c) = lower_char c.
Proof. each_char c; vm_compute; reflexivity. Qed.

(** Whether a text is a unit of the pattern does not depend on the case of
    its letters. *)
Lemma unit_suffix_lower u : unit_suffix (lower u) = unit_suffix u.
Proof.
  destruct u as [|c [|b [|b' [|? ?]]]]; try reflexivity;
    cbn [lower unit_suffix]; unfold kmgt, ci; rewrite !lower_char_idem; reflexivity.
Qed.



(** X7. An integer amount, of no more digits than [int] converts, followed
    by one of the binary units [kib], [mib] or [tib], in any letter case,
    matches the pattern but no branch of the dispatch takes the unit: the
    parser returns [None]. *)
Theorem parse_mem_binary_units_none ds u :
  digits ds -> (String.length ds <= MAX_STR_DIGITS)%nat ->
  In (lower u) ["kib"; "mib"; "tib"] ->
  parse_mem_to_gigabytes (Some (ds +:+ u)) = Return None.
Proof.
  intros Hd Hlen Hin.
  assert (Hu : unit_suffix u = true).
  { rewrite <- unit_suffix_lower.
    repeat (destruct Hin as [<-|Hin]; [reflexivity|]). destruct Hin. }
  rewrite (parse_mem_integer ds u Hd Hlen Hu).
  repeat (destruct Hin as [<-|Hin]; [reflexivity|]). destruct Hin.
Qed.

Lemma parse_mem_binary_units_none_example :
  digits "4" /\ (String.length "4" <= MAX_STR_DIGITS)%nat
  /\ In (lower "MiB") ["kib"; "mib"; "tib"]
  /\ parse_mem_to_gigabytes (Some "4MiB") = Return None.
Proof.
  assert (Hd : digits "4") by (split; [discriminate | reflexivity]).
  assert (Hlen : (String.length "4" <= MAX_STR_DIGITS)%nat) by (vm_compute; lia).
  assert (Hin : In (lower "MiB") ["kib"; "mib"; "tib"]) by (right; left; reflexivity).
  split; [exact Hd|]. split; [exact Hlen|]. split; [exact Hin|].
  exact (parse_mem_binary_units_none "4" "MiB" Hd Hlen Hin).
Defined.

(** ** Characters no pattern reads *)

(** The characters a pattern can read. *)
Fixpoint reads (r : regex) (c : ascii) : bool :=
  match r with
  | Chr p | Rep p _ _ => p c
  | Seq r1 r2 | Alt r1 r2 => reads r1 c || reads r2 c
  | Group _ r1 => reads r1 c
  | Eps | Look _ | Bol | Eol => false
  end.

Lemma string_forall_impl (p q : ascii -> bool) s :
  (forall c, p c = true -> q c = true) ->
  string_forall p s = true -> string_forall q s = true.
Proof.
  intros Hpq. induction s as [|a s IH]; simpl; [reflexivity|].
  intros [Ha Hs]%andb_prop. rewrite (Hpq a Ha), (IH Hs). reflexivity.
Qed.

Lemma string_forall_contains p s c :
  string_forall p s = true -> contains c s = true -> p c = true.
Proof.
  induction s as [|a s IH]; simpl; [discriminate|].
  intros [Ha Hs]%andb_prop [Hc|Hc]%orb_prop; [|auto].
  apply Ascii.eqb_eq in Hc. subst a. exact Ha.
Qed.

(** What a match has read is made of characters its pattern reads. *)
Lemma span_reads r : forall st st',
  span r st st' ->
  exists x, rest st = x +:+ rest st' /\ string_forall (reads r) x = true.
Proof.
  induction r as [|p|r1 IH1 r2 IH2|r1 IH1 r2 IH2|p lo hi|n r1 IH1|r1 IH1| |];
    intros st st' H; cbn [span] in H.
  - subst. exists EmptyString. split; reflexivity.
  - destruct H as (c & H & Hp & _). exists (String c EmptyString).
    split; [exact H|]. simpl. rewrite Hp. reflexivity.
  - destruct H as (m & Ha & Hb).
    apply IH1 in Ha as (x & Hx & Fx). apply IH2 in Hb as (y & Hy & Fy).
    exists (x +:+ y). split; [rewrite Hx, Hy, append_assoc; reflexivity|].
    rewrite string_forall_app. apply andb_true_intro. split.
    + eapply string_forall_impl; [|exact Fx]. intros c Hc. cbn [reads]. rewrite Hc. reflexivity.
    + eapply string_forall_impl; [|exact Fy]. intros c Hc. cbn [reads]. rewrite Hc.
      apply orb_true_r.
  - destruct H as [H | H].
    + apply IH1 in H as (x & Hx & Fx). exists x. split; [exact Hx|].
      eapply string_forall_impl; [|exact Fx]. intros c Hc. cbn [reads]. rewrite Hc. reflexivity.
    + apply IH2 in H as (x & Hx & Fx). exists x. split; [exact Hx|].
      eapply string_forall_impl; [|exact Fx]. intros c Hc. cbn [reads]. rewrite Hc.
      apply orb_true_r.
  - destruct H as (w & H & Hw & _). exists w. split; [exact H | exact Hw].
  - destruct H as (m & Ha & ->). apply IH1 in Ha. exact Ha.
  - destruct H as [-> _]. exists EmptyString. split; reflexivity.
  - destruct H as [-> _]. exists EmptyString. split; reflexivity.
  - destruct H as [-> _]. exists EmptyString. split; reflexivity.
Qed.

(** A text with a character the pattern does not read is not matched in
    full. *)
Lemma fullmatch_foreign r s c :
  contains c s = true -> reads r c = false -> fullmatch r s = None.
Proof.
  intros Hc Hr. destruct (fullmatch r s) as [g|] eqn:E; [|reflexivity].
  apply fullmatch_span in E as (st' & Hs & He & _).
  apply span_reads in Hs as (x & Hx & Fx). cbn [rest] in Hx.
  rewrite He, append_nil_r in Hx. subst x.
  rewrite (string_forall_contains _ _ _ Fx Hc) in Hr. discriminate.
Qed.

Lemma contains_nonempty c s : contains c s = true -> truthy (Some s) = true.
Proof. destruct s; [discriminate | reflexivity]. Qed.

(** The characters of a walltime: digits, white space, [-] and [:]. *)
Definition time_char (c : ascii) : bool :=
  isdigit c || isspace c || Ascii.eqb "-" c || Ascii.eqb ":" c.

Lemma parse_time_foreign t c :
  contains c t = true -> time_char c = false ->
  parse_time_to_hours (Some t) = Return None.
Proof.
  intros Hc Ht. unfold time_char in Ht.
  apply orb_false_elim in Ht as [Ht Hcolon]. apply orb_false_elim in Ht as [Ht Hdash].
  apply orb_false_elim in Ht as [Hd Hsp].
  unfold parse_time_to_hours. rewrite (contains_nonempty c t Hc). cbn [negb].
  assert (Hs : contains c (strip t) = true) by (rewrite contains_strip; assumption).
  rewrite (fullmatch_foreign TIME_DHHMMSS _ c Hs).
  2:{ unfold TIME_DHHMMSS, digits12, Plus. cbn [reads Lit]. rewrite Hd, Hdash, Hcolon. reflexivity. }
  rewrite (fullmatch_foreign TIME_HHMMSS _ c Hs).
  2:{ unfold TIME_HHMMSS, digits12, Plus. cbn [reads Lit]. rewrite Hd, Hcolon. reflexivity. }
  rewrite (fullmatch_foreign TIME_MMSS _ c Hs).
  2:{ unfold TIME_MMSS, digits12, Plus. cbn [reads Lit]. rewrite Hd, Hcolon. reflexivity. }
  rewrite (fullmatch_foreign TIME_MM _ c Hs).
  2:{ unfold TIME_MM, Plus. cbn [reads]. exact Hd. }
  reflexivity.
Qed.

(** X8. A walltime with a character that is not a digit, white space, [-]
    or [:] is no time at all: the time parser returns [None], and
    normalization raises the [ValueError] for the unspecified time, whatever
    else the mapping holds. *)
Theorem time_with_foreign_character (slurmargs : gmap string string) (t : string) (c : ascii) :
  slurmargs !! "time" = Some t ->
  contains c t = true -> time_char c = false ->
  parse_time_to_hours (Some t) = Return None
  /\ parse_slurmargs slurmargs = Raise time_unspecified.
Proof.
  intros Hl Hc Ht. pose proof (parse_time_foreign t c Hc Ht) as E.
  split; [exact E|]. unfold parse_slurmargs. rewrite Hl, E. reflexivity.
Qed.

Lemma time_with_foreign_character_example :
  let slurmargs : gmap string string := {[ "time" := "2h"; "mem" := "4G" ]} in
  slurmargs !! "time" = Some "2h"
  /\ contains "h" "2h" = true /\ time_char "h" = false
  /\ parse_time_to_hours (Some "2h") = Return None
  /\ parse_slurmargs slurmargs = Raise time_unspecified.
Proof.
  intros slurmargs.
  assert (Hl : slurmargs !! "time" = Some "2h") by (vm_compute; reflexivity).
  split; [exact Hl|]. split; [reflexivity|]. split; [reflexivity|].
  exact (time_with_foreign_character slurmargs "2h" "h" Hl eq_refl eq_refl).
Defined.

(** The characters of a memory amount: digits, white space, [.] and the
    letters of the units. *)
Definition mem_char (c : ascii) : bool :=
  isdigit c || isspace c || Ascii.eqb "." c || kmgt c || ci "i" c || ci "b" c.

Lemma parse_mem_foreign t c :
  contains c t = true -> mem_char c = false ->
  parse_mem_to_gigabytes (Some t) = Return None.
Proof.
  intros Hc Ht. unfold mem_char in Ht.
  apply orb_false_elim in Ht as [Ht Hb]. apply orb_false_elim in Ht as [Ht Hi].
  apply orb_false_elim in Ht as [Ht Hk]. apply orb_false_elim in Ht as [Ht Hdot].
  apply orb_false_elim in Ht as [Hd Hsp].
  unfold parse_mem_to_gigabytes. rewrite (contains_nonempty c t Hc). cbn [negb].
  assert (Hs : contains c (strip t) = true) by (rewrite contains_strip; assumption).
  rewrite (fullmatch_foreign MEM_PATTERN _ c Hs); [reflexivity|].
  unfold MEM_PATTERN, Star, Plus, Opt. cbn [reads Lit].
  rewrite Hd, Hsp, Hdot, Hk, Hi, Hb. reflexivity.
Qed.

(** X9. A memory amount with a character that is not a digit, white space,
    [.] or a letter of the units is no amount at all: the memory parser
    returns [None]; when the time is good and both [mem] and [mem-per-cpu]
    are such, normalization raises the [ValueError] for the unspecified
    memory. *)
Theorem mem_with_foreign_character (slurmargs : gmap string string)
    (hours : float) (m p : string) (c d : ascii) :
  parse_time_to_hours (slurmargs !! "time") = Return (Some hours) ->
  slurmargs !! "mem" = Some m -> slurmargs !! "mem-per-cpu" = Some p ->
  contains c m = true -> mem_char c = false ->
  contains d p = true -> mem_char d = false ->
  parse_mem_to_gigabytes (Some m) = Return None
  /\ parse_slurmargs slurmargs = Raise memory_unspecified.
Proof.
  intros Ht Hm Hp Hc Hcc Hd Hdc.
  pose proof (parse_mem_foreign m c Hc Hcc) as Em.
  pose proof (parse_mem_foreign p d Hd Hdc) as Ep.
  split; [exact Em|]. unfold parse_slurmargs. rewrite Ht. cbn [bind].
  rewrite Hm, Em. cbn [bind]. rewrite Hp, Ep. reflexivity.
Qed.

Lemma mem_with_foreign_character_example :
  let slurmargs : gmap string string :=
    {[ "time" := "30"; "mem" := "4,5G"; "mem-per-cpu" := "2 Go" ]} in
  parse_time_to_hours (slurmargs !! "time") = Return (Some (S754_finite false 4503599627370496 (-53)))
  /\ parse_mem_to_gigabytes (Some "4,5G") = Return None
  /\ parse_slurmargs slurmargs = Raise memory_unspecified.
Proof.
  intros slurmargs.
  assert (Ht : parse_time_to_hours (slurmargs !! "time")
               = Return (Some (S754_finite false 4503599627370496 (-53))))
    by (vm_compute; reflexivity).
  split; [exact Ht|].
  apply (mem_with_foreign_character slurmargs _ "4,5G" "2 Go" "," "o" Ht);
    vm_compute; reflexivity.
Defined.

(** ** Array specifications with a foreign character *)

(** The characters of an array specification: digits, white space, the
    signs, the underscore of [int], and the separators. *)
Definition array_char (c : ascii) : bool :=
  isdigit c || isspace c || contains c "+-_,:%".

Lemma array_char_classes c :
  array_char c = false ->
  isdigit c = false /\ isspace c = false /\ int_isspace c = false
  /\ Ascii.eqb c "+" = false /\ Ascii.eqb c "-" = false /\ Ascii.eqb c "_" = false
  /\ Ascii.eqb c "," = false /\ Ascii.eqb c ":" = false /\ Ascii.eqb c "%" = false.
Proof. each_char c; vm_compute; intuition congruence. Qed.

Lemma contains_cons_ne c d s :
  Ascii.eqb c d = false -> contains c (String d s) = true -> contains c s = true.
Proof.
  cbn [contains]. intros Hcd [H|H]%orb_prop; [|exact H].
  apply Ascii.eqb_eq in H. subst d. rewrite Ascii.eqb_refl in Hcd. discriminate.
Qed.

Lemma int_digits_foreign c s : forall acc b,
  contains c s = true -> isdigit c = false -> Ascii.eqb c "_" = false ->
  int_digits s acc b = None.
Proof.
  induction s as [|d s IH]; intros acc b Hc Hd Hu; [discriminate|].
  cbn [int_digits]. destruct (isdigit d) eqn:Dd.
  - apply IH; [|exact Hd|exact Hu]. apply (contains_cons_ne c d); [|exact Hc].
    destruct (Ascii.eqb_spec c d); [congruence | reflexivity].
  - destruct (Ascii.eqb d "_") eqn:Du; [|reflexivity].
    destruct b; [|reflexivity].
    apply IH; [|exact Hd|exact Hu]. apply (contains_cons_ne c d); [|exact Hc].
    apply Ascii.eqb_eq in Du. subst d. exact Hu.
Qed.

(** [int] takes no text with a character that is not a digit, white space,
    a sign or an underscore. *)
Lemma py_int_foreign c s :
  contains c s = true -> isdigit c = false -> int_isspace c = false ->
  Ascii.eqb c "+" = false -> Ascii.eqb c "-" = false -> Ascii.eqb c "_" = false ->
  py_int s = None.
Proof.
  intros Hc Hd Hsp Hplus Hminus Hu. apply py_int_none. unfold int_literal.
  assert (Ht : contains c (rstrip_by int_isspace (lstrip_by int_isspace s)) = true).
  { rewrite contains_rstrip, contains_lstrip by assumption. exact Hc. }
  destruct (rstrip_by int_isspace (lstrip_by int_isspace s)) as [|d r]; [reflexivity|].
  destruct (Ascii.eqb d "+") eqn:Dp.
  { apply Ascii.eqb_eq in Dp. subst d.
    apply int_digits_foreign with (c := c); [|assumption|assumption].
    apply (contains_cons_ne c "+"); assumption. }
  destruct (Ascii.eqb d "-") eqn:Dm.
  { apply Ascii.eqb_eq in Dm. subst d.
    rewrite (int_digits_foreign c r); [reflexivity| |assumption|assumption].
    apply (contains_cons_ne c "-"); assumption. }
  apply int_digits_foreign with (c := c); assumption.
Qed.

(** A character of the text is in one of the two parts of [split1]. *)
Lemma split1_contains c sep s a ob :
  split1 sep s = (a, ob) -> contains c s = true -> Ascii.eqb c sep = false ->
  contains c a = true \/ exists b, ob = Some b /\ contains c b = true.
Proof.
  revert a ob. induction s as [|d s IH]; intros a ob Hs Hc Hsep; [discriminate|].
  cbn [split1] in Hs. destruct (Ascii.eqb d sep) eqn:Dd.
  - injection Hs as <- <-. apply Ascii.eqb_eq in Dd. subst d.
    right. exists s. split; [reflexivity|]. apply (contains_cons_ne c sep); assumption.
  - destruct (split1 sep s) as [a' ob'] eqn:E. injection Hs as <- <-.
    cbn [contains] in Hc |- *. apply orb_prop in Hc as [Hc|Hc].
    + left. rewrite Hc. reflexivity.
    + destruct (IH a' ob' eq_refl Hc Hsep) as [H | H]; [|right; exact H].
      left. rewrite H. apply orb_true_r.
Qed.

(** A character of the text, not the separator, is in one of the items of
    [split]; an item holds only characters of the text. *)
Lemma split_contains c sep s :
  contains c s = true -> Ascii.eqb c sep = false ->
  exists part, In part (split sep s) /\ contains c part = true.
Proof.
  induction s as [|d s IH]; intros Hc Hsep; [discriminate|].
  cbn [split]. destruct (Ascii.eqb d sep) eqn:Dd.
  - apply Ascii.eqb_eq in Dd. subst d.
    apply (contains_cons_ne c sep) in Hc; [|exact Hsep].
    destruct (IH Hc Hsep) as (part & Hin & Hp). exists part. split; [right; exact Hin | exact Hp].
  - cbn [contains] in Hc. apply orb_prop in Hc as [Hc|Hc].
    + destruct (split sep s) as [|p ps].
      * exists (String d EmptyString). split; [left; reflexivity|]. simpl. rewrite Hc. reflexivity.
      * exists (String d p). split; [left; reflexivity|]. simpl. rewrite Hc. reflexivity.
    + destruct (IH Hc Hsep) as (part & Hin & Hp).
      destruct (split sep s) as [|p ps]; [destruct Hin|].
      destruct Hin as [<-|Hin].
      * exists (String d p). split; [left; reflexivity|]. simpl. rewrite Hp. apply orb_true_r.
      * exists part. split; [right; exact Hin | exact Hp].
Qed.

Lemma split_part_contains c sep s part :
  In part (split sep s) -> contains c part = true -> contains c s = true.
Proof.
  revert part. induction s as [|d s IH]; intros part Hin Hp.
  - destruct Hin as [<-|[]]. discriminate.
  - cbn [split] in Hin. cbn [contains]. destruct (Ascii.eqb d sep) eqn:Dd.
    + destruct Hin as [<-|Hin]; [discriminate|].
      rewrite (IH part Hin Hp). apply orb_true_r.
    + destruct (split sep s) as [|p ps].
      * destruct Hin as [<-|[]]. simpl in Hp. rewrite orb_false_r in Hp.
        rewrite Hp. reflexivity.
      * destruct Hin as [<-|Hin].
        -- cbn [contains] in Hp. apply orb_prop in Hp as [Hp|Hp]; [rewrite Hp; reflexivity|].
           rewrite (IH p (or_introl eq_refl) Hp). apply orb_true_r.
        -- rewrite (IH part (or_intror Hin) Hp). apply orb_true_r.
Qed.

(** An item without throttle that holds a foreign character raises. *)
Lemma array_part_foreign c part total :
  contains "%" part = false -> contains c part = true -> array_char c = false ->
  array_part total part = None.
Proof.
  intros Hpc Hc Hch.
  destruct (array_char_classes c Hch)
    as (Hd & Hsp & Hisp & Hplus & Hminus & Hu & Hcomma & Hcolon & Hperc).
  assert (I : forall s, contains c s = true -> py_int s = None).
  { intros s Hs. apply (py_int_foreign c); assumption. }
  unfold array_part.
  assert (Hs : contains c (strip part) = true) by (rewrite contains_strip; assumption).
  assert (Hps : contains "%" (strip part) = false)
    by (rewrite contains_strip; [exact Hpc | reflexivity]).
  rewrite (contains_nonempty c _ Hs). cbn [negb].
  rewrite (split1_none "%" _ Hps). cbn [fst].
  destruct (contains "-" (strip part)).
  - destruct (split1 ":" (strip part)) as [a ob] eqn:E1.
    pose proof (split1_contains c ":" _ a ob E1 Hs Hcolon) as Hab.
    assert (Hcase : contains c a = true
                    \/ exists b, ob = Some b /\ contains c b = true) by exact Hab.
    clear Hab.
    destruct (split1 "-" a) as [st oe] eqn:E2.
    destruct Hcase as [Ha | (b & -> & Hb)].
    + destruct (split1_contains c "-" _ st oe E2 Ha Hminus) as [Hst | (e & -> & He)].
      * destruct ob; rewrite E2; destruct oe; try reflexivity; rewrite (I st Hst); reflexivity.
      * destruct ob; rewrite E2; rewrite (I e He); destruct (py_int st); reflexivity.
    + rewrite E2. destruct oe as [e|]; [|reflexivity].
      rewrite (I b Hb). destruct (py_int st); [|reflexivity].
      destruct (py_int e); reflexivity.
  - rewrite (I _ Hs). reflexivity.
Qed.

(** One item that raises ends the loop, wherever it stands. *)
Lemma array_loop_raises part parts :
  In part parts -> (forall total, array_part total part = None) ->
  forall total, array_loop parts total = None.
Proof.
  intros Hin Hp. induction parts as [|x parts IH]; [destruct Hin|].
  intros total. cbn [array_loop]. destruct Hin as [->|Hin].
  - rewrite Hp. reflexivity.
  - destruct (array_part total x) as [t|]; [|reflexivity]. apply (IH Hin).
Qed.

(** X10. An array specification without throttle ([%]) that holds, anywhere,
    a character that is not a digit, white space, a sign, an underscore or a
    separator counts as one task, whatever its other items are. *)
Theorem array_with_foreign_character (array_spec : string) (c : ascii) :
  contains "%" array_spec = false ->
  contains c array_spec = true -> array_char c = false ->
  parse_array_count (Some array_spec) = 1.
Proof.
  intros Hp Hc Hch.
  destruct (array_char_classes c Hch) as (_ & Hsp & _ & _ & _ & _ & Hcomma & _).
  unfold parse_array_count. rewrite (contains_nonempty c _ Hc). cbn [negb].
  assert (Hs : contains c (strip array_spec) = true) by (rewrite contains_strip; assumption).
  destruct (split_contains c "," _ Hs Hcomma) as (part & Hin & Hpart).
  rewrite (array_loop_raises part _ Hin); [reflexivity|].
  intros total. apply (array_part_foreign c); [|exact Hpart|exact Hch].
  destruct (contains "%" part) eqn:E; [|reflexivity].
  apply (split_part_contains _ _ _ _ Hin) in E.
  rewrite contains_strip in E by reflexivity. congruence.
Qed.

Lemma array_with_foreign_character_example :
  contains "%" "0-99,a" = false /\ contains "a" "0-99,a" = true /\ array_char "a" = false
  /\ parse_array_count (Some "0-99,a") = 1
  /\ parse_array_count (Some "0-99") = 100.
Proof.
  split; [reflexivity|]. split; [reflexivity|]. split; [reflexivity|].
  split; [|vm_compute; reflexivity].
  exact (array_with_foreign_character "0-99,a" "a" eq_refl eq_refl eq_refl).
Defined.

(** ** The keys normalization reads *)

Definition normalization_keys : list string :=
  ["ntasks"; "tasks-per-node"; "nodes"; "cpus-per-task"; "time"; "mem";
   "mem-per-cpu"; "array"].

(** X11. Normalization reads eight keys and no other: setting, changing or
    removing any other key of the mapping changes neither the record nor the
    exception. *)
Theorem parse_slurmargs_other_keys (slurmargs : gmap string string) (key : string)
    (value : option string) :
  ~ In key normalization_keys ->
  parse_slurmargs (partial_alter (fun _ => value) key slurmargs) = parse_slurmargs slurmargs.
Proof.
  intros Hk.
  assert (L : forall k, In k normalization_keys ->
                partial_alter (fun _ => value) key slurmargs !! k = slurmargs !! k).
  { intros k Hin. apply lookup_partial_alter_ne. intros ->. exact (Hk Hin). }
  unfold parse_slurmargs, resolve_ntasks, resolve_cpus_per_task.
  rewrite !L by (unfold normalization_keys; simpl; tauto). reflexivity.
Qed.

Lemma parse_slurmargs_other_keys_example :
  let slurmargs : gmap string string := {[ "time" := "1:00:00"; "mem" := "4G" ]} in
  ~ In "ntasks-per-node" normalization_keys
  /\ parse_slurmargs (<["ntasks-per-node" := "8"]> slurmargs) = parse_slurmargs slurmargs
  /\ parse_slurmargs (delete "job-name" slurmargs) = parse_slurmargs slurmargs.
Proof.
  intros slurmargs.
  assert (Hk : ~ In "ntasks-per-node" normalization_keys).
  { unfold normalization_keys. simpl. intros H.
    repeat (destruct H as [H|H]; [discriminate H|]). exact H. }
  split; [exact Hk|]. split.
  - exact (parse_slurmargs_other_keys slurmargs "ntasks-per-node" (Some "8") Hk).
  - vm_compute. reflexivity.
Defined.

(** ** The order of floats *)

(** Zero or finite: neither an infinity nor a NaN. *)
Definition finite (x : float) : bool :=
  match x with
  | S754_zero _ | S754_finite _ _ _ => true
  | _ => false
  end.

Definition is_nan (x : float) : bool :=
  match x with
  | S754_nan => true
  | _ => false
  end.

Lemma flt_fle x y : flt x y = true -> fle x y = true.
Proof.
  unfold flt, fle, SFltb, SFleb. destruct (SFcompare x y) as [[]|]; congruence.
Qed.

Lemma pos_compare_cont_refl m : Pos.compare_cont Eq m m = Eq.
Proof. apply (Pos.compare_refl m). Qed.

Lemma fle_refl x : is_nan x = false -> fle x x = true.
Proof.
  unfold fle, SFleb. destruct x as [s|[]| |[] m e]; cbn; try reflexivity; try discriminate;
    intros _; rewrite Z.compare_refl, pos_compare_cont_refl; reflexivity.
Qed.

Ltac order_cases :=
  repeat match goal with
         | |- context [Z.compare ?a ?b] =>
             destruct (Z.compare_spec a b); subst
         | |- context [Pos.compare_cont Eq ?a ?b] =>
             change (Pos.compare_cont Eq a b) with (Pos.compare a b);
             destruct (Pos.compare_spec a b); subst
         | H : context [Z.compare ?a ?b] |- _ =>
             destruct (Z.compare_spec a b); subst
         | H : context [Pos.compare_cont Eq ?a ?b] |- _ =>
             change (Pos.compare_cont Eq a b) with (Pos.compare a b) in H;
             destruct (Pos.compare_spec a b); subst
         end;
  cbn in *; try reflexivity; try discriminate; try lia.

(** Two floats that are no NaN are comparable. *)
Lemma fle_total x y :
  is_nan x = false -> is_nan y = false -> flt x y = false -> fle y x = true.
Proof.
  unfold flt, fle, SFltb, SFleb.
  destruct x as [sx|[]| |[] mx ex], y as [sy|[]| |[] my ey]; cbn;
    try reflexivity; try discriminate; intros _ _; order_cases.
Qed.

Lemma fle_trans x y z : fle x y = true -> fle y z = true -> fle x z = true.
Proof.
  unfold fle, SFleb.
  destruct x as [sx|[]| |[] mx ex], y as [sy|[]| |[] my ey], z as [sz|[]| |[] mz ez];
    cbn; try reflexivity; try discriminate; order_cases.
Qed.

Lemma fle_not_nan x y : fle x y = true -> is_nan x = false /\ is_nan y = false.
Proof.
  unfold fle, SFleb. destruct x as [sx|[]| |[] mx ex], y as [sy|[]| |[] my ey];
    cbn; try discriminate; auto.
Qed.

(** ** The charges of the cost model *)

Lemma signed_as_not_nan s x : signed_as s x -> is_nan x = false.
Proof. destruct x; cbn; [reflexivity | reflexivity | contradiction | reflexivity]. Qed.

Lemma float_of_int_finite n x : float_of_int n = Return x -> finite x = true.
Proof.
  unfold float_of_int. destruct (is_infinite (float_of_Z n)) eqn:E; [discriminate|].
  intros H. apply Return_inj in H. subst x.
  assert (Hn : is_nan (float_of_Z n) = false).
  { unfold float_of_Z, binary_normalize. destruct n as [|p|p]; [reflexivity | |];
      eapply signed_as_not_nan, binary_round_sign. }
  destruct (float_of_Z n); cbn in *; congruence.
Qed.

(** A product of two finite floats is no NaN. *)
Lemma fmul_finite x y :
  finite x = true -> finite y = true -> is_nan (fmul x y) = false.
Proof.
  destruct x as [sx|sx| |sx mx ex]; try discriminate;
    destruct y as [sy|sy| |sy my ey]; try discriminate; intros _ _; try reflexivity.
  unfold fmul, SFmul. eapply signed_as_not_nan. apply binary_round_aux_sign. lia.
Qed.

(** Nor is the product of a float that is no NaN with a finite one that is
    not zero. *)
Lemma fmul_factor x s m e :
  is_nan x = false -> is_nan (fmul x (S754_finite s m e)) = false.
Proof.
  destruct x as [sx|sx| |sx mx ex]; try discriminate; intros _; try reflexivity.
  unfold fmul, SFmul. eapply signed_as_not_nan. apply binary_round_aux_sign. lia.
Qed.

Lemma factor_finite q : exists m e, factor q = S754_finite false m e.
Proof. destruct q; vm_compute; eauto. Qed.

(** What the cost model returns, field by field. *)
Lemma calculate_inv r j :
  calculate_sbatch_jobcost_per_queue r = Return j ->
  exists cf af,
    float_of_int (cpus r) = Return cf /\ float_of_int (array_count r) = Return af
    /\ cost_hours j = hours r /\ cost_cpus j = cpus r
    /\ cost_memory_gb j = memory_gb r /\ cost_array_count j = array_count r
    /\ cpu_hours (per_task j) = fmul cf (hours r)
    /\ (forall q, at_queue (mem_hours (per_task j)) q
                  = fmul (fmul (memory_gb r) (hours r)) (factor q))
    /\ (forall q, at_queue (charged (per_task j)) q
                  = fmax (cpu_hours (per_task j)) (at_queue (mem_hours (per_task j)) q))
    /\ (forall q, at_queue (charged (total j)) q
                  = fmul (at_queue (charged (per_task j)) q) af).
Proof.
  unfold calculate_sbatch_jobcost_per_queue, calculate_cpu_hours, int_mul_float,
    float_mul_int.
  destruct (float_of_int (cpus r)) as [cf|] eqn:Ec; [|discriminate]. cbn [bind].
  destruct (float_of_int (array_count r)) as [af|] eqn:Ea; [|discriminate]. cbn [bind].
  intros H. apply Return_inj in H. subst j. exists cf, af.
  cbn [per_task total cpu_hours mem_hours charged cost_hours cost_cpus cost_memory_gb
       cost_array_count].
  repeat (split; [reflexivity|]). repeat split; intros []; reflexivity.
Qed.

Lemma fmax_bounds a b :
  is_nan a = false -> is_nan b = false ->
  fle a (fmax a b) = true /\ fle b (fmax a b) = true.
Proof.
  intros Ha Hb. unfold fmax. destruct (flt a b) eqn:E.
  - split; [apply flt_fle, E | apply fle_refl, Hb].
  - split; [apply fle_refl, Ha | apply fle_total; assumption].
Qed.

Lemma fmax_not_nan a b : is_nan a = false -> is_nan b = false -> is_nan (fmax a b) = false.
Proof. intros Ha Hb. unfold fmax. destruct (flt a b); assumption. Qed.

(** With finite hours and memory, no per-task figure of the cost model is a
    NaN. *)
Lemma per_task_not_nan r j :
  finite (hours r) = true -> finite (memory_gb r) = true ->
  calculate_sbatch_jobcost_per_queue r = Return j ->
  is_nan (cpu_hours (per_task j)) = false
  /\ (forall q, is_nan (at_queue (mem_hours (per_task j)) q) = false)
  /\ (forall q, is_nan (at_queue (charged (per_task j)) q) = false).
Proof.
  intros Hh Hm H.
  apply calculate_inv in H as (cf & af & Hcf & _ & _ & _ & _ & _ & Hcpu & Hmem & Hch & _).
  assert (Nc : is_nan (cpu_hours (per_task j)) = false).
  { rewrite Hcpu. apply fmul_finite; [eapply float_of_int_finite, Hcf | exact Hh]. }
  assert (Nm : forall q, is_nan (at_queue (mem_hours (per_task j)) q) = false).
  { intros q. rewrite Hmem. destruct (factor_finite q) as (m & e & ->).
    apply fmul_factor, fmul_finite; assumption. }
  split; [exact Nc|]. split; [exact Nm|].
  intros q. rewrite Hch. apply fmax_not_nan; [exact Nc | apply Nm].
Qed.

(** C8, as amended. When [cpus] and [array_count] are in the range of a
    float, the cost model returns, per task, [cpu_hours = cpus * hours],
    [mem_hours[q] = memory_gb * hours * factor[q]] with the factors
    0.2577031, 0.1104972 and 0.01059603, and
    [charged[q] = max(cpu_hours, mem_hours[q])]: the memory hours when they
    compare greater than the CPU hours, the CPU hours otherwise, and so,
    for finite hours and memory, the greater of the two; every entry of the
    total is the per-task entry times [array_count]. When [cpus] or
    [array_count] is out of the range of a float, the conversion raises and
    the cost model returns nothing. *)
Theorem C8_cost_breakdown (r : resources) :
  (forall cf af,
     float_of_int (cpus r) = Return cf ->
     float_of_int (array_count r) = Return af ->
     exists c,
       calculate_sbatch_jobcost_per_queue r = Return c
       /\ cpu_hours (per_task c) = fmul cf (hours r)
       /\ (forall q, at_queue (mem_hours (per_task c)) q
                     = fmul (fmul (memory_gb r) (hours r)) (factor q))
       /\ (forall q,
             let cpu := cpu_hours (per_task c) in
             let mem := at_queue (mem_hours (per_task c)) q in
             let charge := at_queue (charged (per_task c)) q in
             (flt cpu mem = true -> charge = mem)
             /\ (flt cpu mem = false -> charge = cpu)
             /\ (finite (hours r) = true -> finite (memory_gb r) = true ->
                 fle cpu charge = true /\ fle mem charge = true))
       /\ cpu_hours (total c) = fmul (cpu_hours (per_task c)) af
       /\ (forall q, at_queue (mem_hours (total c)) q
                     = fmul (at_queue (mem_hours (per_task c)) q) af)
       /\ (forall q, at_queue (charged (total c)) q
                     = fmul (at_queue (charged (per_task c)) q) af))
  /\ (forall e, float_of_int (cpus r) = Raise e ->
                calculate_sbatch_jobcost_per_queue r = Raise e)
  /\ (forall cf e,
        float_of_int (cpus r) = Return cf -> float_of_int (array_count r) = Raise e ->
        calculate_sbatch_jobcost_per_queue r = Raise e).
Proof.
  split; [|split].
  - intros cf af Hc Ha.
    destruct (calculate_sbatch_jobcost_per_queue r) as [c|e] eqn:E.
    2:{ exfalso. revert E.
        unfold calculate_sbatch_jobcost_per_queue, calculate_cpu_hours, int_mul_float,
          float_mul_int. rewrite Hc, Ha. cbn [bind]. discriminate. }
    exists c. split; [reflexivity|].
    assert (Hcpu : cpu_hours (per_task c) = fmul cf (hours r)
                   /\ (forall q, at_queue (mem_hours (per_task c)) q
                                 = fmul (fmul (memory_gb r) (hours r)) (factor q))
                   /\ (forall q, at_queue (charged (per_task c)) q
                                 = fmax (cpu_hours (per_task c))
                                        (at_queue (mem_hours (per_task c)) q))
                   /\ cpu_hours (total c) = fmul (cpu_hours (per_task c)) af
                   /\ (forall q, at_queue (mem_hours (total c)) q
                                 = fmul (at_queue (mem_hours (per_task c)) q) af)
                   /\ (forall q, at_queue (charged (total c)) q
                                 = fmul (at_queue (charged (per_task c)) q) af)).
    { revert E.
      unfold calculate_sbatch_jobcost_per_queue, calculate_cpu_hours, int_mul_float,
        float_mul_int. rewrite Hc, Ha. cbn [bind]. intros E. apply Return_inj in E. subst c.
      cbn [per_task total cpu_hours mem_hours charged].
      repeat split; intros []; reflexivity. }
    destruct Hcpu as (H1 & H2 & H3 & H4 & H5 & H6).
    split; [exact H1|]. split; [exact H2|]. split; [|split; [exact H4|split; [exact H5|exact H6]]].
    intros q cpu mem charge. unfold charge, cpu, mem. rewrite H3. unfold fmax.
    split; [intros ->; reflexivity|]. split; [intros ->; reflexivity|].
    intros Hh Hm. destruct (per_task_not_nan r c Hh Hm E) as (Nc & Nm & _).
    apply (fmax_bounds _ _ Nc (Nm q)).
  - intros e He. unfold calculate_sbatch_jobcost_per_queue, calculate_cpu_hours, int_mul_float.
    rewrite He. reflexivity.
  - intros cf e Hc He.
    unfold calculate_sbatch_jobcost_per_queue, calculate_cpu_hours, int_mul_float,
      float_mul_int. rewrite Hc, He. reflexivity.
Qed.

(** The example of C8: two hours, four CPUs, 10 GiB, one task. On the
    queue [normal] the memory hours are 5.154062000000001 and the charge is
    the 8 CPU hours. With 100 GiB the memory hours of that queue are above
    the CPU hours, and they are the charge. *)
Lemma C8_witness_example :
  let r := Resources (float_of_Z 2) 4 (float_of_Z 10) 1 in
  let r' := Resources (float_of_Z 2) 4 (float_of_Z 100) 1 in
  (exists c,
     calculate_sbatch_jobcost_per_queue r = Return c
     /\ cpu_hours (per_task c) = float_of_Z 8
     /\ normal (mem_hours (per_task c)) = float_lit 5154062000000001 15
     /\ normal (charged (per_task c)) = float_of_Z 8)
  /\ (exists c,
        calculate_sbatch_jobcost_per_queue r' = Return c
        /\ cpu_hours (per_task c) = float_of_Z 8
        /\ flt (float_of_Z 51) (normal (mem_hours (per_task c))) = true
        /\ normal (charged (per_task c)) = normal (mem_hours (per_task c))
        /\ hugemem (charged (per_task c)) = float_of_Z 8).
Proof.
  intros r r'.
  assert (Hc : float_of_int 4 = Return (float_of_Z 4)) by (vm_compute; reflexivity).
  assert (Ha : float_of_int 1 = Return (float_of_Z 1)) by (vm_compute; reflexivity).
  split.
  - destruct (proj1 (C8_cost_breakdown r) _ _ Hc Ha) as (c & Hr & Hcpu & Hmem & Hch & _).
    exists c. split; [exact Hr|].
    assert (E1 : cpu_hours (per_task c) = float_of_Z 8).
    { rewrite Hcpu. vm_compute. reflexivity. }
    assert (E2 : normal (mem_hours (per_task c)) = float_lit 5154062000000001 15).
    { etransitivity; [exact (Hmem Normal)|]. vm_compute. reflexivity. }
    split; [exact E1|]. split; [exact E2|].
    destruct (Hch Normal) as (_ & Hle & _). cbn [at_queue] in Hle.
    rewrite Hle; [exact E1|]. rewrite E1, E2. vm_compute. reflexivity.
  - destruct (proj1 (C8_cost_breakdown r') _ _ Hc Ha) as (c & Hr & Hcpu & Hmem & Hch & _).
    exists c. split; [exact Hr|].
    assert (E1 : cpu_hours (per_task c) = float_of_Z 8).
    { rewrite Hcpu. vm_compute. reflexivity. }
    split; [exact E1|].
    assert (E2 : flt (float_of_Z 8) (normal (mem_hours (per_task c))) = true).
    { pose proof (Hmem Normal) as E. cbn [at_queue] in E. rewrite E. vm_compute. reflexivity. }
    split. { pose proof (Hmem Normal) as E. cbn [at_queue] in E. rewrite E. vm_compute. reflexivity. }
    split.
    + destruct (Hch Normal) as (Hgt & _). cbn [at_queue] in Hgt. apply Hgt.
      rewrite E1. exact E2.
    + destruct (Hch Hugemem) as (_ & Hle & _). cbn [at_queue] in Hle.
      rewrite Hle; [exact E1|]. rewrite E1.
      pose proof (Hmem Hugemem) as E. cbn [at_queue] in E. rewrite E. vm_compute. reflexivity.
Defined.

(** C8 as the claim has it, for every record, fails where the number of
    CPUs is out of the range of a float: with [2 ** 1024] CPUs the product
    [cpus * hours] raises [OverflowError], and no breakdown is returned. *)
Lemma C8_counterexample_cpus_out_of_range :
  calculate_sbatch_jobcost_per_queue (Resources (float_of_Z 2) (2 ^ 1024) (float_of_Z 10) 1)
  = Raise (OverflowError "int too large to convert to float").
Proof. vm_compute. reflexivity. Qed.

(** X12. With finite hours and memory, the charge of a task on every queue
    is one of its CPU hours and its memory hours on that queue, and it is
    at least each of the two. *)
Theorem charged_covers_cpu_and_memory (r : resources) (j : jobcost) (q : queue) :
  finite (hours r) = true -> finite (memory_gb r) = true ->
  calculate_sbatch_jobcost_per_queue r = Return j ->
  let cpu := cpu_hours (per_task j) in
  let mem := at_queue (mem_hours (per_task j)) q in
  let charge := at_queue (charged (per_task j)) q in
  (charge = cpu \/ charge = mem)
  /\ fle cpu charge = true /\ fle mem charge = true.
Proof.
  intros Hh Hm H cpu mem charge.
  destruct (per_task_not_nan r j Hh Hm H) as (Nc & Nm & _).
  apply calculate_inv in H as (cf & af & _ & _ & _ & _ & _ & _ & _ & _ & Hch & _).
  unfold charge, cpu, mem. rewrite Hch. split.
  - unfold fmax. destruct (flt _ _); auto.
  - apply fmax_bounds; [exact Nc | apply Nm].
Qed.

Lemma charged_covers_cpu_and_memory_example :
  let r := Resources (float_of_Z 2) 4 (float_of_Z 100) 1 in
  exists j,
    calculate_sbatch_jobcost_per_queue r = Return j
    /\ cpu_hours (per_task j) = float_of_Z 8
    /\ normal (charged (per_task j)) = normal (mem_hours (per_task j))
    /\ hugemem (charged (per_task j)) = float_of_Z 8
    /\ fle (cpu_hours (per_task j)) (normal (charged (per_task j))) = true
    /\ fle (hugemem (mem_hours (per_task j))) (hugemem (charged (per_task j))) = true.
Proof.
  intros r.
  destruct (calculate_sbatch_jobcost_per_queue r) as [j|] eqn:E; [|vm_compute in E; discriminate E].
  exists j. split; [reflexivity|].
  assert (Ej : Return j = calculate_sbatch_jobcost_per_queue r) by (symmetry; exact E).
  vm_compute in Ej. apply Return_inj in Ej.
  split; [subst j; vm_compute; reflexivity|].
  split; [subst j; vm_compute; reflexivity|].
  split; [subst j; vm_compute; reflexivity|].
  split.
  - exact (proj1 (proj2 (charged_covers_cpu_and_memory r j Normal eq_refl eq_refl E))).
  - exact (proj2 (proj2 (charged_covers_cpu_and_memory r j Hugemem eq_refl eq_refl E))).
Defined.

(** ** The queues the report names *)

Lemma min_queue_minimal d q :
  (forall q, is_nan (at_queue d q) = false) ->
  fle (at_queue d (min_queue d)) (at_queue d q) = true.
Proof.
  intros N. pose proof (N Normal) as Nn. pose proof (N Bigmem) as Nb.
  pose proof (N Hugemem) as Nh. unfold min_queue. cbn [at_queue] in *.
  destruct (flt (bigmem d) (normal d)) eqn:E1; cbn [at_queue].
  - destruct (flt (hugemem d) (bigmem d)) eqn:E2; destruct q; cbn [at_queue].
    + eapply fle_trans; apply flt_fle; eassumption.
    + apply flt_fle, E2.
    + apply fle_refl, Nh.
    + apply flt_fle, E1.
    + apply fle_refl, Nb.
    + apply fle_total; assumption.
  - destruct (flt (hugemem d) (normal d)) eqn:E2; destruct q; cbn [at_queue].
    + apply flt_fle, E2.
    + apply (fle_trans _ (normal d)); [apply flt_fle, E2 | apply fle_total; assumption].
    + apply fle_refl, Nh.
    + apply fle_refl, Nn.
    + apply fle_total; assumption.
    + apply fle_total; assumption.
Qed.

Lemma max_queue_maximal d q :
  (forall q, is_nan (at_queue d q) = false) ->
  fle (at_queue d q) (at_queue d (max_queue d)) = true.
Proof.
  intros N. pose proof (N Normal) as Nn. pose proof (N Bigmem) as Nb.
  pose proof (N Hugemem) as Nh. unfold max_queue. cbn [at_queue] in *.
  destruct (flt (normal d) (bigmem d)) eqn:E1; cbn [at_queue].
  - destruct (flt (bigmem d) (hugemem d)) eqn:E2; destruct q; cbn [at_queue].
    + eapply fle_trans; apply flt_fle; eassumption.
    + apply flt_fle, E2.
    + apply fle_refl, Nh.
    + apply flt_fle, E1.
    + apply fle_refl, Nb.
    + apply fle_total; assumption.
  - destruct (flt (normal d) (hugemem d)) eqn:E2; destruct q; cbn [at_queue].
    + apply flt_fle, E2.
    + apply (fle_trans _ (normal d)); [apply fle_total; assumption | apply flt_fle, E2].
    + apply fle_refl, Nh.
    + apply fle_refl, Nn.
    + apply fle_total; assumption.
    + apply fle_total; assumption.
Qed.

Lemma int_of_float_finite x : finite x = true -> exists z, int_of_float x = Return z.
Proof. destruct x; try discriminate; intros _; cbn; eauto. Qed.

(** What the report works out, when it gets there. *)
Lemma report_figures_inv j threshold f :
  report_figures j threshold = Return f ->
  cheapest_queue f = min_queue (charged (per_task j))
  /\ most_expensive_queue f = max_queue (charged (per_task j))
  /\ shown_cpus f = cost_cpus j /\ shown_array_count f = cost_array_count j
  /\ cheapest_cost f
     = at_queue (charged (if 1 <? cost_array_count j then total j else per_task j))
                (cheapest_queue f)
  /\ most_expensive_cost f
     = at_queue (charged (if 1 <? cost_array_count j then total j else per_task j))
                (most_expensive_queue f)
  /\ warning f = fle threshold (most_expensive_cost f).
Proof.
  unfold report_figures.
  destruct (int_of_float (cost_hours j)) as [h|]; [|discriminate]. cbn [bind].
  destruct (int_of_float (cost_memory_gb j)) as [m|]; [|discriminate]. cbn [bind].
  intros H. apply Return_inj in H. subst f.
  cbn [cheapest_queue most_expensive_queue shown_cpus shown_array_count cheapest_cost
       most_expensive_cost warning].
  destruct (1 <? cost_array_count j); repeat split; reflexivity.
Qed.

(** X13. With finite hours and memory the report is worked out without an
    exception; the queue it calls cheapest has the least per-task charge of
    the three queues, and the one it calls most expensive the greatest. *)
Theorem report_names_extremal_queues (r : resources) (j : jobcost) (threshold : float) :
  finite (hours r) = true -> finite (memory_gb r) = true ->
  calculate_sbatch_jobcost_per_queue r = Return j ->
  exists f,
    report_figures j threshold = Return f
    /\ forall q,
         fle (at_queue (charged (per_task j)) (cheapest_queue f))
             (at_queue (charged (per_task j)) q) = true
         /\ fle (at_queue (charged (per_task j)) q)
                (at_queue (charged (per_task j)) (most_expensive_queue f)) = true.
Proof.
  intros Hh Hm H.
  destruct (per_task_not_nan r j Hh Hm H) as (_ & _ & N).
  apply calculate_inv in H as (cf & af & _ & _ & Eh & _ & Em & _).
  destruct (report_figures j threshold) as [f|e] eqn:E.
  - exists f. split; [reflexivity|]. intros q.
    apply report_figures_inv in E as (-> & -> & _).
    split; [apply min_queue_minimal, N | apply max_queue_maximal, N].
  - exfalso. unfold report_figures in E. rewrite Eh, Em in E.
    destruct (int_of_float_finite _ Hh) as [zh Zh].
    destruct (int_of_float_finite _ Hm) as [zm Zm].
    rewrite Zh in E. cbn [bind] in E. rewrite Zm in E. discriminate E.
Qed.

Lemma report_names_extremal_queues_example :
  let r := Resources (float_of_Z 2) 4 (float_of_Z 100) 1 in
  exists j f,
    calculate_sbatch_jobcost_per_queue r = Return j
    /\ report_figures j (float_of_Z 10000) = Return f
    /\ cheapest_queue f = Hugemem /\ most_expensive_queue f = Normal
    /\ warning f = false
    /\ fle (hugemem (charged (per_task j))) (bigmem (charged (per_task j))) = true
    /\ fle (bigmem (charged (per_task j))) (normal (charged (per_task j))) = true.
Proof.
  intros r.
  destruct (calculate_sbatch_jobcost_per_queue r) as [j|] eqn:E;
    [|vm_compute in E; discriminate E].
  destruct (report_names_extremal_queues r j (float_of_Z 10000) eq_refl eq_refl E)
    as (f & Hf & Hq).
  exists j, f. split; [reflexivity|]. split; [exact Hf|].
  assert (Ej : Return j = calculate_sbatch_jobcost_per_queue r) by (symmetry; exact E).
  vm_compute in Ej. apply Return_inj in Ej.
  assert (Ef : Return f = report_figures j (float_of_Z 10000)) by (symmetry; exact Hf).
  rewrite Ej in Ef. vm_compute in Ef. apply Return_inj in Ef.
  assert (Ec : cheapest_queue f = Hugemem) by (rewrite Ef; reflexivity).
  assert (Em : most_expensive_queue f = Normal) by (rewrite Ef; reflexivity).
  split; [exact Ec|]. split; [exact Em|]. split; [rewrite Ef; reflexivity|].
  split.
  - pose proof (proj1 (Hq Bigmem)) as H1. rewrite Ec in H1. exact H1.
  - pose proof (proj2 (Hq Bigmem)) as H2. rewrite Em in H2. exact H2.
Defined.

(** X14. For a job that is no array, with finite hours and memory, the
    report shows the warning exactly when the charge on some queue reaches
    the threshold. *)
Theorem warning_when_some_queue_reaches_threshold (r : resources) (j : jobcost)
    (threshold : float) (f : figures) :
  finite (hours r) = true -> finite (memory_gb r) = true ->
  array_count r <= 1 ->
  calculate_sbatch_jobcost_per_queue r = Return j ->
  report_figures j threshold = Return f ->
  warning f = true
  <-> exists q, fle threshold (at_queue (charged (per_task j)) q) = true.
Proof.
  intros Hh Hm Ha H Hf.
  destruct (per_task_not_nan r j Hh Hm H) as (_ & _ & N).
  apply calculate_inv in H as (cf & af & _ & _ & _ & _ & _ & Ec & _).
  apply report_figures_inv in Hf as (_ & Hq & _ & _ & _ & Hc & Hw).
  rewrite Ec in Hc. assert (Hlt : (1 <? array_count r) = false) by (apply Z.ltb_ge; exact Ha).
  rewrite Hlt in Hc. rewrite Hw, Hc, Hq. split.
  - intros Ht. eexists. exact Ht.
  - intros [q Ht]. eapply fle_trans; [exact Ht|]. apply max_queue_maximal, N.
Qed.

Lemma warning_when_some_queue_reaches_threshold_example :
  let r := Resources (float_of_Z 100) 128 (float_of_Z 4) 1 in
  exists j f,
    calculate_sbatch_jobcost_per_queue r = Return j
    /\ report_figures j (float_of_Z 10000) = Return f
    /\ (warning f = true
        <-> exists q, fle (float_of_Z 10000) (at_queue (charged (per_task j)) q) = true)
    /\ warning f = true.
Proof.
  intros r.
  destruct (calculate_sbatch_jobcost_per_queue r) as [j|] eqn:E;
    [|vm_compute in E; discriminate E].
  destruct (report_figures j (float_of_Z 10000)) as [f|] eqn:Hf.
  - exists j, f. split; [reflexivity|]. split; [exact Hf|].
    assert (Ha : array_count r <= 1) by (cbn; lia).
    split;
      [exact (warning_when_some_queue_reaches_threshold r j _ f eq_refl eq_refl Ha E Hf)|].
    assert (Ej : Return j = calculate_sbatch_jobcost_per_queue r) by (symmetry; exact E).
    vm_compute in Ej. apply Return_inj in Ej.
    assert (Ef : Return f = report_figures j (float_of_Z 10000)) by (symmetry; exact Hf).
    rewrite Ej in Ef. vm_compute in Ef. apply Return_inj in Ef.
    rewrite Ef. reflexivity.
  - exfalso.
    assert (Ej : Return j = calculate_sbatch_jobcost_per_queue r) by (symmetry; exact E).
    vm_compute in Ej. apply Return_inj in Ej.
    rewrite Ej in Hf. vm_compute in Hf. discriminate Hf.
Defined.

(** ** Scripts as they are written *)

(** A line of a script: a directive, with the white space before it, or any
    other line — a command, a comment, a blank line. *)
Inductive script_line : Type :=
| DirectiveLine (indent : string) (d : directive)
| OtherLine (text : string).

Definition render_line (l : script_line) : string :=
  match l with
  | DirectiveLine indent d => indent +:+ render_directive d
  | OtherLine text => text
  end.

Fixpoint render_lines (ls : list script_line) : string :=
  match ls with
  | [] => EmptyString
  | l :: ls' => render_line l +:+ String "010" (render_lines ls')
  end.

(** [s.startswith(p)] *)
Fixpoint has_prefix (p s : string) : bool :=
  match p, s with
  | EmptyString, _ => true
  | String a p', String b s' => Ascii.eqb a b && has_prefix p' s'
  | String _ _, EmptyString => false
  end.

(** A directive line is as in [directive_ok], after white space only; any
    other line is one line, and what follows its leading white space
    does not begin with [#SBATCH]. *)
Definition line_ok (l : script_line) : Prop :=
  match l with
  | DirectiveLine indent d => string_forall isspace indent = true /\ directive_ok d
  | OtherLine text =>
      contains "010" text = false
      /\ has_prefix "#SBATCH" (lstrip_by isspace text) = false
  end.

Fixpoint directives_of (ls : list script_line) : list directive :=
  match ls with
  | [] => []
  | DirectiveLine _ d :: ls' => d :: directives_of ls'
  | OtherLine _ :: ls' => directives_of ls'
  end.

Lemma span_lit_text l : forall st st', span (Lit l) st st' -> rest st = l +:+ rest st'.
Proof.
  induction l as [|a l IH]; intros st st' H; cbn [Lit span] in H.
  - subst. reflexivity.
  - destruct H as (m & (c & Hr & Hc & _) & Hl). apply Ascii.eqb_eq in Hc. subst c.
    rewrite Hr, (IH _ _ Hl). reflexivity.
Qed.

(** A match of the header pattern begins with white space and [#SBATCH]. *)
Lemma header_match_begins pv s st :
  match_at SLURMHEADER_PATTERN pv s = Some st ->
  exists w x, s = w +:+ "#SBATCH" +:+ x /\ string_forall isspace w = true.
Proof.
  unfold match_at. intros H. apply mt_sound in H as (st' & Hspan & _).
  unfold SLURMHEADER_PATTERN in Hspan. cbn [span] in Hspan.
  destruct Hspan as (m1 & [-> _] & m2 & Hws & m3 & Hlit & _).
  destruct Hws as (w0 & Hr & Hw & _). cbn [rest] in Hr.
  apply span_lit_text in Hlit. exists w0, (rest m3). rewrite Hr, Hlit. auto.
Qed.

(** Two ways of reading the white space before a character that is none are
    the same. *)
Lemma space_run_unique w1 a x1 w2 c x2 :
  w1 +:+ String a x1 = w2 +:+ String c x2 ->
  string_forall isspace w1 = true -> string_forall isspace w2 = true ->
  isspace a = false -> isspace c = false ->
  String a x1 = String c x2.
Proof.
  revert w2. induction w1 as [|b w1 IH]; intros w2 E H1 H2 Ha Hc.
  - destruct w2 as [|d w2]; [exact E|]. simpl in E, H2. injection E as -> _.
    apply andb_prop in H2 as [H2 _]. congruence.
  - destruct w2 as [|d w2]; simpl in E, H1.
    + injection E as -> _. apply andb_prop in H1 as [H1 _]. congruence.
    + injection E as _ E. simpl in H2.
      apply andb_prop in H1 as [_ H1]. apply andb_prop in H2 as [_ H2].
      exact (IH w2 E H1 H2 Ha Hc).
Qed.

Lemma has_prefix_app p x : has_prefix p (p +:+ x) = true.
Proof. induction p as [|a p IH]; simpl; [reflexivity|]. rewrite Ascii.eqb_refl. exact IH. Qed.

(** A prefix without a newline lies within the first line. *)
Lemma has_prefix_line p : forall u more,
  contains "010" p = false ->
  has_prefix p (u +:+ String "010" more) = true -> has_prefix p u = true.
Proof.
  induction p as [|a p IH]; intros u more Hp H; [reflexivity|].
  simpl in Hp. apply orb_false_elim in Hp as [Ha Hp].
  destruct u as [|b u]; simpl in H |- *.
  - rewrite Ha in H. discriminate.
  - apply andb_prop in H as [Hab H]. rewrite Hab. exact (IH u more Hp H).
Qed.

(** No directive is matched from the white space before a line that does
    not begin with [#SBATCH]. *)
Lemma header_no_match_other pv ws c t more :
  string_forall isspace ws = true -> isspace c = false ->
  has_prefix "#SBATCH" (String c t) = false ->
  match_at SLURMHEADER_PATTERN pv (ws +:+ String c t +:+ String "010" more) = None.
Proof.
  intros Hws Hc Hp.
  destruct (match_at SLURMHEADER_PATTERN pv _) as [st|] eqn:E; [|reflexivity].
  apply header_match_begins in E as (w & x & E & Hw).
  change ("#SBATCH" +:+ x) with (String "#" ("SBATCH" +:+ x)) in E.
  change (String c t +:+ String "010" more) with (String c (t +:+ String "010" more)) in E.
  symmetry in E. apply space_run_unique in E; [|assumption|assumption|reflexivity|assumption].
  assert (H : has_prefix "#SBATCH" (String c t +:+ String "010" more) = true).
  { change (String c t +:+ String "010" more) with (String c (t +:+ String "010" more)).
    rewrite <- E. apply (has_prefix_app "#SBATCH" x). }
  apply has_prefix_line in H; [congruence | reflexivity].
Qed.

(** Inside a line no match begins: the scan moves on to the next line. *)
Lemma finditer_rest_of_line t : forall a more,
  Ascii.eqb a "010" = false -> contains "010" t = false ->
  finditer_from SLURMHEADER_PATTERN (Some a) (t +:+ String "010" more) 0
  = finditer_from SLURMHEADER_PATTERN (Some "010"%char) more 0.
Proof.
  induction t as [|b t IH]; intros a more Ha Ht.
  - cbn [String.append finditer_from]. rewrite (header_match_needs_line_start a _ Ha).
    reflexivity.
  - simpl in Ht. apply orb_false_elim in Ht as [Hb Ht].
    change (String b t +:+ String "010" more) with (String b (t +:+ String "010" more)).
    cbn [finditer_from]. rewrite (header_match_needs_line_start a _ Ha).
    apply IH; assumption.
Qed.

(** A line that is no directive gives no match, with the white space before
    it. *)
Lemma finditer_other_line ws : forall pv c t more,
  string_forall isspace ws = true -> isspace c = false ->
  has_prefix "#SBATCH" (String c t) = false ->
  contains "010" (String c t) = false ->
  finditer_from SLURMHEADER_PATTERN pv (ws +:+ String c t +:+ String "010" more) 0
  = finditer_from SLURMHEADER_PATTERN (Some "010"%char) more 0.
Proof.
  induction ws as [|a ws IH]; intros pv c t more Hws Hc Hp Hn.
  - pose proof (header_no_match_other pv EmptyString c t more eq_refl Hc Hp) as E.
    change (EmptyString +:+ String c t +:+ String "010" more)
      with (String c (t +:+ String "010" more)) in E |- *.
    cbn [finditer_from]. rewrite E.
    simpl in Hn. apply orb_false_elim in Hn as [Hcn Hn].
    apply finditer_rest_of_line; assumption.
  - pose proof (header_no_match_other pv (String a ws) c t more Hws Hc Hp) as E.
    change (String a ws +:+ String c t +:+ String "010" more)
      with (String a (ws +:+ String c t +:+ String "010" more)) in E |- *.
    cbn [finditer_from]. rewrite E.
    simpl in Hws. apply andb_prop in Hws as [_ Hws].
    apply IH; assumption.
Qed.

(** The text before the first character that is no white space. *)
Lemma lstrip_by_split sp s :
  exists w, s = w +:+ lstrip_by sp s /\ string_forall sp w = true.
Proof.
  induction s as [|a s (w & E & Hw)]; [exists EmptyString; auto|].
  simpl. destruct (sp a) eqn:Ha.
  - exists (String a w). simpl. rewrite Ha, Hw, <- E. auto.
  - exists EmptyString. auto.
Qed.

Lemma prev_after_last c w : prev_after (Some c) w = last_char (String c w).
Proof.
  unfold prev_after. destruct w as [|b w]; [reflexivity|].
  rewrite (last_char_cons c (String b w)) by discriminate.
  destruct (last_char_some (String b w)) as [d ->]; [discriminate | reflexivity].
Qed.

(** After a match the scan resumes where the match ended. *)
Lemma finditer_after_match r pv x s' st :
  x <> EmptyString ->
  match_at r pv (x +:+ s') = Some st -> rest st = s' ->
  finditer_from r pv (x +:+ s') 0 = caps st :: finditer_from r (last_char x) s' 0.
Proof.
  intros Hx Hm Hr. destruct x as [|c x]; [congruence|].
  change (String c x +:+ s') with (String c (x +:+ s')) in *.
  cbn [finditer_from]. rewrite Hm, Hr. f_equal.
  replace (Nat.pred (String.length (String c (x +:+ s')) - String.length s'))
    with (String.length x).
  2:{ cbn [String.length]. rewrite length_append. lia. }
  rewrite finditer_skip, prev_after_last. reflexivity.
Qed.

Lemma last_char_append_nonempty s t :
  t <> EmptyString -> last_char (s +:+ t) = last_char t.
Proof. destruct t as [|c t]; [congruence|]. intros _. apply last_char_app. Qed.

(** The matches of [finditer] on a script are its directive lines, one by
    one; [ws] is the white space of the blank lines passed over. *)
Lemma finditer_render_lines ls : forall ws pv,
  pv = None \/ pv = Some "010"%char ->
  string_forall isspace ws = true ->
  Forall line_ok ls ->
  finditer_from SLURMHEADER_PATTERN pv (ws +:+ render_lines ls) 0
  = directive_groups <$> directives_of ls.
Proof.
  induction ls as [|l ls IH]; intros ws pv Hpv Hws Hok.
  - cbn [render_lines directives_of fmap list_fmap]. rewrite append_nil_r.
    apply finditer_no_hash.
    destruct (contains "#" ws) eqn:E; [|reflexivity].
    pose proof (string_forall_contains _ _ _ Hws E) as F. discriminate F.
  - apply List.Forall_cons_iff in Hok as [Hl Hok].
    destruct l as [indent d | text]; cbn [render_lines render_line directives_of line_ok] in *.
    + destruct Hl as [Hi Hd]. cbn [fmap list_fmap].
      destruct (render_directive_last d Hd) as (body & c & Hb & Hprev & Hc).
      assert (Hw : string_forall isspace (ws +:+ indent) = true).
      { rewrite string_forall_app, Hws, Hi. reflexivity. }
      pose proof (header_match_indented d (render_lines ls) pv (ws +:+ indent) Hd Hpv Hw) as Hm.
      set (x := (ws +:+ indent) +:+ render_directive d).
      assert (Ht : ws +:+ (indent +:+ render_directive d) +:+ String "010" (render_lines ls)
                   = x +:+ String "010" (render_lines ls)).
      { unfold x. rewrite !append_assoc. reflexivity. }
      assert (Hm' : match_at SLURMHEADER_PATTERN pv (x +:+ String "010" (render_lines ls))
                    = Some (State (last_char (d_value d)) (String "010" (render_lines ls))
                                  (directive_groups d))).
      { unfold x. rewrite append_assoc. exact Hm. }
      assert (Hx : x <> EmptyString).
      { unfold x. rewrite Hb. destruct (ws +:+ indent); discriminate. }
      assert (Hlast : last_char x = Some c).
      { unfold x. rewrite last_char_append_nonempty by (rewrite Hb; discriminate).
        rewrite Hb, <- prev_after_last. exact Hprev. }
      rewrite Ht.
      rewrite (finditer_after_match _ pv x _ _ Hx Hm' eq_refl).
      cbn [caps]. f_equal. rewrite Hlast.
      cbn [finditer_from]. rewrite (header_match_needs_line_start c _ Hc).
      apply (IH EmptyString); [right; reflexivity | reflexivity | exact Hok].
    + destruct Hl as [Hn Hp].
      destruct (lstrip_by_split isspace text) as (w & E & Hw).
      destruct (lstrip_by isspace text) as [|c t] eqn:El.
      * rewrite append_nil_r in E. subst w.
        replace (ws +:+ text +:+ String "010" (render_lines ls))
          with ((ws +:+ text +:+ String "010" EmptyString) +:+ render_lines ls)
          by (rewrite !append_assoc; reflexivity).
        apply IH; [exact Hpv | | exact Hok].
        rewrite !string_forall_app, Hws, Hw. reflexivity.
      * assert (Hc : isspace c = false).
        { pose proof (lstrip_by_starts isspace text) as S. rewrite El in S. exact S. }
        assert (Hnt : contains "010" (String c t) = false).
        { rewrite E, contains_app in Hn. apply orb_false_elim in Hn. tauto. }
        rewrite E.
        replace (ws +:+ (w +:+ String c t) +:+ String "010" (render_lines ls))
          with ((ws +:+ w) +:+ String c t +:+ String "010" (render_lines ls))
          by (rewrite !append_assoc; reflexivity).
        rewrite finditer_other_line; [| |assumption|assumption|assumption].
        -- apply (IH EmptyString); [right; reflexivity | reflexivity | exact Hok].
        -- rewrite string_forall_app, Hws, Hw. reflexivity.
Qed.

Lemma directives_of_ok ls :
  Forall line_ok ls -> Forall directive_ok (directives_of ls).
Proof.
  intros Hok. induction ls as [|[indent d|text] ls IH]; cbn [directives_of].
  - constructor.
  - apply List.Forall_cons_iff in Hok as [[_ Hd] Hok]. constructor; [exact Hd | exact (IH Hok)].
  - apply List.Forall_cons_iff in Hok as [_ Hok]. exact (IH Hok).
Qed.

(** X15. Of a script as it is written — directive lines, possibly indented,
    among commands, comments and blank lines — extraction keeps the
    directive lines and files them in turn; every other line is passed
    over, among them a directive that is commented out. *)
Theorem extract_script_lines (ls : list script_line) :
  Forall line_ok ls ->
  Forall (fun d => contains "#" (d_value d) = false) (directives_of ls) ->
  extract_slurmheader_arguments (render_lines ls)
  = Return (fold_left file_directive (directives_of ls) ∅).
Proof.
  intros Hok Hh. unfold extract_slurmheader_arguments, finditer.
  pose proof (finditer_render_lines ls EmptyString None (or_introl eq_refl) eq_refl Hok) as E.
  change (EmptyString +:+ render_lines ls) with (render_lines ls) in E. rewrite E.
  apply header_loop_directives; [apply directives_of_ok, Hok | exact Hh].
Qed.

Lemma extract_script_lines_example :
  let ls := [ OtherLine "#!/bin/bash";
              DirectiveLine "" (Directive (LongName "time") Equals "1:00:00");
              OtherLine "";
              OtherLine "# memory of the job";
              DirectiveLine "  " (Directive (LongName "mem") Blank "4G");
              OtherLine "##SBATCH --mem=100G";
              OtherLine "srun ./model" ] in
  Forall line_ok ls
  /\ render_lines ls
     = "#!/bin/bash" +:+ newline +:+ "#SBATCH --time=1:00:00" +:+ newline +:+ newline
       +:+ "# memory of the job" +:+ newline +:+ "  #SBATCH --mem 4G" +:+ newline
       +:+ "##SBATCH --mem=100G" +:+ newline +:+ "srun ./model" +:+ newline
  /\ extract_slurmheader_arguments (render_lines ls)
     = Return {[ "time" := "1:00:00"; "mem" := "4G" ]}.
Proof.
  intros ls.
  assert (Hok : Forall line_ok ls).
  { repeat (apply List.Forall_cons;
            [first [ split; reflexivity
                   | split; [reflexivity | repeat split; discriminate] ]|]).
    apply List.Forall_nil. }
  assert (Hh : Forall (fun d => contains "#" (d_value d) = false) (directives_of ls)).
  { repeat (apply List.Forall_cons; [reflexivity|]). apply List.Forall_nil. }
  split; [exact Hok|]. split; [reflexivity|].
  etransitivity; [exact (extract_script_lines ls Hok Hh)|].
  vm_compute. reflexivity.
Defined.

(** ** The white space between an option and its value *)

Lemma space_classes c :
  isspace c = true -> is_name_char c = false /\ Ascii.eqb "=" c = false.
Proof. each_char c; vm_compute; intuition congruence. Qed.

(** An option is matched with its value over any run of white space between
    the two, line ends included. *)
Lemma header_match_spaced name ws v more pv :
  directive_ok (Directive name Blank v) -> (pv = None \/ pv = Some "010"%char) ->
  ws <> EmptyString -> string_forall isspace ws = true ->
  match_at SLURMHEADER_PATTERN pv
    ("#SBATCH " +:+ render_name name +:+ ws +:+ v +:+ String "010" more)
  = Some (State (last_char v) (String "010" more)
                (directive_groups (Directive name Blank v))).
Proof.
  intros (Hn & Hs & Hv) Hpv Hne Hws. cbn [d_name d_sep d_value] in *.
  unfold match_at, SLURMHEADER_PATTERN, directive_groups. cbn [d_name d_sep d_value].
  assert (Hbol : forall (k : state -> option state) s cs,
            mt Bol (State pv s cs) k = k (State pv s cs)).
  { intros. destruct Hpv as [-> | ->]; reflexivity. }
  assert (Hsp : starts_with isspace (v +:+ String "010" more) = false).
  { destruct v as [|a v]; [discriminate|]. simpl in Hs |- *.
    apply nonspace_not_crlf_classes, Hs. }
  destruct ws as [|b ws]; [congruence|]. clear Hne.
  pose proof Hws as Hws'. simpl in Hws'. apply andb_prop in Hws' as [Hb Hwt].
  destruct (space_classes b Hb) as (Hbn & Hbe).
  match goal with
  | |- mt (Seq Bol ?r) ?st ?k = ?rhs =>
      change (mt Bol st (fun st' => mt r st' k) = rhs)
  end.
  rewrite Hbol.
  destruct name as [n | c]; cbn [mt Star Plus Lit prev rest caps name_text render_name].
  - destruct Hn as [Hne Hn].
    eapply (rep_greedy _ _ EmptyString);
      [reflexivity | reflexivity | reflexivity | apply Nat.le_0_l | exact I |].
    cbn beta. simpl. do 2 apply first_some.
    eapply (rep_greedy _ _ n (String b ws +:+ v +:+ String "010" more));
      [reflexivity | exact Hn | simpl; exact Hbn
      | destruct n; [congruence | simpl; lia] | exact I |].
    cbn beta. rewrite consumed_app. simpl. rewrite Hbe.
    rewrite Hb. cbn [andb]. repeat apply first_some.
    eapply (rep_greedy _ _ ws (v +:+ String "010" more));
      [reflexivity | exact Hwt | exact Hsp | apply Nat.le_0_l | exact I |].
    exact (value_group_match 4%nat v more _ [(1%nat, n)]
             (fun st => mt Eol st Some) _ Hs Hv eq_refl).
  - destruct (letter_classes c Hn) as (Hdash & _ & _).
    eapply (rep_greedy _ _ EmptyString);
      [reflexivity | reflexivity | reflexivity | apply Nat.le_0_l | exact I |].
    cbn beta. simpl. rewrite Hdash, Hn.
    change (consumed (String c ?s) ?s) with (consumed (String c EmptyString +:+ s) s).
    rewrite (consumed_app (String c EmptyString)). simpl. rewrite Hbe.
    rewrite Hb. cbn [andb]. repeat apply first_some.
    eapply (rep_greedy _ _ ws (v +:+ String "010" more));
      [reflexivity | exact Hwt | exact Hsp | apply Nat.le_0_l | exact I |].
    exact (value_group_match 4%nat v more _ [(2%nat, String c EmptyString)]
             (fun st => mt Eol st Some) _ Hs Hv eq_refl).
Qed.

(** X16. The blank between an option and its value may be any run of white
    space, line ends included: a directive with no value on its own line
    takes the next text line as its value. The lines after it are extracted
    as ever. *)
Theorem extract_value_after_white_space (name : option_name) (ws v : string)
    (ls : list script_line) :
  directive_ok (Directive name Blank v) ->
  ws <> EmptyString -> string_forall isspace ws = true ->
  contains "#" v = false ->
  Forall line_ok ls ->
  Forall (fun d => contains "#" (d_value d) = false) (directives_of ls) ->
  extract_slurmheader_arguments
    ("#SBATCH " +:+ render_name name +:+ ws +:+ v +:+ String "010" (render_lines ls))
  = Return (fold_left file_directive (directives_of ls)
              {[ canonical_name (name_text name) := stored_value v ]}).
Proof.
  intros Hd Hne Hws Hh Hok Hhs.
  pose proof (header_match_spaced name ws v (render_lines ls) None Hd (or_introl eq_refl)
                Hne Hws) as Hm.
  destruct Hd as (Hn & Hs & Hv). cbn [d_name d_value] in Hn, Hs, Hv.
  assert (Hvne : v <> EmptyString) by (destruct v; [discriminate | discriminate]).
  destruct (last_char_some v Hvne) as [c Hc].
  assert (Hcn : Ascii.eqb c "010" = false).
  { apply not_crlf_not_newline. eapply last_char_forall; eassumption. }
  set (x := "#SBATCH " +:+ render_name name +:+ ws +:+ v).
  assert (Ht : "#SBATCH " +:+ render_name name +:+ ws +:+ v +:+ String "010" (render_lines ls)
               = x +:+ String "010" (render_lines ls)).
  { unfold x. rewrite !append_assoc. reflexivity. }
  assert (Hx : x <> EmptyString) by discriminate.
  assert (Hlast : last_char x = Some c).
  { unfold x.
    replace ("#SBATCH " +:+ render_name name +:+ ws +:+ v)
      with (("#SBATCH " +:+ render_name name +:+ ws) +:+ v)
      by (rewrite !append_assoc; reflexivity).
    rewrite last_char_append_nonempty by exact Hvne. exact Hc. }
  rewrite Ht in Hm |- *.
  unfold extract_slurmheader_arguments, finditer.
  rewrite (finditer_after_match _ None x _ _ Hx Hm eq_refl). cbn [caps].
  rewrite Hlast. cbn [finditer_from]. rewrite (header_match_needs_line_start c _ Hcn).
  pose proof (finditer_render_lines ls EmptyString (Some "010"%char) (or_intror eq_refl)
                eq_refl Hok) as E.
  change (EmptyString +:+ render_lines ls) with (render_lines ls) in E. rewrite E.
  cbn [header_loop].
  rewrite (header_step_directive ∅ (Directive name Blank v));
    [|repeat split; assumption | exact Hh].
  cbn [bind d_name d_value]. rewrite insert_empty.
  apply header_loop_directives; [apply directives_of_ok, Hok | exact Hhs].
Qed.

Lemma extract_value_after_white_space_example :
  let scriptlines := "#SBATCH --time" +:+ newline +:+ "srun ./model" +:+ newline in
  extract_slurmheader_arguments scriptlines = Return {[ "time" := "srun ./model" ]}
  /\ main_costs_per_queue scriptlines = Raise time_unspecified.
Proof.
  intros scriptlines.
  assert (Hd : directive_ok (Directive (LongName "time") Blank "srun ./model"))
    by (repeat split; discriminate).
  assert (E : extract_slurmheader_arguments scriptlines = Return {[ "time" := "srun ./model" ]}).
  { etransitivity;
      [exact (extract_value_after_white_space (LongName "time") newline "srun ./model" []
                Hd ltac:(discriminate) eq_refl eq_refl (List.Forall_nil _) (List.Forall_nil _))|].
    vm_compute. reflexivity. }
  split; [exact E|]. unfold main_costs_per_queue. rewrite E. vm_compute. reflexivity.
Defined.

(** ** Quoted values *)

Lemma drop_last_app w c : drop_last (w +:+ String c EmptyString) = w.
Proof.
  induction w as [|a w IH]; [reflexivity|].
  change (String a w +:+ String c EmptyString) with (String a (w +:+ String c EmptyString)).
  destruct (w +:+ String c EmptyString) as [|b t] eqn:E; [destruct w; discriminate|].
  change (drop_last (String a (String b t))) with (String a (drop_last (String b t))).
  rewrite IH. reflexivity.
Qed.

(** A value between two quotes of one kind is filed without them, and
    trimmed. *)
Lemma stored_value_quoted q w :
  q = "'"%char \/ q = "034"%char ->
  stored_value (String q (w +:+ String q EmptyString)) = strip w.
Proof.
  intros Hq.
  assert (Hsp : isspace q = false) by (destruct Hq as [-> | ->]; reflexivity).
  assert (Hk : Ascii.eqb q "'" || Ascii.eqb q "034" = true)
    by (destruct Hq as [-> | ->]; reflexivity).
  assert (Hl : last_char (w +:+ String q EmptyString) = Some q) by apply last_char_app.
  unfold stored_value.
  rewrite (strip_id (String q (w +:+ String q EmptyString)) q);
    [|exact Hsp | | exact Hsp].
  2:{ rewrite last_char_cons by (destruct w; discriminate). exact Hl. }
  unfold argvalue_is_quoted, unquote.
  destruct (w +:+ String q EmptyString) as [|a t] eqn:E; [destruct w; discriminate|].
  rewrite Hl, Ascii.eqb_refl, Hk. cbn [andb].
  rewrite <- E, drop_last_app. reflexivity.
Qed.

(** X17. A directive whose value stands between two single or two double
    quotes is filed with the text between the quotes, trimmed. *)
Theorem extract_quoted_value (indent : string) (name : option_name) (sep : separator)
    (q : ascii) (w : string) (ls : list script_line) :
  q = "'"%char \/ q = "034"%char ->
  line_ok (DirectiveLine indent (Directive name sep (String q (w +:+ String q EmptyString)))) ->
  contains "#" w = false ->
  Forall line_ok ls ->
  Forall (fun d => contains "#" (d_value d) = false) (directives_of ls) ->
  extract_slurmheader_arguments
    (render_lines
       (DirectiveLine indent (Directive name sep (String q (w +:+ String q EmptyString))) :: ls))
  = Return (fold_left file_directive (directives_of ls)
              {[ canonical_name (name_text name) := strip w ]}).
Proof.
  intros Hq Hl Hw Hok Hh.
  set (d := Directive name sep (String q (w +:+ String q EmptyString))) in *.
  assert (Hoks : Forall line_ok (DirectiveLine indent d :: ls)) by (constructor; assumption).
  assert (Hhd : contains "#" (d_value d) = false).
  { unfold d. cbn [d_value contains]. rewrite contains_app, Hw. cbn [contains].
    destruct Hq as [-> | ->]; reflexivity. }
  unfold extract_slurmheader_arguments, finditer.
  pose proof (finditer_render_lines _ EmptyString None (or_introl eq_refl) eq_refl Hoks) as E.
  change (EmptyString +:+ render_lines (DirectiveLine indent d :: ls))
    with (render_lines (DirectiveLine indent d :: ls)) in E.
  rewrite E.
  rewrite header_loop_directives;
    [| apply directives_of_ok, Hoks | cbn [directives_of]; constructor; assumption].
  cbn [directives_of fold_left]. unfold file_directive at 2. unfold d at 1 2.
  cbn [d_name d_value]. rewrite (stored_value_quoted q w Hq), insert_empty. reflexivity.
Qed.

Lemma extract_quoted_value_example :
  let scriptlines :=
    "#SBATCH --job-name=" +:+ String "034" (" my job " +:+ String "034" newline) in
  extract_slurmheader_arguments scriptlines = Return {[ "job-name" := "my job" ]}.
Proof.
  intros scriptlines.
  assert (Hl : line_ok (DirectiveLine EmptyString
                 (Directive (LongName "job-name") Equals
                    (String "034" (" my job " +:+ String "034" EmptyString)))))
    by (split; [reflexivity | repeat split; discriminate]).
  etransitivity;
    [exact (extract_quoted_value EmptyString (LongName "job-name") Equals "034" " my job " []
              (or_intror eq_refl) Hl eq_refl (List.Forall_nil _) (List.Forall_nil _))|].
  vm_compute. reflexivity.
Defined.
